(** * MOS-DEF: selector resolution, batch rotation and rollback

    A shallow embedding of the C sources [util.c], [rotate.c], [cli.c],
    [config.c] and [enum.c] of MOS-DEF (Monitor Orientation Switcher), and
    the properties of its selector engine, rotation engine, batch
    orchestrator, rollback manager and confirmation controller.

    Modelling conventions.
    - A C string is the Rocq [string] of its characters up to the
      terminating NUL; a [char*] that may be [NULL] is an [option string].
    - [DWORD], [LONG] and [int] values are integers in [Z]; no arithmetic
      of the modelled code can overflow (counters are bounded by the
      number of monitors).
    - Heap allocation ([malloc], [_strdup]) is taken to succeed.
      Deallocation is modelled only where a block is freed twice: in
      [main], after a rotation command with [--only].
    - Reading an array slot that was never written, passing [NULL] to
      [strcmp] and freeing a block twice are undefined behaviour in C;
      the model makes it explicit as the outcome [UB].
    - Console output ([printf], [log_info], [log_error], [log_verbose])
      is not modelled. *)

From Stdlib Require Import ZArith List String Ascii Bool Lia.
From Stdlib Require DecimalString DecimalNat.
Import ListNotations.

Local Open Scope string_scope.
Local Open Scope list_scope.

(** ** Outcomes of C code whose behaviour may be undefined *)

Inductive cresult (A : Type) : Type :=
| Ok (a : A)
| UB.

Arguments Ok {A} a.
Arguments UB {A}.

(** ** util.c *)

Module Util.

(** The double-quote character, written by its code. *)
Definition dquote : ascii := "034"%char.

(** [<ctype.h>] in the "C" locale. *)
Definition isspace (c : ascii) : bool :=
  let n := nat_of_ascii c in
  Nat.eqb n 32 || (Nat.leb 9 n && Nat.leb n 13).

Definition isdigit (c : ascii) : bool :=
  let n := nat_of_ascii c in
  Nat.leb 48 n && Nat.leb n 57.

Definition tolower (c : ascii) : ascii :=
  let n := nat_of_ascii c in
  if Nat.leb 65 n && Nat.leb n 90 then ascii_of_nat (n + 32) else c.

(** [strncmp(str, prefix, strlen(prefix)) == 0] *)
Definition str_starts_with (str prefix : string) : bool :=
  String.prefix prefix str.

(** [strstr(str, substring) != NULL] *)
Fixpoint str_contains (str substring : string) : bool :=
  String.prefix substring str ||
  match str with
  | EmptyString => false
  | String _ rest => str_contains rest substring
  end.

(** The first loop of [str_trim]: skip leading white space. *)
Fixpoint skip_leading_space (str : string) : string :=
  match str with
  | EmptyString => EmptyString
  | String c rest => if isspace c then skip_leading_space rest else str
  end.

(** The second loop of [str_trim], on the characters after the first one:
    [end] walks back from the last character while it is white space and
    [end > str]. The result is the string with its trailing white space
    cut. *)
Fixpoint cut_trailing_space (s : string) : string :=
  match s with
  | EmptyString => EmptyString
  | String c rest =>
      match cut_trailing_space rest with
      | EmptyString => if isspace c then EmptyString else String c EmptyString
      | kept => String c kept
      end
  end.

Definition str_trim (str : string) : string :=
  match skip_leading_space str with
  | EmptyString => EmptyString
  | String c rest => String c (cut_trailing_space rest)
  end.

Fixpoint str_to_lower (str : string) : string :=
  match str with
  | EmptyString => EmptyString
  | String c rest => String (tolower c) (str_to_lower rest)
  end.

(** The counting loop of [str_split] for a one-character delimiter:
    the number of occurrences of [delim] in [str]. *)
Fixpoint count_delim (str : string) (delim : ascii) : nat :=
  match str with
  | EmptyString => 0
  | String c rest =>
      if Ascii.eqb c delim then S (count_delim rest delim)
      else count_delim rest delim
  end.

(** The successive results of [strtok(copy, delim)], [strtok(NULL, delim)],
    ...: the maximal non-empty runs of characters other than [delim].
    [tok] is the run read so far. *)
Fixpoint strtok_all (str : string) (delim : ascii) (tok : string) : list string :=
  match str with
  | EmptyString =>
      match tok with EmptyString => [] | _ => [tok] end
  | String c rest =>
      if Ascii.eqb c delim then
        match tok with
        | EmptyString => strtok_all rest delim EmptyString
        | _ => tok :: strtok_all rest delim EmptyString
        end
      else strtok_all rest delim (tok ++ String c EmptyString)
  end.

(** [str_split(str, delim, &result, &count)], for the one-character
    delimiter it is called with. The array [result] has [count] slots,
    [count] being one more than the number of delimiters; the loop fills
    one slot per token with the trimmed token, and the slots beyond the
    last token are never written ([None]). *)
Definition str_split (str : string) (delim : ascii) : list (option string) :=
  let count := S (count_delim str delim) in
  let tokens := firstn count (strtok_all str delim EmptyString) in
  List.map (fun token => Some (str_trim token)) tokens
    ++ repeat None (count - List.length tokens).

(** *** Selectors *)

Inductive SelectorType : Type :=
| SELECTOR_TYPE_MONITOR_ID
| SELECTOR_TYPE_DEVICE_PATH
| SELECTOR_TYPE_DEVICE_NAME.

Record Selector : Type := mkSelector {
  type : SelectorType;
  value : string
}.

(** A [SelectorList] is the array [selectors[0..count-1]]. *)
Definition SelectorList : Type := list Selector.

(** [strrchr(s, c)] as the offset of the last occurrence of [c]. *)
Fixpoint strrchr (s : string) (c : ascii) : option nat :=
  match s with
  | EmptyString => None
  | String a rest =>
      match strrchr rest c with
      | Some i => Some (S i)
      | None => if Ascii.eqb a c then Some 0%nat else None
      end
  end.

(** [selector_str[0] == 'M' && isdigit(selector_str[1])] *)
Definition is_monitor_id (selector_str : string) : bool :=
  match selector_str with
  | String c0 (String c1 _) => Ascii.eqb c0 "M"%char && isdigit c1
  | _ => false
  end.

(** The text between a prefix of length [skip] and the last quote after
    it: [memcpy(value, start, end - start)], or [NULL] when [strrchr]
    finds no quote. *)
Definition quoted_value (selector_str : string) (skip : nat) : option string :=
  let start := substring skip (String.length selector_str - skip) selector_str in
  match strrchr start dquote with
  | Some len => Some (substring 0 len start)
  | None => None
  end.

Definition device_prefix : string := "device:" ++ String dquote EmptyString.
Definition name_prefix : string := "name:" ++ String dquote EmptyString.

Definition parse_selector (selector_str : option string) : option Selector :=
  match selector_str with
  | None => None
  | Some s =>
      if is_monitor_id s then
        Some (mkSelector SELECTOR_TYPE_MONITOR_ID s)
      else if str_starts_with s device_prefix then
        match quoted_value s 8 with
        | Some v => Some (mkSelector SELECTOR_TYPE_DEVICE_PATH v)
        | None => None
        end
      else if str_starts_with s name_prefix then
        match quoted_value s 6 with
        | Some v => Some (mkSelector SELECTOR_TYPE_DEVICE_NAME v)
        | None => None
        end
      else
        Some (mkSelector SELECTOR_TYPE_MONITOR_ID s)
  end.

(** The loop of [parse_selector_list] over [parts[0..count-1]]: a part
    that [parse_selector] rejects is skipped; a slot that [str_split]
    never wrote is read all the same, which is undefined. *)
Fixpoint parse_parts (parts : list (option string)) : cresult SelectorList :=
  match parts with
  | [] => Ok []
  | None :: _ => UB
  | Some part :: rest =>
      match parse_parts rest with
      | UB => UB
      | Ok selectors =>
          match parse_selector (Some part) with
          | Some sel => Ok (sel :: selectors)
          | None => Ok selectors
          end
      end
  end.

Definition parse_selector_list (selector_list_str : option string)
  : cresult (option SelectorList) :=
  match selector_list_str with
  | None => Ok None
  | Some s =>
      match parse_parts (str_split s ","%char) with
      | UB => UB
      | Ok [] => Ok None
      | Ok list => Ok (Some list)
      end
  end.

Definition matches_monitor (selector : Selector)
           (monitor_id device_path device_name : string) : bool :=
  match type selector with
  | SELECTOR_TYPE_MONITOR_ID => String.eqb monitor_id (value selector)
  | SELECTOR_TYPE_DEVICE_PATH => String.eqb device_path (value selector)
  | SELECTOR_TYPE_DEVICE_NAME =>
      str_contains (str_to_lower device_name) (str_to_lower (value selector))
  end.

(** *** The remaining string utilities *)

(** [strcmp(str + str_len - suffix_len, suffix) == 0], after the length
    test. *)
Definition str_ends_with (str suffix : string) : bool :=
  let str_len := String.length str in
  let suffix_len := String.length suffix in
  if Nat.ltb str_len suffix_len then false
  else String.eqb (substring (str_len - suffix_len) suffix_len str) suffix.

(** [session_name] is [getenv("SESSIONNAME")]. *)
Definition is_rdp_session (session_name : option string) : bool :=
  match session_name with
  | Some name => str_starts_with name "RDP-"
  | None => false
  end.

End Util.

(** ** enum.h, config.h *)

Record MonitorInfo : Type := mkMonitor {
  id : string;            (* M1, M2, ... *)
  device_name : string;   (* DeviceString of DISPLAY_DEVICE *)
  device_path : string;   (* DeviceName of DISPLAY_DEVICE *)
  width : Z;
  height : Z;
  orientation : Z;
  device_id : string
}.

(** A [MonitorList] is the array [monitors[0..count-1]]. *)
Definition MonitorList : Type := list MonitorInfo.

Record MosDefConfig : Type := mkConfig {
  default_selector : option string;
  last_action : option string
}.

(** ** The Windows API and the other collaborators *)

Module Win.

Local Open Scope Z_scope.

(** Modelled from the spec: the orientation codes of [<windows.h>], which
    is not part of the repository; they stand for the orientations 0, 90,
    180 and 270 degrees, with the values of the Windows SDK. *)
Definition DMDO_DEFAULT : Z := 0.
Definition DMDO_90 : Z := 1.
Definition DMDO_180 : Z := 2.
Definition DMDO_270 : Z := 3.

(** Modelled from the spec: the result codes of the display-settings
    writer ([<windows.h>]); [DISP_CHANGE_SUCCESSFUL] is the only success
    code. *)
Definition DISP_CHANGE_SUCCESSFUL : Z := 0.
Definition DISP_CHANGE_RESTART : Z := 1.
Definition DISP_CHANGE_FAILED : Z := -1.
Definition DISP_CHANGE_BADMODE : Z := -2.
Definition DISP_CHANGE_NOTUPDATED : Z := -3.
Definition DISP_CHANGE_BADFLAGS : Z := -4.
Definition DISP_CHANGE_BADPARAM : Z := -5.
Definition DISP_CHANGE_BADDUALVIEW : Z := -6.

(** Modelled from the spec: the field and persistence flags of
    [<windows.h>] ([persist] of the display-settings writer is
    [CDS_UPDATEREGISTRY | CDS_GLOBAL]). *)
Definition DM_DISPLAYORIENTATION : Z := 128.   (* 0x00000080 *)
Definition DM_PELSWIDTH : Z := 524288.         (* 0x00080000 *)
Definition DM_PELSHEIGHT : Z := 1048576.       (* 0x00100000 *)
Definition CDS_UPDATEREGISTRY : Z := 1.
Definition CDS_GLOBAL : Z := 8.

(** The fields of [DEVMODEA] the program reads or writes; the others are
    carried along unchanged. *)
Record DEVMODEA : Type := mkDevmode {
  dmFields : Z;
  dmDisplayOrientation : Z;
  dmPelsWidth : Z;
  dmPelsHeight : Z
}.

(** One call into a collaborator, with its arguments. *)
Inductive event : Type :=
| EnumDisplaySettingsExA (device : string)
| ChangeDisplaySettingsExA (device : string) (devmode : DEVMODEA) (flags : Z)
| getch
| kbhit_second
| load_config
| enumerate_monitors
| save_config (config : MosDefConfig).

(** The collaborators: each answer is a function of the calls made so far
    (the history, oldest first) and of the call's arguments, which covers
    every deterministic environment.
    - [os_enum_settings]: [EnumDisplaySettingsExA(device,
      ENUM_CURRENT_SETTINGS, &devmode, 0)], [None] when it returns FALSE;
    - [os_change_settings]: the result code of
      [ChangeDisplaySettingsExA(device, &devmode, NULL, flags, NULL)];
    - [os_getch]: the key [_getch()] returns;
    - [os_kbhit_second]: one second of the countdown's polling loop
      ([while ((clock() - start) < CLOCKS_PER_SEC) if (_kbhit()) ...]):
      the key read by [_getch()] if one was hit within the second;
    - [os_load_config], [os_save_config]: the config store ([config.c]);
    - [os_enumerate_monitors]: the monitor inventory ([enum.c]). *)
Record OS : Type := mkOS {
  os_enum_settings : list event -> string -> option DEVMODEA;
  os_change_settings : list event -> string -> DEVMODEA -> Z -> Z;
  os_getch : list event -> Z;
  os_kbhit_second : list event -> option Z;
  os_load_config : list event -> option MosDefConfig;
  os_enumerate_monitors : list event -> option MonitorList;
  os_save_config : list event -> MosDefConfig -> bool
}.

(** Computations that call the collaborators: a state monad over the
    history of calls. *)
Definition M (A : Type) : Type := list event -> A * list event.

Definition ret {A : Type} (a : A) : M A := fun history => (a, history).

Definition bind {A B : Type} (m : M A) (k : A -> M B) : M B :=
  fun history => let (a, history') := m history in k a history'.

(** A call: the answer is read off the history, the call is appended. *)
Definition call {A : Type} (answer : list event -> A) (e : event) : M A :=
  fun history => (answer history, history ++ [e]).

End Win.

Import Win.

Notation "x <- c1 ;; c2" := (bind c1 (fun x => c2))
  (at level 61, c1 at next level, right associativity).

(** ** rotate.c *)

Module Rotate.

Local Open Scope Z_scope.

Inductive RotationCommand : Type :=
| ROTATION_LANDSCAPE    (* set to 0 degrees *)
| ROTATION_PORTRAIT     (* set to 90 degrees *)
| ROTATION_TOGGLE.      (* toggle between 0 and 90 degrees *)

Record RotationResult : Type := mkResult {
  success : bool;
  error_code : Z;
  old_orientation : Z;
  new_orientation : Z
}.

Record BatchRotationResult : Type := mkBatch {
  success_count : Z;
  failure_count : Z;
  results : list RotationResult    (* [NULL] is the empty array *)
}.

Record RollbackInfo : Type := mkRollbackInfo {
  rb_device_path : string;
  original_orientation : Z;
  original_width : Z;
  original_height : Z
}.

(** A [RollbackState] is the array [infos[0..count-1]]. *)
Definition RollbackState : Type := list RollbackInfo.

(** *** Orientation utilities *)

(** The [default:] branch of the switch is not reachable: every caller
    passes one of the three commands. *)
Definition get_target_orientation (current_orientation : Z)
           (command : RotationCommand) : Z :=
  match command with
  | ROTATION_LANDSCAPE => DMDO_DEFAULT
  | ROTATION_PORTRAIT => DMDO_90
  | ROTATION_TOGGLE =>
      if current_orientation =? DMDO_DEFAULT then DMDO_90 else DMDO_DEFAULT
  end.

Definition should_swap_dimensions (from_orientation to_orientation : Z) : bool :=
  let from_is_portrait :=
    (from_orientation =? DMDO_90) || (from_orientation =? DMDO_270) in
  let to_is_portrait :=
    (to_orientation =? DMDO_90) || (to_orientation =? DMDO_270) in
  negb (Bool.eqb from_is_portrait to_is_portrait).

Section WithOS.

Variable os : OS.

(** *** Single monitor rotation *)

(** [monitor] is [&monitors->monitors[i]] at the only call site, never
    [NULL]. *)
Definition rotate_monitor (monitor : MonitorInfo) (command : RotationCommand)
           (dry_run : bool) : M RotationResult :=
  current <- call (fun h => os_enum_settings os h (device_path monitor))
                  (EnumDisplaySettingsExA (device_path monitor)) ;;
  match current with
  | None => ret (mkResult false DISP_CHANGE_BADMODE 0 0)
  | Some devmode =>
      let old := dmDisplayOrientation devmode in
      let new := get_target_orientation old command in
      let new_devmode :=
        mkDevmode (Z.lor (dmFields devmode) DM_DISPLAYORIENTATION) new
                  (dmPelsWidth devmode) (dmPelsHeight devmode) in
      let new_devmode :=
        if should_swap_dimensions old new then
          mkDevmode (Z.lor (dmFields new_devmode)
                           (Z.lor DM_PELSWIDTH DM_PELSHEIGHT))
                    (dmDisplayOrientation new_devmode)
                    (dmPelsHeight new_devmode) (dmPelsWidth new_devmode)
        else new_devmode in
      if dry_run then ret (mkResult true 0 old new)
      else
        let flags := Z.lor CDS_UPDATEREGISTRY CDS_GLOBAL in
        change_result <-
          call (fun h => os_change_settings os h (device_path monitor)
                                            new_devmode flags)
               (ChangeDisplaySettingsExA (device_path monitor)
                                         new_devmode flags) ;;
        ret (mkResult (change_result =? DISP_CHANGE_SUCCESSFUL)
                      change_result old new)
  end.

(** *** Batch rotation with selector filtering *)

(** The inner loops over a selector list: does any selector match? *)
Definition matches_any (selectors : Util.SelectorList) (monitor : MonitorInfo)
  : bool :=
  existsb (fun selector =>
             Util.matches_monitor selector (id monitor) (device_path monitor)
                                  (device_name monitor))
          selectors.

(** The flag [should_process] at the end of the two selector checks. *)
Definition should_process (include_selectors exclude_selectors
                             : option Util.SelectorList)
           (monitor : MonitorInfo) : bool :=
  let included :=
    match include_selectors with
    | Some ((_ :: _) as selectors) => matches_any selectors monitor
    | _ => true
    end in
  match exclude_selectors with
  | Some ((_ :: _) as selectors) =>
      if matches_any selectors monitor then false else included
  | _ => included
  end.

(** The outcome written for a monitor that was filtered out. *)
Definition filtered_out (monitor : MonitorInfo) : RotationResult :=
  mkResult true DISP_CHANGE_SUCCESSFUL (orientation monitor)
           (orientation monitor).

(** The loop [for (i = 0; i < monitors->count; i++)], on the monitors
    from index [i] on; [batch_result] holds the counters and
    [results[0..i-1]]. *)
Fixpoint rotate_loop (monitors : MonitorList) (command : RotationCommand)
         (include_selectors exclude_selectors : option Util.SelectorList)
         (dry_run : bool) (batch_result : BatchRotationResult)
  : M BatchRotationResult :=
  match monitors with
  | [] => ret batch_result
  | monitor :: rest =>
      if should_process include_selectors exclude_selectors monitor then
        r <- rotate_monitor monitor command dry_run ;;
        rotate_loop rest command include_selectors exclude_selectors dry_run
          (if success r then
             mkBatch (success_count batch_result + 1)
                     (failure_count batch_result)
                     (results batch_result ++ [r])
           else
             mkBatch (success_count batch_result)
                     (failure_count batch_result + 1)
                     (results batch_result ++ [r]))
      else
        rotate_loop rest command include_selectors exclude_selectors dry_run
          (mkBatch (success_count batch_result) (failure_count batch_result)
                   (results batch_result ++ [filtered_out monitor]))
  end.

Definition rotate_monitors_filtered (monitors : MonitorList)
           (command : RotationCommand)
           (include_selectors exclude_selectors : option Util.SelectorList)
           (dry_run : bool) : M BatchRotationResult :=
  rotate_loop monitors command include_selectors exclude_selectors dry_run
              (mkBatch 0 0 []).

(** *** Rollback *)

(** The loop of [create_rollback_state]: a monitor whose settings cannot
    be read is skipped. *)
Fixpoint snapshot_loop (monitors : MonitorList) (infos : RollbackState)
  : M RollbackState :=
  match monitors with
  | [] => ret infos
  | monitor :: rest =>
      current <- call (fun h => os_enum_settings os h (device_path monitor))
                      (EnumDisplaySettingsExA (device_path monitor)) ;;
      match current with
      | None => snapshot_loop rest infos
      | Some devmode =>
          snapshot_loop rest
            (infos ++ [mkRollbackInfo (device_path monitor)
                                      (dmDisplayOrientation devmode)
                                      (dmPelsWidth devmode)
                                      (dmPelsHeight devmode)])
      end
  end.

Definition create_rollback_state (monitors : MonitorList)
  : M (option RollbackState) :=
  match monitors with
  | [] => ret None
  | _ =>
      infos <- snapshot_loop monitors [] ;;
      match infos with
      | [] => ret None
      | _ => ret (Some infos)
      end
  end.

(** The loop of [rollback_monitors]; [all_successful] is the flag so
    far. *)
Fixpoint rollback_loop (infos : RollbackState) (dry_run : bool)
         (all_successful : bool) : M bool :=
  match infos with
  | [] => ret all_successful
  | info :: rest =>
      current <- call (fun h => os_enum_settings os h (rb_device_path info))
                      (EnumDisplaySettingsExA (rb_device_path info)) ;;
      match current with
      | None => rollback_loop rest dry_run false
      | Some devmode =>
          if dry_run then rollback_loop rest dry_run all_successful
          else
            let rollback_devmode :=
              mkDevmode (Z.lor DM_DISPLAYORIENTATION
                               (Z.lor DM_PELSWIDTH DM_PELSHEIGHT))
                        (original_orientation info)
                        (original_width info) (original_height info) in
            let flags := Z.lor CDS_UPDATEREGISTRY CDS_GLOBAL in
            result <-
              call (fun h => os_change_settings os h (rb_device_path info)
                                                rollback_devmode flags)
                   (ChangeDisplaySettingsExA (rb_device_path info)
                                             rollback_devmode flags) ;;
            rollback_loop rest dry_run
              (if result =? DISP_CHANGE_SUCCESSFUL then all_successful
               else false)
      end
  end.

Definition rollback_monitors (rollback_state : option RollbackState)
           (dry_run : bool) : M bool :=
  match rollback_state with
  | None => ret true
  | Some infos => rollback_loop infos dry_run true
  end.

End WithOS.

End Rotate.

Import Rotate.

(** ** cli.c *)

Module Cli.

Local Open Scope Z_scope.

(** The fields of [CliArgs] that [handle_rotation_command] reads, as
    [parse_args] leaves them: [only_selector] is [parse_selector] of the
    argument of [--only], [include_selectors] and [exclude_selectors]
    are [parse_selector_list] of the arguments of [--include] and
    [--exclude], and each is [NULL] without its flag. *)
Record CliArgs : Type := mkArgs {
  include_selectors : option Util.SelectorList;
  exclude_selectors : option Util.SelectorList;
  only_selector : option Util.Selector
}.

(** The global flags [handle_rotation_command] reads. *)
Record Globals : Type := mkGlobals {
  g_dry_run : bool;
  g_no_confirm : bool;
  g_revert_seconds : Z
}.

(** Priority: only > include > default > all. *)
Definition get_applicable_selectors (args : CliArgs)
           (config : option MosDefConfig)
  : cresult (option Util.SelectorList) :=
  match only_selector args with
  | Some only => Ok (Some [only])
  | None =>
      match include_selectors args with
      | Some (first :: _) => Util.parse_selector_list (Some (Util.value first))
      | Some [] => UB   (* [selectors[0]] of an empty array *)
      | None =>
          match config with
          | Some (mkConfig (Some default) _) =>
              Util.parse_selector_list (Some default)
          | _ => Util.parse_selector_list (Some "*"%string)
          end
      end
  end.

(** [tolower] of [<ctype.h>] on the [int] that [_getch] returns. *)
Definition tolower (ch : Z) : Z :=
  if (65 <=? ch) && (ch <=? 90) then ch + 32 else ch.

Definition key_y : Z := 121.   (* 'y' *)

Section WithOS.

Variable os : OS.

Definition prompt_confirmation : M bool :=
  ch <- call (os_getch os) getch ;;
  ret (tolower ch =? key_y).

(** The loop [for (i = seconds; i > 0; i--)] of [start_revert_timer],
    with [ticks] iterations left: a key hit within the second either
    confirms (['y']) or ends the second early. *)
Fixpoint countdown (ticks : nat) (rollback_state : RollbackState) : M bool :=
  match ticks with
  | O => rollback_monitors os (Some rollback_state) false
  | S ticks' =>
      key <- call (os_kbhit_second os) kbhit_second ;;
      match key with
      | Some ch =>
          if tolower ch =? key_y then ret true
          else countdown ticks' rollback_state
      | None => countdown ticks' rollback_state
      end
  end.

Definition start_revert_timer (seconds : Z)
           (rollback_state : option RollbackState) : M bool :=
  match rollback_state with
  | None => ret false
  | Some state => countdown (Z.to_nat seconds) state
  end.

Definition command_name (command : RotationCommand) : string :=
  match command with
  | ROTATION_LANDSCAPE => "landscape"
  | ROTATION_PORTRAIT => "portrait"
  | ROTATION_TOGGLE => "toggle"
  end.

(** The exit code at the end of [handle_rotation_command]. *)
Definition exit_code (result : BatchRotationResult) : Z :=
  if failure_count result >? 0 then 3        (* API failure *)
  else if success_count result =? 0 then 2   (* no matching monitors *)
  else 0.

(** The block "Handle confirmation and revert logic" of
    [handle_rotation_command]. *)
Definition confirm_or_revert (g : Globals) (result : BatchRotationResult)
           (rollback_state : option RollbackState) : M unit :=
  if negb (g_dry_run g) && negb (g_no_confirm g)
     && (success_count result >? 0) then
    if g_revert_seconds g >? 0 then
      _ <- start_revert_timer (g_revert_seconds g) rollback_state ;;
      ret tt
    else
      keep <- prompt_confirmation ;;
      if keep then ret tt
      else
        match rollback_state with
        | Some _ =>
            _ <- rollback_monitors os rollback_state false ;;
            ret tt
        | None => ret tt
        end
  else ret tt.

(** The block "Save last action to config" of
    [handle_rotation_command]. *)
Definition save_last_action (config : option MosDefConfig)
           (command : RotationCommand) (result : BatchRotationResult)
  : M unit :=
  match config with
  | Some config =>
      if success_count result >? 0 then
        let config' :=
          mkConfig (default_selector config) (Some (command_name command)) in
        _ <- call (fun h => os_save_config os h config')
                  (save_config config') ;;
        ret tt
      else ret tt
  | None => ret tt
  end.

Definition handle_rotation_command (command : RotationCommand)
           (args : CliArgs) (g : Globals) : M (cresult Z) :=
  (* Load configuration *)
  config <- call (os_load_config os) load_config ;;
  (* Get monitor list *)
  monitors <- call (os_enumerate_monitors os) enumerate_monitors ;;
  match monitors with
  | None | Some [] => ret (Ok 3)
  | Some monitors =>
      (* Determine which monitors to apply to *)
      match get_applicable_selectors args config with
      | UB => ret UB
      | Ok None => ret (Ok 2)
      | Ok (Some applicable_selectors) =>
          (* Create rollback state if revert is enabled *)
          rollback_state <-
            (if g_revert_seconds g >? 0 then create_rollback_state os monitors
             else ret None) ;;
          (* Perform rotation *)
          result <-
            rotate_monitors_filtered os monitors command
              (match applicable_selectors with
               | _ :: _ => Some applicable_selectors
               | [] => None
               end)
              (exclude_selectors args) (g_dry_run g) ;;
          _ <- confirm_or_revert g result rollback_state ;;
          _ <- save_last_action config command result ;;
          ret (Ok (exit_code result))
      end
  end.

End WithOS.

End Cli.

Import Cli.

(** ** cli.c: argument parsing and [main] *)

Module CliMain.

Local Open Scope Z_scope.

(** The whole of [CliArgs]: the three selector fields are the record
    that [handle_rotation_command] reads. *)
Record ParsedArgs : Type := mkParsed {
  command : option string;
  selectors : CliArgs;
  save_default : option string;
  clear_default : bool;
  version : bool;
  help : bool
}.

(** All the global flags: those [handle_rotation_command] reads, and
    [g_verbose] and [g_force_rdp]. *)
Record Flags : Type := mkFlags {
  globals : Globals;
  g_verbose : bool;
  g_force_rdp : bool
}.

(** The values the flags are initialised with. *)
Definition initial_flags : Flags :=
  mkFlags (mkGlobals false false 0) false false.

Definition EXIT_FAILURE : Z := 1.

Definition set_dry_run (f : Flags) : Flags :=
  mkFlags (mkGlobals true (g_no_confirm (globals f))
                     (g_revert_seconds (globals f)))
          (g_verbose f) (g_force_rdp f).
Definition set_verbose (f : Flags) : Flags :=
  mkFlags (globals f) true (g_force_rdp f).
Definition set_no_confirm (f : Flags) : Flags :=
  mkFlags (mkGlobals (g_dry_run (globals f)) true
                     (g_revert_seconds (globals f)))
          (g_verbose f) (g_force_rdp f).
Definition set_force_rdp (f : Flags) : Flags :=
  mkFlags (globals f) (g_verbose f) true.
Definition set_revert_seconds (seconds : Z) (f : Flags) : Flags :=
  mkFlags (mkGlobals (g_dry_run (globals f)) (g_no_confirm (globals f))
                     seconds)
          (g_verbose f) (g_force_rdp f).

Section WithAtoi.

(** [atoi] of the C library, on the argument of [--revert-seconds]. *)
Variable atoi : string -> Z.

(** The loop "Parse global flags first": the arguments left when it
    stops, and the arguments record and the flags at that point. *)
Fixpoint parse_global_flags (argv : list string) (args : ParsedArgs)
         (flags : Flags) : list string * ParsedArgs * Flags :=
  match argv with
  | [] => (argv, args, flags)
  | arg :: rest =>
      if String.eqb arg "--dry-run" then
        parse_global_flags rest args (set_dry_run flags)
      else if String.eqb arg "--verbose" then
        parse_global_flags rest args (set_verbose flags)
      else if String.eqb arg "--no-confirm" then
        parse_global_flags rest args (set_no_confirm flags)
      else if String.eqb arg "--force-rdp" then
        parse_global_flags rest args (set_force_rdp flags)
      else if String.eqb arg "--version" then
        parse_global_flags
          rest
          (mkParsed (command args) (selectors args) (save_default args)
                    (clear_default args) true (help args))
          flags
      else if String.eqb arg "--help" || String.eqb arg "-h" then
        parse_global_flags
          rest
          (mkParsed (command args) (selectors args) (save_default args)
                    (clear_default args) (version args) true)
          flags
      else if String.eqb arg "--revert-seconds" then
        match rest with
        | seconds :: rest' =>
            parse_global_flags rest' args
                               (set_revert_seconds (atoi seconds) flags)
        | [] => (argv, args, flags)
        end
      else (argv, args, flags)
  end.

(** The loop "Parse command-specific arguments"; an argument that is
    none of the five options, or an option that lacks its value, makes
    [parse_args] return [NULL]. *)
Fixpoint parse_command_args (argv : list string) (args : ParsedArgs)
  : cresult (option ParsedArgs) :=
  match argv with
  | [] => Ok (Some args)
  | arg :: rest =>
      if String.eqb arg "--only" then
        match rest with
        | text :: rest' =>
            parse_command_args
              rest'
              (mkParsed (command args)
                        (mkArgs (include_selectors (selectors args))
                                (exclude_selectors (selectors args))
                                (Util.parse_selector (Some text)))
                        (save_default args) (clear_default args)
                        (version args) (help args))
        | [] => Ok None
        end
      else if String.eqb arg "--include" then
        match rest with
        | text :: rest' =>
            match Util.parse_selector_list (Some text) with
            | UB => UB
            | Ok include =>
                parse_command_args
                  rest'
                  (mkParsed (command args)
                            (mkArgs include
                                    (exclude_selectors (selectors args))
                                    (only_selector (selectors args)))
                            (save_default args) (clear_default args)
                            (version args) (help args))
            end
        | [] => Ok None
        end
      else if String.eqb arg "--exclude" then
        match rest with
        | text :: rest' =>
            match Util.parse_selector_list (Some text) with
            | UB => UB
            | Ok exclude =>
                parse_command_args
                  rest'
                  (mkParsed (command args)
                            (mkArgs (include_selectors (selectors args))
                                    exclude
                                    (only_selector (selectors args)))
                            (save_default args) (clear_default args)
                            (version args) (help args))
            end
        | [] => Ok None
        end
      else if String.eqb arg "--save-default" then
        match rest with
        | text :: rest' =>
            parse_command_args
              rest'
              (mkParsed (command args) (selectors args) (Some text)
                        (clear_default args) (version args) (help args))
        | [] => Ok None
        end
      else if String.eqb arg "--clear-default" then
        parse_command_args
          rest
          (mkParsed (command args) (selectors args) (save_default args)
                    true (version args) (help args))
      else Ok None
  end.

(** [parse_args(argc, argv)]: [argv] holds the arguments after the
    program name, and [flags] the global flags before the call. The
    result is the arguments record, or [NULL], and the global flags
    after the call. *)
Definition parse_args (argv : list string) (flags : Flags)
  : cresult (option ParsedArgs) * Flags :=
  let defaults :=
    mkParsed None (mkArgs None None None) None false false false in
  match parse_global_flags argv defaults flags with
  | ([], args, flags') => (Ok (Some args), flags')
  | (name :: rest, args, flags') =>
      (parse_command_args
         rest
         (mkParsed (Some name) (selectors args) (save_default args)
                   (clear_default args) (version args) (help args)),
       flags')
  end.

Section WithOS.

Variable os : OS.

Definition handle_list_command : M Z :=
  monitors <- call (os_enumerate_monitors os) enumerate_monitors ;;
  match monitors with
  | None => ret 3
  | Some _ => ret 0
  end.

Definition handle_save_default (selector : string) : M Z :=
  loaded <- call (os_load_config os) load_config ;;
  let config :=
    match loaded with
    | Some config => config
    | None => mkConfig None None
    end in
  let config' := mkConfig (Some selector) (last_action config) in
  saved <- call (fun h => os_save_config os h config') (save_config config') ;;
  ret (if saved : bool then 0 else 3).

Definition handle_clear_default : M Z :=
  loaded <- call (os_load_config os) load_config ;;
  match loaded with
  | None => ret 0
  | Some config =>
      let config' := mkConfig None (last_action config) in
      saved <- call (fun h => os_save_config os h config')
                    (save_config config') ;;
      ret (if saved : bool then 0 else 3)
  end.

(** Whether [handle_rotation_command], called at [history], gets past its
    two early returns and so to its cleanup, where it frees the list of
    applicable selectors with the values of its selectors. *)
Definition reaches_cleanup (args : CliArgs) (history : list event) : bool :=
  match os_enumerate_monitors os (history ++ [load_config]) with
  | Some (_ :: _) =>
      match get_applicable_selectors args (os_load_config os history) with
      | Ok (Some _) => true
      | _ => false
      end
  | _ => false
  end.

(** A rotation command as [main] runs it: [handle_rotation_command], then
    [free_cli_args(args)]. With [--only], the list of applicable selectors
    holds a copy of [*args->only_selector] and so shares its [value];
    the cleanup of [handle_rotation_command] frees that value with the
    list, and [free_selector(args->only_selector)] frees it a second
    time, which is undefined. *)
Definition run_rotation (command : RotationCommand) (args : ParsedArgs)
           (g : Globals) : M (cresult Z) :=
  fun history =>
    let (result, history') :=
      handle_rotation_command os command (selectors args) g history in
    match only_selector (selectors args) with
    | Some _ =>
        if reaches_cleanup (selectors args) history then (UB, history')
        else (result, history')
    | None => (result, history')
    end.

(** [main]: [session_name] is [getenv("SESSIONNAME")] and [argv] holds
    the arguments after the program name, so that [argc == 1] when
    [argv] is empty. Comparing the command name when there is none
    ([strcmp] on [NULL]) is undefined. *)
Definition main (session_name : option string) (argv : list string)
  : M (cresult Z) :=
  match parse_args argv initial_flags with
  | (UB, _) => ret UB
  | (Ok None, _) => ret (Ok EXIT_FAILURE)
  | (Ok (Some args), flags) =>
      (* Set global flags *)
      let flags :=
        mkFlags (mkGlobals false false (g_revert_seconds (globals flags)))
                true false in
      (* Check for RDP session *)
      if Util.is_rdp_session session_name && negb (g_force_rdp flags) then
        ret (Ok 2)
      else if version args then ret (Ok 0)
      else if help args || match argv with [] => true | _ => false end then
        ret (Ok 0)
      else
        match save_default args with
        | Some selector =>
            code <- handle_save_default selector ;; ret (Ok code)
        | None =>
            if clear_default args then
              code <- handle_clear_default ;; ret (Ok code)
            else
              match command args with
              | None => ret UB
              | Some name =>
                  if String.eqb name "list" then
                    code <- handle_list_command ;; ret (Ok code)
                  else if String.eqb name "landscape" then
                    run_rotation ROTATION_LANDSCAPE args (globals flags)
                  else if String.eqb name "portrait" then
                    run_rotation ROTATION_PORTRAIT args (globals flags)
                  else if String.eqb name "toggle" then
                    run_rotation ROTATION_TOGGLE args (globals flags)
                  else ret (Ok 2)
              end
        end
  end.

End WithOS.

End WithAtoi.

End CliMain.

(** ** config.c: the JSON text of the configuration *)

Module Config.

Definition backslash : ascii := "092"%char.
Definition newline : ascii := "010"%char.
Definition carriage_return : ascii := "013"%char.
Definition tab : ascii := "009"%char.

(** The loop of [json_escape_string] over the characters of [str]. *)
Fixpoint escape_chars (str : string) : string :=
  match str with
  | EmptyString => EmptyString
  | String c rest =>
      if Ascii.eqb c Util.dquote then
        String backslash (String Util.dquote (escape_chars rest))
      else if Ascii.eqb c backslash then
        String backslash (String backslash (escape_chars rest))
      else if Ascii.eqb c newline then
        String backslash (String "n"%char (escape_chars rest))
      else if Ascii.eqb c carriage_return then
        String backslash (String "r"%char (escape_chars rest))
      else if Ascii.eqb c tab then
        String backslash (String "t"%char (escape_chars rest))
      else String c (escape_chars rest)
  end.

Definition json_escape_string (str : option string) : string :=
  match str with
  | None => "null"
  | Some s =>
      String Util.dquote (escape_chars s ++ String Util.dquote EmptyString)
  end.

(** The loop of [json_unescape_string] over [start[0..len-1]]; the next
    character is looked at only when there is one ([i + 1 < len]). *)
Fixpoint unescape_chars (start : string) : string :=
  match start with
  | EmptyString => EmptyString
  | String c rest =>
      if Ascii.eqb c backslash then
        match rest with
        | String next rest' =>
            if Ascii.eqb next Util.dquote then
              String Util.dquote (unescape_chars rest')
            else if Ascii.eqb next backslash then
              String backslash (unescape_chars rest')
            else if Ascii.eqb next "n"%char then
              String newline (unescape_chars rest')
            else if Ascii.eqb next "r"%char then
              String carriage_return (unescape_chars rest')
            else if Ascii.eqb next "t"%char then
              String tab (unescape_chars rest')
            else String c (unescape_chars rest)
        | EmptyString => String c EmptyString
        end
      else String c (unescape_chars rest)
  end.

(** The last character of a non-empty string, [json_str[strlen - 1]]. *)
Fixpoint last_char (s : string) (default : ascii) : ascii :=
  match s with
  | EmptyString => default
  | String c rest => last_char rest c
  end.

(** For the one-character text made of a quote, [len] is
    [strlen(json_str) - 2] computed in [size_t], the largest value of the
    type, and the loop reads past the end of the text: undefined. *)
Definition json_unescape_string (json_str : option string)
  : cresult (option string) :=
  match json_str with
  | None => Ok None
  | Some text =>
      if String.eqb text "null" then Ok None
      else
        match text with
        | String first rest =>
            if Ascii.eqb first Util.dquote
               && Ascii.eqb (last_char rest first) Util.dquote then
              match rest with
              | EmptyString => UB
              | _ =>
                  Ok (Some (unescape_chars
                              (substring 1 (String.length text - 2) text)))
              end
            else Ok (Some text)
        | EmptyString => Ok (Some text)
        end
  end.

(** The pieces of the format of [config_to_json]. *)
Definition json_head : string :=
  "{" ++ String newline "  "
      ++ String Util.dquote "default_selector"
      ++ String Util.dquote ": ".
Definition json_middle : string :=
  "," ++ String newline "  "
      ++ String Util.dquote "last_action"
      ++ String Util.dquote ": ".
Definition json_tail : string := String newline "}".

Definition config_to_json (config : option MosDefConfig) : string :=
  match config with
  | None => "{}"
  | Some config =>
      json_head ++ json_escape_string (default_selector config)
        ++ json_middle ++ json_escape_string (last_action config)
        ++ json_tail
  end.

(** The loops that skip characters: [pos] advances while the character
    it points at satisfies [p]. *)
Fixpoint skip_while (p : ascii -> bool) (pos : string) : string :=
  match pos with
  | EmptyString => EmptyString
  | String c rest => if p c then skip_while p rest else pos
  end.

(** The loop that scans a key, up to the first quote: the text before
    that quote and the text from it on, or [None] when the end is reached
    first. *)
Fixpoint scan_key (pos : string) : option (string * string) :=
  match pos with
  | EmptyString => None
  | String c rest =>
      if Ascii.eqb c Util.dquote then Some (EmptyString, pos)
      else
        match scan_key rest with
        | Some (key, at_quote) => Some (String c key, at_quote)
        | None => None
        end
  end.

(** The loop that scans a string value: it stops at the first quote that
    does not follow a backslash; [escaped] says that the previous
    character was a backslash. The result is the text before that quote
    and the text from it on, or [None] when the end is reached first. *)
Fixpoint scan_value (pos : string) (escaped : bool)
  : option (string * string) :=
  match pos with
  | EmptyString => None
  | String c rest =>
      if Ascii.eqb c Util.dquote && negb escaped then Some (EmptyString, pos)
      else
        match scan_value rest (Ascii.eqb c backslash) with
        | Some (value, at_quote) => Some (String c value, at_quote)
        | None => None
        end
  end.

(** [pos + n], for [n] characters known to be there. *)
Fixpoint advance (n : nat) (pos : string) : string :=
  match n, pos with
  | S n', String _ rest => advance n' rest
  | _, _ => pos
  end.

(** The main loop of [json_to_config]; the outer [None] is
    returned when [fuel] iterations were not enough, which does not
    happen with one unit of fuel per character (see
    [parse_members_fuel]). The inner result is [NULL] or the
    configuration. *)
Fixpoint parse_members (fuel : nat) (pos : string) (config : MosDefConfig)
  : option (cresult (option MosDefConfig)) :=
  match pos with
  | EmptyString => Some (Ok (Some config))
  | _ =>
      match fuel with
      | O => None
      | S fuel' =>
          match skip_while Util.isspace pos with
          | EmptyString => Some (Ok None)
          | String c after =>
              if Ascii.eqb c "}"%char then Some (Ok (Some config))
              else if negb (Ascii.eqb c Util.dquote) then Some (Ok None)
              else
                match scan_key after with
                | None => Some (Ok None)
                | Some (key, at_quote) =>
                    let pos :=
                      skip_while (fun c => Util.isspace c
                                           || Ascii.eqb c ":"%char)
                                 (advance 1 at_quote) in
                    let skip_comma :=
                      skip_while (fun c => Util.isspace c
                                           || Ascii.eqb c ","%char) in
                    match pos with
                    | String c' after' =>
                        if Ascii.eqb c' Util.dquote then
                          match scan_value after' false with
                          | None => Some (Ok None)
                          | Some (text, at_close) =>
                              let value_json :=
                                String Util.dquote
                                       (text ++ String Util.dquote
                                                       EmptyString) in
                              match json_unescape_string (Some value_json) with
                              | UB => Some UB
                              | Ok value =>
                                  let config' :=
                                    if String.eqb key "default_selector" then
                                      mkConfig value (last_action config)
                                    else if String.eqb key "last_action" then
                                      mkConfig (default_selector config) value
                                    else config in
                                  parse_members
                                    fuel' (skip_comma (advance 1 at_close))
                                    config'
                              end
                          end
                        else if String.prefix "null" pos then
                          parse_members fuel' (skip_comma (advance 4 pos))
                                        config
                        else parse_members fuel' (skip_comma pos) config
                    | EmptyString =>
                        parse_members fuel' (skip_comma pos) config
                    end
                end
          end
      end
  end.

Definition json_to_config (json : option string)
  : cresult (option MosDefConfig) :=
  match json with
  | None => Ok None
  | Some text =>
      match skip_while Util.isspace text with
      | String c after =>
          if Ascii.eqb c "{"%char then
            match parse_members (String.length after) after
                                (mkConfig None None) with
            | Some result => result
            | None => Ok None
            end
          else Ok None
      | EmptyString => Ok None
      end
  end.

End Config.

(** ** enum.c: the monitor inventory *)

Module Enum.

Local Open Scope Z_scope.

(** The fields of [DISPLAY_DEVICEA] the program reads. *)
Record DISPLAY_DEVICEA : Type := mkDevice {
  DeviceName : string;
  DeviceString : string;
  StateFlags : Z;
  DeviceID : string
}.

(** Modelled from the spec: the state flags of [<windows.h>] for an
    active device and for a mirroring pseudo-device. *)
Definition DISPLAY_DEVICE_ACTIVE : Z := 1.
Definition DISPLAY_DEVICE_MIRRORING_DRIVER : Z := 8.

(** [sprintf_s(id, id_len, "M%d", monitor_index)], for the positive
    indices the loop produces. *)
Definition monitor_id (monitor_index : nat) : string :=
  String "M"%char
         (DecimalString.NilEmpty.string_of_uint (Nat.to_uint monitor_index)).

Section WithOS.

Variable os : OS.

(** The loop of [enumerate_monitors] over the display devices, which
    [EnumDisplayDevicesA] yields by index until it fails: [devices] are
    those from the current index on, [monitor_index] numbers the next
    monitor and [list] holds the monitors found so far. *)
Fixpoint enumerate_loop (devices : list DISPLAY_DEVICEA) (monitor_index : nat)
         (list : MonitorList) : M MonitorList :=
  match devices with
  | [] => ret list
  | display_device :: rest =>
      if Z.land (StateFlags display_device) DISPLAY_DEVICE_ACTIVE =? 0 then
        enumerate_loop rest monitor_index list
      else if negb (Z.land (StateFlags display_device)
                           DISPLAY_DEVICE_MIRRORING_DRIVER =? 0) then
        enumerate_loop rest monitor_index list
      else
        current <-
          call (fun h => os_enum_settings os h (DeviceName display_device))
               (EnumDisplaySettingsExA (DeviceName display_device)) ;;
        match current with
        | None => enumerate_loop rest monitor_index list
        | Some devmode =>
            enumerate_loop rest (S monitor_index)
              (list ++ [mkMonitor (monitor_id monitor_index)
                                  (DeviceString display_device)
                                  (DeviceName display_device)
                                  (dmPelsWidth devmode)
                                  (dmPelsHeight devmode)
                                  (dmDisplayOrientation devmode)
                                  (DeviceID display_device)])
        end
  end.

Definition enumerate_monitors (devices : list DISPLAY_DEVICEA)
  : M MonitorList :=
  enumerate_loop devices 1%nat [].

End WithOS.

(** The loops of [find_monitor_by_id] and [find_monitor_by_device_path]:
    the first monitor with the id, or with the device path. *)
Fixpoint find_monitor_by_id (monitors : MonitorList) (wanted : string)
  : option MonitorInfo :=
  match monitors with
  | [] => None
  | monitor :: rest =>
      if String.eqb (id monitor) wanted then Some monitor
      else find_monitor_by_id rest wanted
  end.

Fixpoint find_monitor_by_device_path (monitors : MonitorList)
         (wanted : string) : option MonitorInfo :=
  match monitors with
  | [] => None
  | monitor :: rest =>
      if String.eqb (device_path monitor) wanted then Some monitor
      else find_monitor_by_device_path rest wanted
  end.

End Enum.

(** ** Scenarios: concrete monitors and environments *)

Module Scenario.

Local Open Scope Z_scope.

Definition landscape_1080p : DEVMODEA := mkDevmode 0 DMDO_DEFAULT 1920 1080.

Definition monitor1 : MonitorInfo :=
  mkMonitor "M1" "Dell U2720Q" "\\.\DISPLAY1" 1920 1080 DMDO_DEFAULT "DEL1".
Definition monitor2 : MonitorInfo :=
  mkMonitor "M2" "LG Ultra" "\\.\DISPLAY2" 1920 1080 DMDO_DEFAULT "LG2".
Definition monitor3 : MonitorInfo :=
  mkMonitor "M3" "Dell P2419H" "\\.\DISPLAY3" 1920 1080 DMDO_DEFAULT "DEL3".

Definition three_monitors : MonitorList := [monitor1; monitor2; monitor3].

Definition sel_id (name : string) : Util.Selector :=
  Util.mkSelector Util.SELECTOR_TYPE_MONITOR_ID name.

(** The settings of [device] after the calls of [history]: those of the
    last write to it that the writer accepted, [initial] before any. *)
Fixpoint current_settings (change_code : string -> Z) (history : list event)
         (device : string) (initial : DEVMODEA) : DEVMODEA :=
  match history with
  | [] => initial
  | ChangeDisplaySettingsExA d devmode _ :: rest =>
      current_settings change_code rest device
        (if String.eqb d device && (change_code d =? DISP_CHANGE_SUCCESSFUL)
         then devmode else initial)
  | _ :: rest => current_settings change_code rest device initial
  end.

(** An environment given by: which reads succeed (as a function of the
    history and the device), the writer's result code per device, the key
    pressed, the saved configuration and the inventory. Every monitor
    starts in landscape 1920x1080, and a successful read reports the
    settings last written. No key is hit during a countdown. *)
Definition environment (readable : list event -> string -> bool)
           (change_code : string -> Z) (key : Z)
           (config : option MosDefConfig) (monitors : MonitorList) : OS :=
  mkOS (fun h device =>
          if readable h device
          then Some (current_settings change_code h device landscape_1080p)
          else None)
       (fun _ device _ _ => change_code device)
       (fun _ => key)
       (fun _ => None)
       (fun _ => config)
       (fun _ => Some monitors)
       (fun _ _ => true).

Definition no_config : option MosDefConfig := Some (mkConfig None None).

(** Every read and every write succeeds; the user presses [key]. *)
Definition healthy (key : Z) : OS :=
  environment (fun _ _ => true) (fun _ => DISP_CHANGE_SUCCESSFUL) key
              no_config three_monitors.

(** The settings of no monitor can be read. *)
Definition unreadable : OS :=
  environment (fun _ _ => false) (fun _ => DISP_CHANGE_SUCCESSFUL) 110
              no_config three_monitors.

(** The writer rejects the second monitor. *)
Definition second_fails : OS :=
  environment (fun _ _ => true)
              (fun device =>
                 if String.eqb device (device_path monitor2)
                 then DISP_CHANGE_FAILED else DISP_CHANGE_SUCCESSFUL)
              110 no_config three_monitors.

(** The settings of the second monitor cannot be read. *)
Definition second_unreadable : OS :=
  environment (fun _ device => negb (String.eqb device (device_path monitor2)))
              (fun _ => DISP_CHANGE_SUCCESSFUL) 110 no_config three_monitors.

(** The settings cannot be read until three calls have been made: with
    one monitor, the snapshot's read fails and the rotation's succeeds. *)
Definition late_reads : OS :=
  environment (fun h _ => Nat.leb 3 (List.length h))
              (fun _ => DISP_CHANGE_SUCCESSFUL) 110 no_config [monitor1].

Definition key_n : Z := 110.   (* 'n' *)
Definition key_Y : Z := 89.    (* 'Y' *)

(** The snapshot entry of a monitor in landscape 1920x1080. *)
Definition entry_of (monitor : MonitorInfo) : RollbackInfo :=
  mkRollbackInfo (device_path monitor) DMDO_DEFAULT 1920 1080.

Definition three_entries : RollbackState :=
  [entry_of monitor1; entry_of monitor2; entry_of monitor3].

End Scenario.

(** ** Vocabulary of the properties *)

Module Obs.

(** [c] occurs in [s]. *)
Fixpoint has_char (s : string) (c : ascii) : bool :=
  match s with
  | EmptyString => false
  | String a rest => Ascii.eqb a c || has_char rest c
  end.

(** A part with an unterminated quote: [device:"] or [name:"] followed by
    text without a closing quote. *)
Definition unterminated_quote (part : string) : Prop :=
  exists rest : string,
    (part = (Util.device_prefix ++ rest)%string \/
     part = (Util.name_prefix ++ rest)%string) /\
    has_char rest Util.dquote = false.

(** The parts of a selector list: the comma-separated fields, trimmed. *)
Definition parts_of (text : string) : list string :=
  List.map Util.str_trim (Util.strtok_all text ","%char EmptyString).

(** No field of the list is empty: there are as many fields as commas,
    plus one. *)
Definition no_empty_field (text : string) : Prop :=
  List.length (Util.strtok_all text ","%char EmptyString)
  = S (Util.count_delim text ","%char).

(** The devices whose live settings a sequence of calls reads. *)
Definition reads (calls : list event) : list string :=
  flat_map (fun e => match e with
                     | EnumDisplaySettingsExA device => [device]
                     | _ => []
                     end) calls.

(** The calls to the display-settings writer in a sequence of calls. *)
Definition writes (calls : list event) : list event :=
  filter (fun e => match e with
                   | ChangeDisplaySettingsExA _ _ _ => true
                   | _ => false
                   end) calls.

(** Calls to the display: reads and writes of settings. *)
Definition is_display_call (e : event) : bool :=
  match e with
  | EnumDisplaySettingsExA _ | ChangeDisplaySettingsExA _ _ _ => true
  | _ => false
  end.

(** The outcomes of the monitors that were processed, in order. *)
Definition processed_outcomes (include_selectors exclude_selectors
                                 : option Util.SelectorList)
           (monitors : MonitorList) (outcomes : list RotationResult)
  : list RotationResult :=
  List.map snd
    (filter (fun mr => should_process include_selectors exclude_selectors
                                      (fst mr))
            (combine monitors outcomes)).

Definition count_if {A : Type} (f : A -> bool) (l : list A) : Z :=
  Z.of_nat (List.length (filter f l)).

(** What the outcome of a monitor is: for a monitor that passes the
    filters, the result of [rotate_monitor] on it (at the history of that
    moment); for a monitor that is filtered out, a successful no-op with
    the inventory's orientation as old and new orientation. *)
Definition outcome_of (os : OS) (command : RotationCommand)
           (include_selectors exclude_selectors : option Util.SelectorList)
           (dry_run : bool) (monitor : MonitorInfo) (outcome : RotationResult)
  : Prop :=
  if should_process include_selectors exclude_selectors monitor then
    exists h, outcome = fst (rotate_monitor os monitor command dry_run h)
  else
    success outcome = true /\
    error_code outcome = DISP_CHANGE_SUCCESSFUL /\
    old_orientation outcome = orientation monitor /\
    new_orientation outcome = orientation monitor.

(** The settings a restore writes for a snapshot entry. *)
Definition restore_devmode (info : RollbackInfo) : DEVMODEA :=
  mkDevmode (Z.lor DM_DISPLAYORIENTATION (Z.lor DM_PELSWIDTH DM_PELSHEIGHT))
            (original_orientation info) (original_width info)
            (original_height info).

Definition restore_write (info : RollbackInfo) : event :=
  ChangeDisplaySettingsExA (rb_device_path info) (restore_devmode info)
                           (Z.lor CDS_UPDATEREGISTRY CDS_GLOBAL).

Section Restore.

Variable os : OS.

(** The calls a restore makes for one entry: the read of the live
    settings and, when that read succeeds, the write. *)
Definition entry_calls (history : list event) (info : RollbackInfo)
  : list event :=
  EnumDisplaySettingsExA (rb_device_path info)
  :: match os_enum_settings os history (rb_device_path info) with
     | Some _ => [restore_write info]
     | None => []
     end.

(** An entry is restored when its read and its write both succeed. *)
Definition entry_restored (history : list event) (info : RollbackInfo)
  : bool :=
  match os_enum_settings os history (rb_device_path info) with
  | Some _ =>
      Z.eqb (os_change_settings
               os (history ++ [EnumDisplaySettingsExA (rb_device_path info)])
               (rb_device_path info) (restore_devmode info)
               (Z.lor CDS_UPDATEREGISTRY CDS_GLOBAL))
            DISP_CHANGE_SUCCESSFUL
  | None => false
  end.

Fixpoint restore_calls (history : list event) (infos : RollbackState)
  : list event :=
  match infos with
  | [] => []
  | info :: rest =>
      entry_calls history info
        ++ restore_calls (history ++ entry_calls history info) rest
  end.

Fixpoint all_restored (history : list event) (infos : RollbackState)
  : bool :=
  match infos with
  | [] => true
  | info :: rest =>
      entry_restored history info
      && all_restored (history ++ entry_calls history info) rest
  end.

End Restore.

(** The call that saves the last action, when there is a configuration
    and at least one monitor was rotated. *)
Definition save_calls (config : option MosDefConfig)
           (command : RotationCommand) (result : BatchRotationResult)
  : list event :=
  match config with
  | Some config =>
      if Z.gtb (success_count result) 0 then
        [save_config (mkConfig (default_selector config)
                               (Some (command_name command)))]
      else []
  | None => []
  end.

(** The include set handed to the batch step. *)
Definition include_set (applicable_selectors : Util.SelectorList)
  : option Util.SelectorList :=
  match applicable_selectors with
  | _ :: _ => Some applicable_selectors
  | [] => None
  end.

(** The device a call to the display is about. *)
Definition device_of (e : event) : option string :=
  match e with
  | EnumDisplaySettingsExA device | ChangeDisplaySettingsExA device _ _ =>
      Some device
  | _ => None
  end.

(** *** The batch, as the specification describes it *)

(** A selector matches a monitor, by its id, device path or device
    name. *)
Definition selects (selector : Util.Selector) (monitor : MonitorInfo) : bool :=
  Util.matches_monitor selector (id monitor) (device_path monitor)
                       (device_name monitor).

(** The monitor matches some selector of the exclude set. *)
Definition excluded (exclude_selectors : option Util.SelectorList)
           (monitor : MonitorInfo) : bool :=
  match exclude_selectors with
  | Some selectors =>
      existsb (fun selector => selects selector monitor) selectors
  | None => false
  end.

(** The include set lets the monitor through: it is absent or empty, or
    one of its selectors matches the monitor. *)
Definition included (include_selectors : option Util.SelectorList)
           (monitor : MonitorInfo) : bool :=
  match include_selectors with
  | None | Some [] => true
  | Some selectors =>
      existsb (fun selector => selects selector monitor) selectors
  end.

(** A monitor is processed when the include set lets it through and the
    exclude set does not hold it back; exclusion wins. *)
Definition is_processed (include_selectors exclude_selectors
                           : option Util.SelectorList)
           (monitor : MonitorInfo) : bool :=
  if excluded exclude_selectors monitor then false
  else included include_selectors monitor.

(** The successful no-op: old and new orientation are the inventory's. *)
Definition no_op (monitor : MonitorInfo) : RotationResult :=
  mkResult true DISP_CHANGE_SUCCESSFUL (orientation monitor)
           (orientation monitor).

(** The settings a rotation writes, from the live settings: the target
    orientation, and width and height exchanged when the rotation
    crosses between landscape and portrait. *)
Definition rotated_settings (live : DEVMODEA) (command : RotationCommand)
  : DEVMODEA :=
  let target := get_target_orientation (dmDisplayOrientation live) command in
  if should_swap_dimensions (dmDisplayOrientation live) target then
    mkDevmode (Z.lor (Z.lor (dmFields live) DM_DISPLAYORIENTATION)
                     (Z.lor DM_PELSWIDTH DM_PELSHEIGHT))
              target (dmPelsHeight live) (dmPelsWidth live)
  else
    mkDevmode (Z.lor (dmFields live) DM_DISPLAYORIENTATION) target
              (dmPelsWidth live) (dmPelsHeight live).

Definition rotation_write (monitor : MonitorInfo) (live : DEVMODEA)
           (command : RotationCommand) : event :=
  ChangeDisplaySettingsExA (device_path monitor)
                           (rotated_settings live command)
                           (Z.lor CDS_UPDATEREGISTRY CDS_GLOBAL).

Section BatchRun.

Variable os : OS.
Variable command : RotationCommand.
Variables include_selectors exclude_selectors : option Util.SelectorList.
Variable dry_run : bool.

(** The calls made for one monitor of the inventory: none when it is not
    processed; otherwise the read of its live settings and, when that
    read succeeds outside a dry run, the write of the rotated
    settings. *)
Definition monitor_calls (history : list event) (monitor : MonitorInfo)
  : list event :=
  if is_processed include_selectors exclude_selectors monitor then
    EnumDisplaySettingsExA (device_path monitor)
    :: match os_enum_settings os history (device_path monitor) with
       | Some live =>
           if dry_run then [] else [rotation_write monitor live command]
       | None => []
       end
  else [].

(** The outcome of one monitor of the inventory: the no-op when it is
    not processed; otherwise the failure of the read, the success of a
    dry run, or the code the writer returned. *)
Definition monitor_outcome (history : list event) (monitor : MonitorInfo)
  : RotationResult :=
  if is_processed include_selectors exclude_selectors monitor then
    match os_enum_settings os history (device_path monitor) with
    | None => mkResult false DISP_CHANGE_BADMODE 0 0
    | Some live =>
        let old := dmDisplayOrientation live in
        let target := get_target_orientation old command in
        if dry_run then mkResult true DISP_CHANGE_SUCCESSFUL old target
        else
          let code :=
            os_change_settings
              os (history ++ [EnumDisplaySettingsExA (device_path monitor)])
              (device_path monitor) (rotated_settings live command)
              (Z.lor CDS_UPDATEREGISTRY CDS_GLOBAL) in
          mkResult (Z.eqb code DISP_CHANGE_SUCCESSFUL) code old target
    end
  else no_op monitor.

(** The calls of the whole batch: those of each monitor in turn, in
    inventory order, whatever the outcome of the monitors before it. *)
Fixpoint batch_calls (history : list event) (monitors : MonitorList)
  : list event :=
  match monitors with
  | [] => []
  | monitor :: rest =>
      monitor_calls history monitor
        ++ batch_calls (history ++ monitor_calls history monitor) rest
  end.

(** The outcomes of the whole batch: one per monitor, in inventory
    order. *)
Fixpoint batch_outcomes (history : list event) (monitors : MonitorList)
  : list RotationResult :=
  match monitors with
  | [] => []
  | monitor :: rest =>
      monitor_outcome history monitor
      :: batch_outcomes (history ++ monitor_calls history monitor) rest
  end.

(** The number of processed monitors whose outcome satisfies [test]. *)
Definition tally (test : RotationResult -> bool) (monitors : MonitorList)
           (outcomes : list RotationResult) : Z :=
  count_if (fun entry =>
              is_processed include_selectors exclude_selectors (fst entry)
              && test (snd entry))
           (combine monitors outcomes).

End BatchRun.

End Obs.

(** ** A desktop: display devices for the inventory *)

Module Desktop.

Local Open Scope Z_scope.

(** Two active displays, a mirroring pseudo-device and an inactive
    display between them. *)
Definition devices : list Enum.DISPLAY_DEVICEA :=
  [Enum.mkDevice "\\.\DISPLAY1" "Dell U2720Q" 5 "DEL1";
   Enum.mkDevice "\\.\DISPLAYV1" "Mirror Driver" 9 "MIRROR";
   Enum.mkDevice "\\.\DISPLAY2" "LG Ultra" 0 "LG2";
   Enum.mkDevice "\\.\DISPLAY3" "Dell P2419H" 1 "DEL3"].

End Desktop.

(** ** Vocabulary of the further properties *)

Module Props.

(** Every character of [s] is white space. *)
Fixpoint all_space (s : string) : bool :=
  match s with
  | EmptyString => true
  | String c rest => Util.isspace c && all_space rest
  end.

(** [s] starts with a white-space character. *)
Definition starts_with_space (s : string) : bool :=
  match s with
  | EmptyString => false
  | String c _ => Util.isspace c
  end.

(** [s] ends with a white-space character. *)
Fixpoint ends_with_space (s : string) : bool :=
  match s with
  | EmptyString => false
  | String c EmptyString => Util.isspace c
  | String _ rest => ends_with_space rest
  end.

(** [text] has an empty comma-separated field: it is empty, starts or
    ends with a comma, or has two commas in a row. [at_field_start] says
    that no character of the current field has been read yet. *)
Fixpoint empty_field_from (text : string) (at_field_start : bool) : bool :=
  match text with
  | EmptyString => at_field_start
  | String c rest =>
      if Ascii.eqb c ","%char then at_field_start || empty_field_from rest true
      else empty_field_from rest false
  end.

Definition has_empty_field (text : string) : bool :=
  empty_field_from text true.

(** The reads of the live settings of [devices], in order. *)
Definition read_calls (devices : list string) : list event :=
  List.map EnumDisplaySettingsExA devices.

(** A call that neither writes display settings nor reads the keyboard. *)
Definition is_quiet (e : event) : bool :=
  match e with
  | ChangeDisplaySettingsExA _ _ _ | getch | kbhit_second => false
  | _ => true
  end.

Section Readable.

Variable os : OS.

(** Every one of the successive reads of [devices] succeeds. *)
Fixpoint all_readable (history : list event) (devices : list string) : bool :=
  match devices with
  | [] => true
  | device :: rest =>
      match os_enum_settings os history device with
      | Some _ => all_readable (history ++ [EnumDisplaySettingsExA device]) rest
      | None => false
      end
  end.

(** None of the successive reads of [devices] succeeds. *)
Fixpoint none_readable (history : list event) (devices : list string) : bool :=
  match devices with
  | [] => true
  | device :: rest =>
      match os_enum_settings os history device with
      | Some _ => false
      | None => none_readable (history ++ [EnumDisplaySettingsExA device]) rest
      end
  end.

(** The number of the first of at most [ticks] one-second polls, counted
    from 0, in which the key [y] or [Y] is hit. *)
Fixpoint first_confirm (history : list event) (ticks : nat) : option nat :=
  match ticks with
  | O => None
  | S ticks' =>
      match os_kbhit_second os history with
      | Some ch =>
          if Z.eqb (Cli.tolower ch) key_y then Some O
          else option_map S (first_confirm (history ++ [kbhit_second]) ticks')
      | None => option_map S (first_confirm (history ++ [kbhit_second]) ticks')
      end
  end.

End Readable.

(** The last character of [s] is [c]. *)
Fixpoint ends_with_char (s : string) (c : ascii) : bool :=
  match s with
  | EmptyString => false
  | String a EmptyString => Ascii.eqb a c
  | String _ rest => ends_with_char rest c
  end.

(** The text is there and ends with a backslash. *)
Definition ends_with_backslash (text : option string) : bool :=
  match text with
  | Some s => ends_with_char s Config.backslash
  | None => false
  end.

(** A device that [enumerate_monitors] considers: active and not a
    mirroring pseudo-device. *)
Definition is_candidate (device : Enum.DISPLAY_DEVICEA) : bool :=
  negb (Z.eqb (Z.land (Enum.StateFlags device) Enum.DISPLAY_DEVICE_ACTIVE) 0)
  && Z.eqb (Z.land (Enum.StateFlags device)
                   Enum.DISPLAY_DEVICE_MIRRORING_DRIVER) 0.




(** The alphabet: each upper-case letter with its lower-case letter. *)
Definition letters : list (ascii * ascii) :=
  combine (list_ascii_of_string "ABCDEFGHIJKLMNOPQRSTUVWXYZ")
          (list_ascii_of_string "abcdefghijklmnopqrstuvwxyz").

(** Two characters that are equal, or the upper-case and the lower-case
    form of one letter. *)
Definition same_letter (c d : ascii) : bool :=
  Ascii.eqb c d
  || existsb (fun pair => (Ascii.eqb c (fst pair) && Ascii.eqb d (snd pair))
                          || (Ascii.eqb c (snd pair) && Ascii.eqb d (fst pair)))
             letters.

(** Two strings that are equal up to the case of their letters. *)
Fixpoint equal_ignoring_case (a b : string) : bool :=
  match a, b with
  | EmptyString, EmptyString => true
  | String c a', String d b' => same_letter c d && equal_ignoring_case a' b'
  | _, _ => false
  end.

(** The global flags whose variables [main] sets again after parsing. *)
Definition is_reset_flag (arg : string) : bool :=
  String.eqb arg "--dry-run" || String.eqb arg "--verbose"
  || String.eqb arg "--no-confirm" || String.eqb arg "--force-rdp".

(** The arguments the first loop of [parse_args] consumes. *)
Definition is_global_flag (arg : string) : bool :=
  is_reset_flag arg || String.eqb arg "--version" || String.eqb arg "--help"
  || String.eqb arg "-h" || String.eqb arg "--revert-seconds".


(** The options the second loop of [parse_args] knows. *)
Definition is_command_option (arg : string) : bool :=
  String.eqb arg "--only" || String.eqb arg "--include"
  || String.eqb arg "--exclude" || String.eqb arg "--save-default"
  || String.eqb arg "--clear-default".

End Props.

(** * Properties *)

Local Open Scope Z_scope.

(** ** The model on the spec's examples *)

Example parse_device_path_selector :
  Util.parse_selector
    (Some ("device:" ++ String Util.dquote "\\.\DISPLAY2"
                     ++ String Util.dquote "")%string)
  = Some (Util.mkSelector Util.SELECTOR_TYPE_DEVICE_PATH "\\.\DISPLAY2").
Proof. reflexivity. Qed.

Example name_selector_ignores_case :
  let dell := Util.mkSelector Util.SELECTOR_TYPE_DEVICE_NAME "Dell" in
  Util.matches_monitor dell "M1" "\\.\DISPLAY1" "DELL U2720Q" = true /\
  Util.matches_monitor dell "M2" "\\.\DISPLAY2" "LG" = false.
Proof. split; reflexivity. Qed.

Example landscape_and_portrait_targets :
  List.map (fun current => get_target_orientation current ROTATION_LANDSCAPE)
           [DMDO_DEFAULT; DMDO_90; DMDO_180; DMDO_270]
  = [DMDO_DEFAULT; DMDO_DEFAULT; DMDO_DEFAULT; DMDO_DEFAULT] /\
  List.map (fun current => get_target_orientation current ROTATION_PORTRAIT)
           [DMDO_DEFAULT; DMDO_90; DMDO_180; DMDO_270]
  = [DMDO_90; DMDO_90; DMDO_90; DMDO_90].
Proof. split; reflexivity. Qed.

(** Snapshot, rotate to portrait, restore: the monitor is back at
    0 degrees, 1920x1080. *)
Example snapshot_rotate_restore :
  let os := Scenario.healthy Scenario.key_n in
  let (snapshot, h1) := create_rollback_state os [Scenario.monitor1] [] in
  let (outcome, h2) :=
    rotate_monitor os Scenario.monitor1 ROTATION_PORTRAIT false h1 in
  let rotated := os_enum_settings os h2 (device_path Scenario.monitor1) in
  let (restored, h3) := rollback_monitors os snapshot false h2 in
  let final := os_enum_settings os h3 (device_path Scenario.monitor1) in
  snapshot = Some [Scenario.entry_of Scenario.monitor1] /\
  outcome = mkResult true DISP_CHANGE_SUCCESSFUL DMDO_DEFAULT DMDO_90 /\
  rotated = Some (mkDevmode 1572992 DMDO_90 1080 1920) /\
  restored = true /\
  final = Some (mkDevmode 1572992 DMDO_DEFAULT 1920 1080).
Proof. cbv. repeat split. Qed.

(** With a revert timer, a snapshot and no key hit, the countdown runs
    out and the rotation is restored. *)
Example timed_revert_restores :
  let run := handle_rotation_command
               (Scenario.healthy Scenario.key_n) ROTATION_PORTRAIT
               (mkArgs None None (Some (Scenario.sel_id "M1")))
               (mkGlobals false false 2) [] in
  fst run = Ok 0 /\
  os_enum_settings (Scenario.healthy Scenario.key_n) (snd run)
                   (device_path Scenario.monitor1)
  = Some (mkDevmode 1572992 DMDO_DEFAULT 1920 1080).
Proof. cbv. repeat split. Qed.

(** ** Rotation engine *)

(** C8: for every pair of orientations, in particular every pair taken
    from 0, 90, 180 and 270 degrees, [should_swap_dimensions] is true
    exactly when one of the two, and not the other, is 90 or 270
    degrees. *)
Theorem should_swap_dimensions_iff_exactly_one_portrait :
  forall from_orientation to_orientation : Z,
    should_swap_dimensions from_orientation to_orientation = true <->
    (((from_orientation = DMDO_90 \/ from_orientation = DMDO_270) /\
      ~ (to_orientation = DMDO_90 \/ to_orientation = DMDO_270)) \/
     (~ (from_orientation = DMDO_90 \/ from_orientation = DMDO_270) /\
      (to_orientation = DMDO_90 \/ to_orientation = DMDO_270))).
Proof.
  intros f t. unfold should_swap_dimensions, DMDO_90, DMDO_270.
  destruct (f =? 1) eqn:F1; destruct (f =? 3) eqn:F3;
    destruct (t =? 1) eqn:T1; destruct (t =? 3) eqn:T3;
    rewrite ?Z.eqb_eq, ?Z.eqb_neq in *; cbn; split;
    try discriminate; try lia; intros; lia.
Qed.

(** The sixteen pairs of the four orientations, evaluated. *)
Lemma should_swap_dimensions_table :
  List.map (fun from_orientation =>
              List.map (should_swap_dimensions from_orientation)
                       [DMDO_DEFAULT; DMDO_90; DMDO_180; DMDO_270])
           [DMDO_DEFAULT; DMDO_90; DMDO_180; DMDO_270]
  = [[false; true; false; true];
     [true; false; true; false];
     [false; true; false; true];
     [true; false; true; false]].
Proof. reflexivity. Qed.

(** C5, as stated, fails: toggling from 180 degrees gives 0 degrees, not
    90. *)
Lemma toggle_from_180_is_not_90 :
  get_target_orientation DMDO_180 ROTATION_TOGGLE <> DMDO_90.
Proof. cbv. discriminate. Qed.

(** C5, amended: toggle gives 90 degrees from 0 degrees and 0 degrees from
    each of 90, 180 and 270 degrees; toggling twice from 0 degrees
    returns to 0 degrees. *)
Theorem toggle_target_orientation :
  get_target_orientation DMDO_DEFAULT ROTATION_TOGGLE = DMDO_90 /\
  get_target_orientation DMDO_90 ROTATION_TOGGLE = DMDO_DEFAULT /\
  get_target_orientation DMDO_180 ROTATION_TOGGLE = DMDO_DEFAULT /\
  get_target_orientation DMDO_270 ROTATION_TOGGLE = DMDO_DEFAULT /\
  get_target_orientation
    (get_target_orientation DMDO_DEFAULT ROTATION_TOGGLE) ROTATION_TOGGLE
  = DMDO_DEFAULT.
Proof. repeat split. Qed.

(** Toggle sends every orientation other than 0 degrees to 0 degrees. *)
Lemma toggle_from_nonzero (current : Z) :
  current <> DMDO_DEFAULT ->
  get_target_orientation current ROTATION_TOGGLE = DMDO_DEFAULT.
Proof.
  intros H. unfold get_target_orientation.
  apply Z.eqb_neq in H. now rewrite H.
Qed.

(** ** Single monitor rotation *)

Section RotateMonitor.

Variable os : OS.

(** What [rotate_monitor] does, by the answer of the settings reader. *)
Lemma rotate_monitor_unreadable monitor command dry_run history :
  os_enum_settings os history (device_path monitor) = None ->
  rotate_monitor os monitor command dry_run history
  = (mkResult false DISP_CHANGE_BADMODE 0 0,
     history ++ [EnumDisplaySettingsExA (device_path monitor)]).
Proof.
  intros H. unfold rotate_monitor, bind, call, ret. now rewrite H.
Qed.

Lemma rotate_monitor_dry_run monitor command history devmode :
  os_enum_settings os history (device_path monitor) = Some devmode ->
  rotate_monitor os monitor command true history
  = (mkResult true 0 (dmDisplayOrientation devmode)
              (get_target_orientation (dmDisplayOrientation devmode) command),
     history ++ [EnumDisplaySettingsExA (device_path monitor)]).
Proof.
  intros H. unfold rotate_monitor, bind, call, ret. now rewrite H.
Qed.

End RotateMonitor.

(** C6, as stated, fails: in a dry run a selected monitor whose live
    settings cannot be read gets a failed outcome. *)
Lemma dry_run_reports_failure_when_unreadable :
  success (fst (rotate_monitor Scenario.unreadable Scenario.monitor1
                               ROTATION_PORTRAIT true []))
  = false.
Proof. reflexivity. Qed.

(** C6, amended: with [dry_run] set, [rotate_monitor] makes one call, the
    read of the live settings, and never calls the display-settings
    writer; when that read succeeds the outcome is a success carrying the
    live orientation and the target computed from it, and when it fails
    the outcome is the failure [DISP_CHANGE_BADMODE]. *)
Theorem dry_run_never_writes :
  forall (os : OS) (monitor : MonitorInfo) (command : RotationCommand)
         (history : list event),
    snd (rotate_monitor os monitor command true history)
    = history ++ [EnumDisplaySettingsExA (device_path monitor)] /\
    fst (rotate_monitor os monitor command true history)
    = match os_enum_settings os history (device_path monitor) with
      | Some devmode =>
          mkResult true DISP_CHANGE_SUCCESSFUL (dmDisplayOrientation devmode)
                   (get_target_orientation (dmDisplayOrientation devmode)
                                           command)
      | None => mkResult false DISP_CHANGE_BADMODE 0 0
      end.
Proof.
  intros os monitor command history.
  destruct (os_enum_settings os history (device_path monitor)) as [d|] eqn:E.
  - now rewrite (rotate_monitor_dry_run os monitor command history d E).
  - now rewrite (rotate_monitor_unreadable os monitor command true history E).
Qed.

(** ** Selector engine *)

Section SelectorParsing.

Import Util Obs.

Local Open Scope nat_scope.

Lemma substring_whole (s : string) : substring 0 (String.length s) s = s.
Proof. induction s as [|c s IH]; cbn; [reflexivity | now rewrite IH]. Qed.

Lemma substring_after_prefix (p rest : string) :
  substring (String.length p)
            (String.length (p ++ rest) - String.length p) (p ++ rest)
  = rest.
Proof.
  induction p as [|c p IH]; cbn.
  - rewrite Nat.sub_0_r. apply substring_whole.
  - exact IH.
Qed.

Lemma prefix_split (p s : string) :
  String.prefix p s = true -> exists rest, s = (p ++ rest)%string.
Proof.
  revert s. induction p as [|c p IH]; intros s H.
  - now exists s.
  - destruct s as [|d s]; cbn in H; [discriminate|].
    destruct (ascii_dec c d) as [->|]; [|discriminate].
    destruct (IH s H) as [rest ->]. now exists rest.
Qed.

Lemma prefix_of_append (p rest : string) :
  String.prefix p (p ++ rest) = true.
Proof.
  induction p as [|c p IH]; cbn.
  - now destruct rest.
  - destruct (ascii_dec c c); [exact IH | congruence].
Qed.

Lemma strrchr_none_iff (s : string) (c : ascii) :
  strrchr s c = None <-> has_char s c = false.
Proof.
  induction s as [|a s IH]; cbn.
  - tauto.
  - destruct (strrchr s c) eqn:E.
    + split; [discriminate|]. intros H.
      apply orb_false_iff in H. destruct H as [_ H].
      apply IH in H. discriminate.
    + assert (Hs : has_char s c = false) by now apply IH.
      rewrite Hs, orb_false_r.
      destruct (Ascii.eqb a c); split; congruence.
Qed.

Lemma quoted_value_after_prefix (p rest : string) :
  quoted_value (p ++ rest) (String.length p)
  = match strrchr rest dquote with
    | Some len => Some (substring 0 len rest)
    | None => None
    end.
Proof. unfold quoted_value. now rewrite substring_after_prefix. Qed.

(** [parse_selector] rejects exactly the parts with an unterminated
    quote. *)
Lemma parse_selector_rejects_iff (part : string) :
  parse_selector (Some part) = None <-> unterminated_quote part.
Proof.
  split.
  - unfold parse_selector. destruct (is_monitor_id part); [discriminate|].
    destruct (str_starts_with part device_prefix) eqn:D.
    + apply prefix_split in D. destruct D as [rest ->].
      change 8 with (String.length device_prefix).
      rewrite quoted_value_after_prefix.
      destruct (strrchr rest dquote) eqn:E; [discriminate|]. intros _.
      exists rest. split; [now left | now apply strrchr_none_iff].
    + destruct (str_starts_with part name_prefix) eqn:N; [|discriminate].
      apply prefix_split in N. destruct N as [rest ->].
      change 6 with (String.length name_prefix).
      rewrite quoted_value_after_prefix.
      destruct (strrchr rest dquote) eqn:E; [discriminate|]. intros _.
      exists rest. split; [now right | now apply strrchr_none_iff].
  - intros [rest [[-> | ->] H]]; apply strrchr_none_iff in H;
      unfold parse_selector.
    + replace (is_monitor_id (device_prefix ++ rest)) with false
        by reflexivity.
      unfold str_starts_with. rewrite prefix_of_append.
      change 8 with (String.length device_prefix).
      now rewrite quoted_value_after_prefix, H.
    + replace (is_monitor_id (name_prefix ++ rest)) with false
        by reflexivity.
      replace (str_starts_with (name_prefix ++ rest) device_prefix)
        with false by reflexivity.
      unfold str_starts_with. rewrite prefix_of_append.
      change 6 with (String.length name_prefix).
      now rewrite quoted_value_after_prefix, H.
Qed.

(** Without an empty field every slot of the split is written. *)
Lemma str_split_filled (text : string) :
  no_empty_field text ->
  str_split text ","%char = List.map Some (parts_of text).
Proof.
  unfold no_empty_field, str_split, parts_of. intros H.
  rewrite <- H, firstn_all, Nat.sub_diag. cbn [repeat].
  now rewrite app_nil_r, map_map.
Qed.

(** The selectors that the parts parse to, rejected parts dropped. *)
Lemma parse_parts_written (parts : list string) :
  parse_parts (List.map Some parts)
  = Ok (flat_map (fun part => match parse_selector (Some part) with
                              | Some sel => [sel]
                              | None => []
                              end) parts).
Proof.
  induction parts as [|part parts IH]; cbn [List.map parse_parts flat_map].
  - reflexivity.
  - rewrite IH. now destruct (parse_selector (Some part)).
Qed.

Lemma flat_map_nil_iff {A B : Type} (f : A -> list B) (l : list A) :
  flat_map f l = [] <-> forall a, In a l -> f a = [].
Proof.
  induction l as [|a l IH]; cbn.
  - tauto.
  - split.
    + intros H. apply app_eq_nil in H. destruct H as [Ha Hl].
      intros b [<- | Hb]; [exact Ha | now apply IH].
    + intros H. rewrite (H a) by now left. cbn. apply IH.
      intros b Hb. apply H. now right.
Qed.

End SelectorParsing.

(** C7, as stated, fails: a list with a part that has an unterminated
    quote, and a list with a part that is empty after trimming, both
    parse to a selector set. *)
Lemma malformed_lists_parse :
  Util.parse_selector_list
    (Some ("M1,device:" ++ String Util.dquote "DISPLAY2")%string)
  = Ok (Some [Scenario.sel_id "M1"]) /\
  Util.parse_selector_list (Some "M1, ,M3"%string)
  = Ok (Some [Scenario.sel_id "M1"; Scenario.sel_id ""; Scenario.sel_id "M3"]).
Proof. split; reflexivity. Qed.

(** C7, amended: for a list without an empty field,
    [parse_selector_list] always returns, and it fails exactly when
    every part has an unterminated quote. When some part has none, the
    parts with an unterminated quote are dropped and the selectors of
    the other parts are returned, in order. A part that is empty after
    trimming is not rejected: it parses to a monitor-id selector with an
    empty value, which is then one of the selectors returned. *)
Theorem parse_selector_list_fails_iff :
  forall text : string,
    Obs.no_empty_field text ->
    let parts := Obs.parts_of text in
    let selectors :=
      flat_map (fun part => match Util.parse_selector (Some part) with
                            | Some sel => [sel]
                            | None => []
                            end) parts in
    (Util.parse_selector_list (Some text) = Ok None <->
     (forall part, In part parts -> Obs.unterminated_quote part)) /\
    ((exists part, In part parts /\ ~ Obs.unterminated_quote part) ->
     Util.parse_selector_list (Some text) = Ok (Some selectors)) /\
    Util.parse_selector_list (Some text)
    = Ok (match selectors with [] => None | _ => Some selectors end) /\
    (forall part, In part parts ->
                  Util.parse_selector (Some part) = None
                  <-> Obs.unterminated_quote part) /\
    (In ""%string parts ->
     exists returned,
       Util.parse_selector_list (Some text) = Ok (Some returned) /\
       In (Util.mkSelector Util.SELECTOR_TYPE_MONITOR_ID "") returned) /\
    Util.parse_selector (Some (Util.str_trim " "))
    = Some (Util.mkSelector Util.SELECTOR_TYPE_MONITOR_ID "").
Proof.
  intros text H parts selectors. unfold Util.parse_selector_list.
  rewrite (str_split_filled text H), parse_parts_written.
  fold parts. fold selectors.
  assert (Hnil : selectors = [] <->
                 forall part, In part parts -> Obs.unterminated_quote part).
  { unfold selectors. rewrite flat_map_nil_iff. split; intros Hall part Hin.
    - apply parse_selector_rejects_iff. specialize (Hall part Hin).
      now destruct (Util.parse_selector (Some part)).
    - specialize (Hall part Hin). apply parse_selector_rejects_iff in Hall.
      now rewrite Hall. }
  assert (Hin : forall sel, In sel selectors ->
                            match selectors with
                            | [] => Ok None
                            | _ => Ok (Some selectors)
                            end = Ok (Some selectors)).
  { intros sel Hs. now destruct selectors. }
  split; [|split; [|split; [|split; [|split]]]].
  - split.
    + intros E. apply Hnil. now destruct selectors.
    + intros Hall. apply Hnil in Hall. now rewrite Hall.
  - intros (part & Hp & Hq).
    destruct (Util.parse_selector (Some part)) as [sel|] eqn:E.
    + apply (Hin sel). unfold selectors. apply in_flat_map.
      exists part. split; [exact Hp|]. rewrite E. now left.
    + exfalso. apply Hq. now apply parse_selector_rejects_iff.
  - now destruct selectors.
  - intros part _. apply parse_selector_rejects_iff.
  - intros Hempty.
    assert (Hs : In (Util.mkSelector Util.SELECTOR_TYPE_MONITOR_ID "")
                    selectors).
    { unfold selectors. apply in_flat_map.
      exists ""%string. split; [exact Hempty | now left]. }
    exists selectors. split; [now apply (Hin _ Hs) | exact Hs].
  - reflexivity.
Qed.

(** The amended C7 at a list of three parts whose second part has an
    unterminated quote: the other two are returned. *)
Lemma parse_selector_list_fails_iff_witness :
  Obs.no_empty_field ("M1,name:" ++ String Util.dquote "Dell,M3")%string /\
  Util.parse_selector_list
    (Some ("M1,name:" ++ String Util.dquote "Dell,M3")%string)
  = Ok (Some [Scenario.sel_id "M1"; Scenario.sel_id "M3"]).
Proof.
  split; [reflexivity|].
  refine (proj1 (proj2 (parse_selector_list_fails_iff
                          ("M1,name:" ++ String Util.dquote "Dell,M3")%string
                          eq_refl)) _).
  exists "M1"%string. split; [now left|].
  intros (rest & [E | E] & _); discriminate.
Defined.

(** ** Batch orchestrator *)

Section Batch.

Import Obs.

Variable os : OS.
Variable command : RotationCommand.
Variables include_selectors exclude_selectors : option Util.SelectorList.
Variable dry_run : bool.

Local Abbreviation selected :=
  (should_process include_selectors exclude_selectors).

(** The calls of one [rotate_monitor]: one read of the monitor's device,
    then at most one write, and nothing else. *)
Lemma rotate_monitor_calls monitor history :
  exists calls,
    snd (rotate_monitor os monitor command dry_run history) = history ++ calls
    /\ reads calls = [device_path monitor]
    /\ forallb is_display_call calls = true.
Proof.
  unfold rotate_monitor, bind, call, ret.
  destruct (os_enum_settings os history (device_path monitor)) as [d|].
  - destruct dry_run; cbn [snd].
    + exists [EnumDisplaySettingsExA (device_path monitor)]. now repeat split.
    + eexists [EnumDisplaySettingsExA (device_path monitor); _].
      rewrite <- app_assoc. now repeat split.
  - exists [EnumDisplaySettingsExA (device_path monitor)]. now repeat split.
Qed.

Local Abbreviation outcome_of :=
  (Obs.outcome_of os command include_selectors exclude_selectors dry_run).

Lemma reads_app (l1 l2 : list event) : reads (l1 ++ l2) = reads l1 ++ reads l2.
Proof. apply flat_map_app. Qed.

Lemma rotate_loop_spec (monitors : MonitorList) :
  forall (acc : BatchRotationResult) (history : list event),
  exists outcomes calls,
    rotate_loop os monitors command include_selectors exclude_selectors
                dry_run acc history
    = (mkBatch
         (success_count acc
          + count_if success
              (processed_outcomes include_selectors exclude_selectors
                                  monitors outcomes))
         (failure_count acc
          + count_if (fun r => negb (success r))
              (processed_outcomes include_selectors exclude_selectors
                                  monitors outcomes))
         (results acc ++ outcomes),
       history ++ calls)
    /\ Forall2 outcome_of monitors outcomes
    /\ reads calls = List.map device_path (filter selected monitors)
    /\ forallb is_display_call calls = true.
Proof.
  induction monitors as [|monitor rest IH]; intros acc history.
  - exists [], []. cbn. rewrite !Z.add_0_r, !app_nil_r.
    destruct acc. now repeat split.
  - cbn [rotate_loop].
    destruct (selected monitor) eqn:S.
    + unfold bind.
      destruct (rotate_monitor os monitor command dry_run history)
        as [r h1] eqn:R.
      destruct (rotate_monitor_calls monitor history)
        as (c1 & Hh & Hr & Hd).
      rewrite R in Hh. cbn [snd] in Hh. subst h1.
      match goal with
      | |- context [rotate_loop os rest _ _ _ _ ?a ?h] =>
          destruct (IH a h) as (outs & c2 & E & F & Rd & D); rewrite E
      end.
      exists (r :: outs), (c1 ++ c2).
      split; [|split; [|split]].
      * unfold processed_outcomes, count_if.
        cbn [combine filter fst List.map snd]. rewrite S.
        cbn [List.map snd filter].
        rewrite <- !app_assoc. cbn [app].
        destruct (success r) eqn:Sr;
          cbn [filter negb success_count failure_count results];
          rewrite ?Sr; cbn [negb List.length];
          rewrite ?Nat2Z.inj_succ, <- ?app_assoc; cbn [app];
          f_equal; f_equal; lia.
      * constructor; [|exact F]. unfold Obs.outcome_of. rewrite S.
        exists history. now rewrite R.
      * cbn [filter]. rewrite S, reads_app, Hr, Rd.
        reflexivity.
      * now rewrite forallb_app, Hd, D.
    + match goal with
      | |- context [rotate_loop os rest _ _ _ _ ?a ?h] =>
          destruct (IH a h) as (outs & c2 & E & F & Rd & D); rewrite E
      end.
      exists (filtered_out monitor :: outs), c2.
      split; [|split; [|split]].
      * unfold processed_outcomes, count_if.
        cbn [combine filter fst List.map snd]. rewrite S.
        cbn [success_count failure_count results].
        now rewrite <- !app_assoc.
      * constructor; [|exact F]. unfold Obs.outcome_of. rewrite S.
        now repeat split.
      * cbn [filter]. now rewrite S.
      * exact D.
Qed.

End Batch.

Section BatchExact.

Import Obs.

Variable os : OS.
Variable command : RotationCommand.
Variables include_selectors exclude_selectors : option Util.SelectorList.
Variable dry_run : bool.

(** The flag the loop computes is the one the specification describes. *)
Lemma should_process_is_processed (monitor : MonitorInfo) :
  should_process include_selectors exclude_selectors monitor
  = is_processed include_selectors exclude_selectors monitor.
Proof.
  unfold should_process, is_processed, excluded, included, matches_any,
    selects.
  destruct include_selectors as [[|i inc]|];
    destruct exclude_selectors as [[|e exc]|]; reflexivity.
Qed.

(** One processed monitor: the outcome and the calls of
    [rotate_monitor]. *)
Lemma rotate_monitor_exact (monitor : MonitorInfo) (history : list event) :
  is_processed include_selectors exclude_selectors monitor = true ->
  rotate_monitor os monitor command dry_run history
  = (monitor_outcome os command include_selectors exclude_selectors dry_run
                     history monitor,
     history ++ monitor_calls os command include_selectors exclude_selectors
                              dry_run history monitor).
Proof.
  intros H. unfold monitor_outcome, monitor_calls, rotate_monitor, bind, call,
              ret, rotation_write, rotated_settings.
  rewrite H.
  destruct (os_enum_settings os history (device_path monitor)) as [live|];
    [|reflexivity].
  cbn [dmFields dmDisplayOrientation dmPelsWidth dmPelsHeight].
  destruct dry_run; [reflexivity|].
  rewrite <- app_assoc. cbn [app].
  now destruct (should_swap_dimensions _ _).
Qed.

Local Abbreviation outcomes_from :=
  (batch_outcomes os command include_selectors exclude_selectors dry_run).
Local Abbreviation calls_from :=
  (batch_calls os command include_selectors exclude_selectors dry_run).
Local Abbreviation tally_of :=
  (tally include_selectors exclude_selectors).

Lemma rotate_loop_exact (monitors : MonitorList) :
  forall (acc : BatchRotationResult) (history : list event),
    rotate_loop os monitors command include_selectors exclude_selectors
                dry_run acc history
    = (mkBatch
         (success_count acc
          + tally_of success monitors (outcomes_from history monitors))
         (failure_count acc
          + tally_of (fun r => negb (success r)) monitors
                     (outcomes_from history monitors))
         (results acc ++ outcomes_from history monitors),
       history ++ calls_from history monitors).
Proof.
  induction monitors as [|monitor rest IH]; intros acc history.
  - cbn. unfold tally, count_if. cbn.
    rewrite !Z.add_0_r, !app_nil_r. now destruct acc.
  - cbn [rotate_loop batch_outcomes batch_calls].
    rewrite should_process_is_processed.
    destruct (is_processed include_selectors exclude_selectors monitor)
      eqn:P.
    + unfold bind. rewrite (rotate_monitor_exact monitor history P).
      rewrite IH. unfold tally, count_if.
      cbn [combine filter fst snd]. rewrite P. cbn [andb].
      rewrite <- !app_assoc. cbn [app].
      destruct (success (monitor_outcome _ _ _ _ _ _ _)) eqn:Sr;
        cbn [negb success_count failure_count results List.length];
        rewrite ?Nat2Z.inj_succ, <- ?app_assoc; cbn [app];
        f_equal; f_equal; lia.
    + rewrite IH. unfold tally, count_if.
      cbn [combine filter fst snd]. rewrite P. cbn [andb].
      cbn [success_count failure_count results].
      replace (monitor_calls os command include_selectors exclude_selectors
                             dry_run history monitor) with (@nil event)
        by (unfold monitor_calls; now rewrite P).
      replace (monitor_outcome os command include_selectors exclude_selectors
                               dry_run history monitor)
        with (filtered_out monitor)
        by (unfold monitor_outcome; now rewrite P).
      rewrite !app_nil_r, <- !app_assoc. reflexivity.
Qed.

Lemma batch_outcomes_length (monitors : MonitorList) :
  forall history,
    List.length (outcomes_from history monitors) = List.length monitors.
Proof.
  induction monitors as [|monitor rest IH]; intros history; cbn;
    [reflexivity | now rewrite IH].
Qed.

(** The outcome at a position is the outcome of the monitor at that
    position, at the history of its turn. *)
Lemma batch_outcomes_nth (monitors : MonitorList) :
  forall history i monitor,
    nth_error monitors i = Some monitor ->
    exists h,
      nth_error (outcomes_from history monitors) i
      = Some (monitor_outcome os command include_selectors exclude_selectors
                              dry_run h monitor).
Proof.
  induction monitors as [|first rest IH]; intros history i monitor H.
  - destruct i; discriminate.
  - destruct i as [|i]; cbn in H |- *.
    + injection H as ->. now exists history.
    + now apply IH.
Qed.

(** Every call of the batch is a call on the device of a processed
    monitor. *)
Lemma batch_calls_devices (monitors : MonitorList) :
  forall history e,
    In e (calls_from history monitors) ->
    exists monitor,
      In monitor monitors /\
      is_processed include_selectors exclude_selectors monitor = true /\
      device_of e = Some (device_path monitor).
Proof.
  induction monitors as [|first rest IH]; intros history e H; [contradiction|].
  cbn [batch_calls] in H. apply in_app_or in H. destruct H as [H | H].
  - exists first. unfold monitor_calls in H.
    destruct (is_processed include_selectors exclude_selectors first);
      [|contradiction].
    split; [now left | split; [reflexivity|]].
    destruct H as [<- | H]; [reflexivity|].
    destruct (os_enum_settings os history (device_path first));
      [|contradiction].
    destruct dry_run; [contradiction|]. now destruct H as [<- | []].
  - destruct (IH _ e H) as (monitor & Hin & Hp & Hd).
    exists monitor. split; [now right | now split].
Qed.

End BatchExact.

(** The spec's scenario: include M1 and M3, exclude M3. Only M1 is
    processed; M2 and M3 get the no-op outcome. C4, as stated, fails
    there: the two no-ops are marked successful but do not count toward
    [success_count], which is 1 and not the number of successful
    outcomes. *)
Lemma filtered_out_monitors_are_not_counted :
  let batch :=
    fst (rotate_monitors_filtered
           (Scenario.healthy Scenario.key_n) Scenario.three_monitors
           ROTATION_PORTRAIT
           (Some [Scenario.sel_id "M1"; Scenario.sel_id "M3"])
           (Some [Scenario.sel_id "M3"]) false []) in
  results batch
  = [mkResult true DISP_CHANGE_SUCCESSFUL DMDO_DEFAULT DMDO_90;
     filtered_out Scenario.monitor2; filtered_out Scenario.monitor3] /\
  success_count batch = 1 /\
  success_count batch <> Obs.count_if success (results batch).
Proof.
  intros batch. split; [reflexivity | split; [reflexivity|]].
  vm_compute. discriminate.
Qed.

(** C4, amended: a monitor that matches an exclude selector is not
    processed, whatever the include selectors: its outcome is the no-op
    and no call is made for it, so that no call of the batch is on its
    device when no other monitor has that device. The outcomes are one
    per monitor of the inventory, in enumeration order: the successful
    no-op, with the inventory's orientation as old and new orientation,
    for a monitor that is not processed, and the outcome of its read and
    write for a processed one. [success_count] and [failure_count] are the numbers
    of processed monitors whose outcome succeeded and failed, the no-ops
    counting toward neither. The calls are those of the processed
    monitors, each in its turn, whatever happened to the monitors before
    it; with three monitors of which the writer rejects the second, the
    counts are 2 and 1 and there are three outcomes. *)
Theorem rotate_monitors_filtered_postcondition :
  forall (os : OS) (monitors : MonitorList) (command : RotationCommand)
         (include_selectors exclude_selectors : option Util.SelectorList)
         (dry_run : bool) (history : list event),
    let run := rotate_monitors_filtered os monitors command include_selectors
                                        exclude_selectors dry_run history in
    let batch := fst run in
    (forall (i : nat) (monitor : MonitorInfo) (selectors : Util.SelectorList)
            (selector : Util.Selector),
        nth_error monitors i = Some monitor ->
        exclude_selectors = Some selectors ->
        In selector selectors ->
        Util.matches_monitor selector (id monitor) (device_path monitor)
                             (device_name monitor) = true ->
        nth_error (results batch) i = Some (Obs.no_op monitor) /\
        forall h, Obs.monitor_calls os command include_selectors
                                    exclude_selectors dry_run h monitor = []) /\
    (forall (monitor : MonitorInfo) (selectors : Util.SelectorList)
            (selector : Util.Selector),
        In monitor monitors ->
        exclude_selectors = Some selectors ->
        In selector selectors ->
        Util.matches_monitor selector (id monitor) (device_path monitor)
                             (device_name monitor) = true ->
        (forall other, In other monitors ->
                       device_path other = device_path monitor ->
                       other = monitor) ->
        forall calls e,
          snd run = history ++ calls -> In e calls ->
          Obs.device_of e <> Some (device_path monitor)) /\
    (forall (i : nat) (monitor : MonitorInfo),
        nth_error monitors i = Some monitor ->
        Obs.is_processed include_selectors exclude_selectors monitor = false ->
        nth_error (results batch) i = Some (Obs.no_op monitor)) /\
    results batch
    = Obs.batch_outcomes os command include_selectors exclude_selectors
                         dry_run history monitors /\
    List.length (results batch) = List.length monitors /\
    success_count batch
    = Obs.tally include_selectors exclude_selectors success monitors
                (results batch) /\
    failure_count batch
    = Obs.tally include_selectors exclude_selectors
                (fun r => negb (success r)) monitors (results batch) /\
    snd run
    = history
        ++ Obs.batch_calls os command include_selectors exclude_selectors
                           dry_run history monitors /\
    (let batch3 :=
       fst (rotate_monitors_filtered Scenario.second_fails
              Scenario.three_monitors ROTATION_PORTRAIT None None false []) in
     success_count batch3 = 2 /\ failure_count batch3 = 1 /\
     List.map success (results batch3) = [true; false; true]).
Proof.
  intros os monitors command inc exc dry history run batch.
  assert (Hrun : run = (mkBatch
                          (Obs.tally inc exc success monitors
                             (Obs.batch_outcomes os command inc exc dry
                                                 history monitors))
                          (Obs.tally inc exc (fun r => negb (success r))
                             monitors
                             (Obs.batch_outcomes os command inc exc dry
                                                 history monitors))
                          (Obs.batch_outcomes os command inc exc dry
                                              history monitors),
                        history
                          ++ Obs.batch_calls os command inc exc dry
                                             history monitors)).
  { subst run. unfold rotate_monitors_filtered.
    now rewrite (rotate_loop_exact os command inc exc dry monitors). }
  subst batch. rewrite Hrun. cbn [fst snd results success_count failure_count].
  assert (Hnoop : forall i monitor,
             nth_error monitors i = Some monitor ->
             Obs.is_processed inc exc monitor = false ->
             nth_error (Obs.batch_outcomes os command inc exc dry
                                           history monitors) i
             = Some (Obs.no_op monitor)).
  { intros i monitor Hi Hp.
    destruct (batch_outcomes_nth os command inc exc dry monitors history
                                 i monitor Hi) as (h & ->).
    unfold Obs.monitor_outcome. now rewrite Hp. }
  assert (Hexcl : forall monitor selectors selector,
             exc = Some selectors -> In selector selectors ->
             Util.matches_monitor selector (id monitor) (device_path monitor)
                                  (device_name monitor) = true ->
             Obs.is_processed inc exc monitor = false).
  { intros monitor selectors selector -> Hin Hm.
    unfold Obs.is_processed, Obs.excluded.
    replace (existsb _ selectors) with true; [reflexivity|].
    symmetry. apply existsb_exists. now exists selector. }
  split; [|split; [|split; [exact Hnoop|split; [reflexivity|split;
    [|split; [|split; [|split]]]]]]].
  - intros i monitor selectors selector Hi He Hin Hm.
    pose proof (Hexcl monitor selectors selector He Hin Hm) as Hp.
    split; [now apply Hnoop|].
    intros h. unfold Obs.monitor_calls. now rewrite Hp.
  - intros monitor selectors selector Hmon He Hin Hm Huniq calls e Hc He'.
    pose proof (Hexcl monitor selectors selector He Hin Hm) as Hp.
    apply app_inv_head in Hc. subst calls.
    destruct (batch_calls_devices os command inc exc dry monitors history
                                  e He') as (other & Ho & Hpo & ->).
    intros Hd. injection Hd as Hd.
    rewrite (Huniq other Ho Hd) in Hpo. congruence.
  - apply batch_outcomes_length.
  - reflexivity.
  - reflexivity.
  - reflexivity.
  - cbv. now repeat split.
Qed.

(** ** Rollback manager *)

Section Rollback.

Import Obs.

Variable os : OS.

Lemma rollback_loop_spec (infos : RollbackState) :
  forall (all_successful : bool) (history : list event),
    rollback_loop os infos false all_successful history
    = (all_successful && all_restored os history infos,
       history ++ restore_calls os history infos).
Proof.
  induction infos as [|info rest IH]; intros flag history.
  - cbn. now rewrite andb_true_r, app_nil_r.
  - cbn [rollback_loop restore_calls all_restored].
    unfold bind, call, entry_calls, entry_restored.
    destruct (os_enum_settings os history (rb_device_path info)) as [d|].
    + rewrite IH. fold (restore_devmode info).
      unfold restore_write. rewrite <- !app_assoc. cbn [app].
      f_equal.
      destruct (os_change_settings _ _ _ _ _ =? DISP_CHANGE_SUCCESSFUL);
        now destruct flag.
    + rewrite IH. rewrite <- !app_assoc. cbn [app]. f_equal.
      now destruct flag.
Qed.

Lemma restore_calls_reads (infos : RollbackState) :
  forall history,
    reads (restore_calls os history infos) = List.map rb_device_path infos.
Proof.
  induction infos as [|info rest IH]; intros history; [reflexivity|].
  cbn [restore_calls List.map]. unfold reads. rewrite flat_map_app.
  fold (reads (restore_calls os (history ++ entry_calls os history info) rest)).
  rewrite IH. unfold entry_calls.
  now destruct (os_enum_settings os history (rb_device_path info)).
Qed.

Lemma restore_calls_writes (infos : RollbackState) :
  forall history e,
    In e (writes (restore_calls os history infos)) ->
    exists info, In info infos /\ e = restore_write info.
Proof.
  induction infos as [|info rest IH]; intros history e H; [contradiction|].
  cbn [restore_calls] in H. unfold writes in H.
  rewrite filter_app in H. apply in_app_or in H. destruct H as [H | H].
  - exists info. split; [now left|]. unfold entry_calls in H.
    destruct (os_enum_settings os history (rb_device_path info));
      cbn in H; [destruct H as [H | []]; now symmetry | contradiction].
  - destruct (IH _ e H) as (info' & Hin & ->).
    exists info'. split; [now right | reflexivity].
Qed.

End Rollback.

(** C9, as stated, fails: when the live settings of a captured entry
    cannot be read, nothing is applied to that entry (the two other
    entries are restored, and the result is false). *)
Lemma unreadable_entry_is_not_restored :
  let run := rollback_monitors Scenario.second_unreadable
                               (Some Scenario.three_entries) false [] in
  Obs.writes (snd run)
  = [Obs.restore_write (Scenario.entry_of Scenario.monitor1);
     Obs.restore_write (Scenario.entry_of Scenario.monitor3)] /\
  fst run = false.
Proof. split; reflexivity. Qed.

(** C9, amended: [rollback_monitors] with [dry_run] false reads the live
    settings of every captured entry, in order, whatever failed before;
    for every entry whose read succeeds it writes the captured
    orientation, width and height together, with all three field flags
    and whatever the settings just read, and for an entry whose read
    fails it writes nothing; it returns true exactly when the read and
    the write of every entry succeeded. *)
Theorem rollback_monitors_restores_every_readable_entry :
  forall (os : OS) (infos : RollbackState) (history : list event),
    rollback_monitors os (Some infos) false history
    = (Obs.all_restored os history infos,
       history ++ Obs.restore_calls os history infos) /\
    Obs.reads (Obs.restore_calls os history infos)
    = List.map rb_device_path infos /\
    (forall e, In e (Obs.writes (Obs.restore_calls os history infos)) ->
               exists info, In info infos /\ e = Obs.restore_write info).
Proof.
  intros os infos history. split; [|split].
  - unfold rollback_monitors. now rewrite rollback_loop_spec.
  - apply restore_calls_reads.
  - apply restore_calls_writes.
Qed.

(** ** Command handler *)

Section Calls.

Import Obs.

Lemma writes_app (l1 l2 : list event) :
  writes (l1 ++ l2) = writes l1 ++ writes l2.
Proof. apply filter_app. Qed.

Lemma display_calls_without_getch (calls : list event) :
  forallb is_display_call calls = true -> ~ In getch calls.
Proof.
  intros H Hin. rewrite forallb_forall in H. specialize (H _ Hin).
  discriminate.
Qed.

(** A list splits in one way only around an element that occurs once. *)
Lemma split_around_unique {A : Type} (x : A) (l1 l2 pre post : list A) :
  ~ In x l1 -> ~ In x l2 ->
  l1 ++ x :: l2 = pre ++ x :: post -> pre = l1 /\ post = l2.
Proof.
  revert pre. induction l1 as [|a l1 IH]; intros pre H1 H2 E.
  - destruct pre as [|b pre]; cbn in E.
    + now inversion E.
    + inversion E; subst. exfalso. apply H2.
      apply in_or_app. right. now left.
  - destruct pre as [|b pre]; cbn in E.
    + inversion E; subst. exfalso. apply H1. now left.
    + inversion E; subst.
      destruct (IH pre) as [-> ->]; auto.
      intros Hin. apply H1. now right.
Qed.

Variable os : OS.

Lemma snapshot_loop_calls (monitors : MonitorList) :
  forall (infos : RollbackState) (history : list event),
  exists calls,
    snd (snapshot_loop os monitors infos history) = history ++ calls /\
    reads calls = List.map device_path monitors /\
    writes calls = [].
Proof.
  induction monitors as [|monitor rest IH]; intros infos history.
  - exists []. cbn. now rewrite app_nil_r.
  - cbn [snapshot_loop]. unfold bind, call.
    destruct (os_enum_settings os history (device_path monitor)).
    + destruct (IH (infos ++ [mkRollbackInfo (device_path monitor)
                                (dmDisplayOrientation d) (dmPelsWidth d)
                                (dmPelsHeight d)])
                   (history ++ [EnumDisplaySettingsExA (device_path monitor)]))
        as (calls & E & R & W).
      exists (EnumDisplaySettingsExA (device_path monitor) :: calls).
      rewrite E, <- app_assoc.
      split; [reflexivity | split; [|exact W]].
      change (reads (EnumDisplaySettingsExA (device_path monitor) :: calls))
        with (device_path monitor :: reads calls).
      now rewrite R.
    + destruct (IH infos
                   (history ++ [EnumDisplaySettingsExA (device_path monitor)]))
        as (calls & E & R & W).
      exists (EnumDisplaySettingsExA (device_path monitor) :: calls).
      rewrite E, <- app_assoc.
      split; [reflexivity | split; [|exact W]].
      change (reads (EnumDisplaySettingsExA (device_path monitor) :: calls))
        with (device_path monitor :: reads calls).
      now rewrite R.
Qed.

(** A snapshot in which every read fails captures nothing. *)
Lemma snapshot_loop_unreadable (monitors : MonitorList) :
  forall (infos : RollbackState) (history : list event),
    (forall h device, os_enum_settings os h device = None) ->
    fst (snapshot_loop os monitors infos history) = infos.
Proof.
  induction monitors as [|monitor rest IH]; intros infos history H.
  - reflexivity.
  - cbn [snapshot_loop]. unfold bind, call. rewrite H. now apply IH.
Qed.

Lemma create_rollback_state_unreadable (monitors : MonitorList)
      (history : list event) :
  (forall h device, os_enum_settings os h device = None) ->
  fst (create_rollback_state os monitors history) = None.
Proof.
  intros H. unfold create_rollback_state.
  destruct monitors as [|monitor rest]; [reflexivity|].
  unfold bind.
  pose proof (snapshot_loop_unreadable (monitor :: rest) [] history H) as E.
  destruct (snapshot_loop os (monitor :: rest) [] history) as [infos h].
  cbn [fst] in E. now subst infos.
Qed.

Lemma create_rollback_state_calls (monitors : MonitorList)
      (history : list event) :
  exists calls,
    snd (create_rollback_state os monitors history) = history ++ calls /\
    writes calls = [].
Proof.
  unfold create_rollback_state. destruct monitors as [|monitor rest].
  - exists []. cbn. now rewrite app_nil_r.
  - unfold bind.
    destruct (snapshot_loop_calls (monitor :: rest) [] history)
      as (calls & E & _ & W).
    destruct (snapshot_loop os (monitor :: rest) [] history) as [infos h].
    cbn [snd] in E. subst h. exists calls. now destruct infos.
Qed.

Lemma rotate_monitors_filtered_calls monitors command inc exc dry history :
  exists calls,
    snd (rotate_monitors_filtered os monitors command inc exc dry history)
    = history ++ calls /\
    forallb is_display_call calls = true.
Proof.
  destruct (rotate_loop_spec os command inc exc dry monitors
                             (mkBatch 0 0 []) history)
    as (outcomes & calls & E & _ & _ & D).
  exists calls. unfold rotate_monitors_filtered. now rewrite E.
Qed.

(** When no monitor passes the filters the batch makes no call and
    counts nothing. *)
Lemma rotate_loop_all_filtered command inc exc dry (monitors : MonitorList) :
  (forall monitor, In monitor monitors ->
                   should_process inc exc monitor = false) ->
  forall acc history,
    rotate_loop os monitors command inc exc dry acc history
    = (mkBatch (success_count acc) (failure_count acc)
               (results acc ++ List.map filtered_out monitors),
       history).
Proof.
  induction monitors as [|monitor rest IH]; intros H acc history.
  - cbn. rewrite app_nil_r. now destruct acc.
  - cbn [rotate_loop]. rewrite (H monitor) by now left.
    rewrite IH by (intros m Hm; apply H; now right).
    cbn. now rewrite <- app_assoc.
Qed.

Lemma save_last_action_calls config command result history :
  save_last_action os config command result history
  = (tt, history ++ save_calls config command result).
Proof.
  unfold save_last_action, save_calls.
  destruct config as [config|]; [|cbn; now rewrite app_nil_r].
  destruct (success_count result >? 0); cbn; [reflexivity|].
  now rewrite app_nil_r.
Qed.

Lemma save_calls_quiet config command result :
  reads (save_calls config command result) = [] /\
  writes (save_calls config command result) = [] /\
  ~ In getch (save_calls config command result).
Proof.
  unfold save_calls. destruct config as [config|]; cbn; [|tauto].
  destruct (success_count result >? 0); cbn; [|tauto].
  repeat split. intros [H | []]. discriminate.
Qed.

(** Without a revert timer the confirmation block makes at most one
    call, the read of the key, whatever the key is: no snapshot exists,
    so declining restores nothing. *)
Lemma confirm_interactive_calls g result history :
  g_revert_seconds g <= 0 ->
  exists keys,
    confirm_or_revert os g result None history = (tt, history ++ keys) /\
    (keys = [] \/ keys = [getch]).
Proof.
  intros H. unfold confirm_or_revert.
  destruct (negb (g_dry_run g) && negb (g_no_confirm g)
            && (success_count result >? 0)).
  - replace (g_revert_seconds g >? 0) with false
      by (symmetry; rewrite Z.gtb_ltb; apply Z.ltb_ge; exact H).
    unfold prompt_confirmation, bind, call, ret.
    exists [getch]. split; [|now right].
    now destruct (Cli.tolower (os_getch os history) =? key_y).
  - exists []. split; [|now left]. cbn. now rewrite app_nil_r.
Qed.

(** With a revert timer and no snapshot the confirmation block makes no
    call. *)
Lemma confirm_timed_without_snapshot g result history :
  g_revert_seconds g > 0 ->
  confirm_or_revert os g result None history = (tt, history).
Proof.
  intros H. unfold confirm_or_revert.
  destruct (negb (g_dry_run g) && negb (g_no_confirm g)
            && (success_count result >? 0)); [|reflexivity].
  apply Z.gtb_gt in H. now rewrite H.
Qed.

(** [handle_rotation_command] once the inventory and the selectors are
    there: snapshot, batch, confirmation, save, exit code. *)
Lemma handle_rotation_command_steps command args g history monitors
      applicable rollback_state h1 batch h2 h3 :
  os_enumerate_monitors os (history ++ [load_config]) = Some monitors ->
  monitors <> [] ->
  get_applicable_selectors args (os_load_config os history)
  = Ok (Some applicable) ->
  (if g_revert_seconds g >? 0 then create_rollback_state os monitors
   else ret None) (history ++ [load_config; enumerate_monitors])
  = (rollback_state, h1) ->
  rotate_monitors_filtered os monitors command (include_set applicable)
                           (exclude_selectors args) (g_dry_run g) h1
  = (batch, h2) ->
  confirm_or_revert os g batch rollback_state h2 = (tt, h3) ->
  handle_rotation_command os command args g history
  = (Ok (exit_code batch),
     h3 ++ save_calls (os_load_config os history) command batch).
Proof.
  intros Hm Hne Hs Hr Hb Hc.
  unfold handle_rotation_command, bind, call.
  rewrite Hm. destruct monitors as [|monitor rest]; [congruence|].
  rewrite Hs. rewrite <- app_assoc. cbn [app].
  rewrite Hr. unfold include_set in Hb. rewrite Hb, Hc.
  now rewrite save_last_action_calls.
Qed.

End Calls.

Section Command.

Import Obs.

Variable os : OS.

(** The selector [*] matches no monitor whose id is not literally [*]. *)
Lemma star_selects_nothing exclude monitor :
  id monitor <> "*"%string ->
  should_process (Some [Scenario.sel_id "*"]) exclude monitor = false.
Proof.
  intros H. unfold should_process, matches_any. cbn.
  apply String.eqb_neq in H. rewrite H. cbn.
  destruct exclude as [[|x l]|]; try reflexivity.
  now destruct (existsb _ (x :: l)).
Qed.

(** The include branch of [get_applicable_selectors] parses the value of
    the first selector of the include list again, as a list of its own,
    and reads nothing else of the include list. *)
Lemma get_applicable_selectors_include args config first rest :
  only_selector args = None ->
  include_selectors args = Some (first :: rest) ->
  get_applicable_selectors args config
  = Util.parse_selector_list (Some (Util.value first)).
Proof.
  intros H1 H2. unfold get_applicable_selectors. now rewrite H1, H2.
Qed.

(** Without a revert timer, the calls of [handle_rotation_command] are:
    calls that read no key, then at most one read of the key, then at
    most the save of the last action. *)
Lemma interactive_trace_shape command args g history :
  g_revert_seconds g <= 0 ->
  exists calls keys saved,
    snd (handle_rotation_command os command args g history)
    = history ++ calls ++ keys ++ saved /\
    ~ In getch calls /\
    (keys = [] \/ keys = [getch]) /\
    reads saved = [] /\ writes saved = [] /\ ~ In getch saved.
Proof.
  intros Hg.
  assert (Hearly :
            forall r,
              handle_rotation_command os command args g history
              = (r, history ++ [load_config; enumerate_monitors]) ->
              exists calls keys saved,
                snd (handle_rotation_command os command args g history)
                = history ++ calls ++ keys ++ saved /\
                ~ In getch calls /\
                (keys = [] \/ keys = [getch]) /\
                reads saved = [] /\ writes saved = [] /\ ~ In getch saved).
  { intros r E. exists [load_config; enumerate_monitors], [], [].
    rewrite E. cbn [snd app]. repeat split; auto.
    intros [H | [H | []]]; discriminate. }
  destruct (os_enumerate_monitors os (history ++ [load_config]))
    as [[|monitor rest]|] eqn:Hm;
    try (eapply Hearly; unfold handle_rotation_command, bind, call;
         rewrite Hm, <- app_assoc; reflexivity).
  destruct (get_applicable_selectors args (os_load_config os history))
    as [[applicable|]|] eqn:Hs;
    try (eapply Hearly; unfold handle_rotation_command, bind, call;
         rewrite Hm, Hs, <- app_assoc; reflexivity).
  set (h1 := history ++ [load_config; enumerate_monitors]).
  destruct (rotate_monitors_filtered os (monitor :: rest) command
              (include_set applicable) (exclude_selectors args)
              (g_dry_run g) h1) as [batch h2] eqn:Hb.
  destruct (rotate_monitors_filtered_calls
              os (monitor :: rest) command (include_set applicable)
              (exclude_selectors args) (g_dry_run g) h1) as (calls & Hc & Hd).
  rewrite Hb in Hc. cbn [snd] in Hc. subst h2.
  destruct (confirm_interactive_calls os g batch (h1 ++ calls) Hg)
    as (keys & Hk & Hkeys).
  rewrite (handle_rotation_command_steps
             os command args g history (monitor :: rest) applicable None
             h1 batch (h1 ++ calls) ((h1 ++ calls) ++ keys) Hm).
  - exists ([load_config; enumerate_monitors] ++ calls), keys,
      (save_calls (os_load_config os history) command batch).
    cbn [snd]. unfold h1. rewrite <- !app_assoc.
    destruct (save_calls_quiet (os_load_config os history) command batch)
      as (Sr & Sw & Sg).
    repeat split; auto.
    intros [H | [H | H]]; try discriminate.
    exact (display_calls_without_getch calls Hd H).
  - discriminate.
  - exact Hs.
  - replace (g_revert_seconds g >? 0) with false
      by (symmetry; rewrite Z.gtb_ltb; apply Z.ltb_ge; exact Hg).
    reflexivity.
  - exact Hb.
  - exact Hk.
Qed.

End Command.

(** C1 on the code: with no [--only], no [--include] and no saved
    default, the include set handed to the batch step is not empty: it
    holds the monitor-id selector [*]. No monitor whose id is not
    literally [*] passes it: every monitor is filtered out as a no-op,
    nothing is written to any display and the command exits with code 2
    (no matching monitors). *)
Theorem no_selector_rotates_no_monitor :
  forall (os : OS) (command : RotationCommand) (args : CliArgs)
         (g : Globals) (history : list event) (monitors : MonitorList),
    only_selector args = None ->
    include_selectors args = None ->
    (forall config, os_load_config os history = Some config ->
                    default_selector config = None) ->
    os_enumerate_monitors os (history ++ [load_config]) = Some monitors ->
    monitors <> [] ->
    (forall monitor, In monitor monitors -> id monitor <> "*"%string) ->
    get_applicable_selectors args (os_load_config os history)
    = Ok (Some [Scenario.sel_id "*"]) /\
    (forall h,
        rotate_monitors_filtered os monitors command
          (Obs.include_set [Scenario.sel_id "*"]) (exclude_selectors args)
          (g_dry_run g) h
        = (mkBatch 0 0 (List.map filtered_out monitors), h)) /\
    fst (handle_rotation_command os command args g history) = Ok 2 /\
    Obs.writes (snd (handle_rotation_command os command args g history))
    = Obs.writes history.
Proof.
  intros os command args g history monitors Honly Hinc Hdef Hm Hne Hid.
  assert (Hs : get_applicable_selectors args (os_load_config os history)
               = Ok (Some [Scenario.sel_id "*"])).
  { unfold get_applicable_selectors. rewrite Honly, Hinc.
    destruct (os_load_config os history) as [[d l]|]; [|reflexivity].
    rewrite (Hdef _ eq_refl : d = None). reflexivity. }
  assert (Hb : forall h,
             rotate_monitors_filtered os monitors command
               (Obs.include_set [Scenario.sel_id "*"]) (exclude_selectors args)
               (g_dry_run g) h
             = (mkBatch 0 0 (List.map filtered_out monitors), h)).
  { intros h. unfold rotate_monitors_filtered.
    rewrite rotate_loop_all_filtered; [reflexivity|].
    intros monitor Hin. apply star_selects_nothing. now apply Hid. }
  set (h0 := history ++ [load_config; enumerate_monitors]).
  assert (Hr : exists rollback_state calls,
             (if g_revert_seconds g >? 0
              then create_rollback_state os monitors else ret None) h0
             = (rollback_state, h0 ++ calls) /\ Obs.writes calls = []).
  { destruct (g_revert_seconds g >? 0).
    - destruct (create_rollback_state_calls os monitors h0) as (calls & E & W).
      destruct (create_rollback_state os monitors h0) as [rb h]. cbn in E.
      subst h. now exists rb, calls.
    - exists None, []. cbn. now rewrite app_nil_r. }
  destruct Hr as (rollback_state & calls & Hr & Hw).
  assert (Hrun : handle_rotation_command os command args g history
                 = (Ok 2, h0 ++ calls)).
  { rewrite (handle_rotation_command_steps
               os command args g history monitors [Scenario.sel_id "*"]
               rollback_state (h0 ++ calls)
               (mkBatch 0 0 (List.map filtered_out monitors))
               (h0 ++ calls) (h0 ++ calls) Hm Hne Hs Hr (Hb _)).
    - unfold Obs.save_calls. cbn [success_count].
      destruct (os_load_config os history); cbn; now rewrite app_nil_r.
    - unfold confirm_or_revert. cbn [success_count].
      now rewrite andb_false_r. }
  split; [exact Hs | split; [exact Hb | split]].
  - now rewrite Hrun.
  - rewrite Hrun. cbn [snd]. unfold h0.
    rewrite !writes_app, Hw. cbn. now rewrite !app_nil_r.
Qed.

(** C1 on the code, with the three monitors M1, M2, M3. *)
Lemma no_selector_rotates_no_monitor_witness :
  fst (handle_rotation_command
         (Scenario.healthy Scenario.key_Y) ROTATION_TOGGLE
         (mkArgs None None None) (mkGlobals false false 0) [])
  = Ok 2 /\
  Obs.writes (snd (handle_rotation_command
                     (Scenario.healthy Scenario.key_Y) ROTATION_TOGGLE
                     (mkArgs None None None) (mkGlobals false false 0) []))
  = [].
Proof.
  apply (no_selector_rotates_no_monitor
           (Scenario.healthy Scenario.key_Y) ROTATION_TOGGLE
           (mkArgs None None None) (mkGlobals false false 0) []
           Scenario.three_monitors eq_refl eq_refl).
  - intros config E. injection E as <-. reflexivity.
  - reflexivity.
  - discriminate.
  - intros monitor [<- | [<- | [<- | []]]]; discriminate.
Defined.

(** C2 on the code: without a revert timer no snapshot is taken, so
    whatever key is read at the prompt ([y] or any other), no display
    setting is read or written after it: declining restores nothing. *)
Theorem interactive_keystroke_restores_nothing :
  forall (os : OS) (command : RotationCommand) (args : CliArgs)
         (g : Globals) (history pre post : list event),
    g_revert_seconds g <= 0 ->
    snd (handle_rotation_command os command args g history)
    = history ++ pre ++ getch :: post ->
    Obs.reads post = [] /\ Obs.writes post = [].
Proof.
  intros os command args g history pre post Hg E.
  destruct (interactive_trace_shape os command args g history Hg)
    as (calls & keys & saved & Hrun & Hcalls & Hkeys & Sr & Sw & Sg).
  rewrite Hrun in E. apply app_inv_head in E.
  destruct Hkeys as [-> | ->]; cbn [app] in E.
  - exfalso.
    assert (Hin : In getch (calls ++ saved)).
    { rewrite E. apply in_or_app. right. now left. }
    apply in_app_or in Hin. tauto.
  - destruct (split_around_unique getch calls saved pre post Hcalls Sg E)
      as [_ ->].
    now split.
Qed.

(** C2 on the code, with M1 selected and the key [n] pressed at the
    prompt: the rotation of M1 is the only write of the command, and
    after the key only the last action is saved. *)
Lemma interactive_keystroke_restores_nothing_witness :
  Scenario.key_n <> key_y /\
  snd (handle_rotation_command
         (Scenario.healthy Scenario.key_n) ROTATION_PORTRAIT
         (mkArgs None None (Some (Scenario.sel_id "M1")))
         (mkGlobals false false 0) [])
  = [] ++ [load_config; enumerate_monitors;
           EnumDisplaySettingsExA "\\.\DISPLAY1";
           ChangeDisplaySettingsExA "\\.\DISPLAY1"
                                    (mkDevmode 1572992 DMDO_90 1080 1920) 9]
       ++ getch :: [save_config (mkConfig None (Some "portrait"%string))] /\
  Obs.reads [save_config (mkConfig None (Some "portrait"%string))] = [] /\
  Obs.writes [save_config (mkConfig None (Some "portrait"%string))] = [].
Proof.
  split; [discriminate | split; [reflexivity|]].
  apply (interactive_keystroke_restores_nothing
           (Scenario.healthy Scenario.key_n) ROTATION_PORTRAIT
           (mkArgs None None (Some (Scenario.sel_id "M1")))
           (mkGlobals false false 0) []
           [load_config; enumerate_monitors;
            EnumDisplaySettingsExA "\\.\DISPLAY1";
            ChangeDisplaySettingsExA "\\.\DISPLAY1"
                                     (mkDevmode 1572992 DMDO_90 1080 1920) 9]
           [save_config (mkConfig None (Some "portrait"%string))]).
  - cbn. lia.
  - reflexivity.
Defined.

(** C3 on the code, at [--include M1,M3] with the monitors M1, M2 and
    M3: the include list parses to the selectors M1 and M3 and M3 matches
    it, but the include set that is applied is the re-parsed value of its
    first selector, M1 alone; M3 does not pass it, and only M1 is read
    and written. *)
Theorem include_list_applies_only_first_selector :
  let include_list := [Scenario.sel_id "M1"; Scenario.sel_id "M3"] in
  let args := mkArgs (Some include_list) None None in
  let run := handle_rotation_command (Scenario.healthy Scenario.key_Y)
               ROTATION_PORTRAIT args (mkGlobals false false 0) [] in
  Util.parse_selector_list (Some "M1,M3"%string) = Ok (Some include_list) /\
  get_applicable_selectors args Scenario.no_config
  = Ok (Some [Scenario.sel_id "M1"]) /\
  matches_any include_list Scenario.monitor3 = true /\
  should_process (Obs.include_set [Scenario.sel_id "M1"]) None
                 Scenario.monitor3 = false /\
  Obs.reads (snd run) = [device_path Scenario.monitor1] /\
  Obs.writes (snd run)
  = [ChangeDisplaySettingsExA (device_path Scenario.monitor1)
                              (mkDevmode 1572992 DMDO_90 1080 1920) 9].
Proof. cbv zeta. repeat split. Qed.

(** The include branch changes the kind of a selector too: the include
    list [name:"Dell"] is applied as the monitor-id selector [Dell]. *)
Lemma include_name_selector_becomes_monitor_id :
  Util.parse_selector_list
    (Some ("name:" ++ String Util.dquote "Dell" ++ String Util.dquote "")%string)
  = Ok (Some [Util.mkSelector Util.SELECTOR_TYPE_DEVICE_NAME "Dell"]) /\
  get_applicable_selectors
    (mkArgs (Some [Util.mkSelector Util.SELECTOR_TYPE_DEVICE_NAME "Dell"])
            None None) Scenario.no_config
  = Ok (Some [Scenario.sel_id "Dell"]).
Proof. split; reflexivity. Qed.

(** C10: when the revert timer is set and the snapshot captures nothing,
    [start_revert_timer] returns false at once, without a call (no
    countdown, no restore), and the command makes no call after the batch
    other than the save of the last action, and exits with the batch's
    code. *)
Theorem empty_snapshot_disables_timed_revert :
  forall (os : OS) (command : RotationCommand) (args : CliArgs)
         (g : Globals) (history : list event) (monitors : MonitorList)
         (applicable : Util.SelectorList) (h1 : list event)
         (batch : BatchRotationResult) (h2 : list event),
    g_revert_seconds g > 0 ->
    os_enumerate_monitors os (history ++ [load_config]) = Some monitors ->
    monitors <> [] ->
    get_applicable_selectors args (os_load_config os history)
    = Ok (Some applicable) ->
    create_rollback_state os monitors
                          (history ++ [load_config; enumerate_monitors])
    = (None, h1) ->
    rotate_monitors_filtered os monitors command (Obs.include_set applicable)
                             (exclude_selectors args) (g_dry_run g) h1
    = (batch, h2) ->
    start_revert_timer os (g_revert_seconds g) None h2 = (false, h2) /\
    handle_rotation_command os command args g history
    = (Ok (exit_code batch),
       h2 ++ Obs.save_calls (os_load_config os history) command batch).
Proof.
  intros os command args g history monitors applicable h1 batch h2
         Hg Hm Hne Hs Hr Hb.
  split; [reflexivity|].
  apply (handle_rotation_command_steps
           os command args g history monitors applicable None h1 batch h2 h2
           Hm Hne Hs).
  - pose proof Hg as Hg'. apply Z.gtb_gt in Hg'. now rewrite Hg'.
  - exact Hb.
  - now apply confirm_timed_without_snapshot.
Qed.

(** C10 with one monitor whose settings cannot be read when the snapshot
    is taken and can be read afterwards: the monitor is rotated, no
    countdown runs, nothing is restored, and the exit code is 0. *)
Lemma empty_snapshot_disables_timed_revert_witness :
  handle_rotation_command
    Scenario.late_reads ROTATION_PORTRAIT
    (mkArgs None None (Some (Scenario.sel_id "M1"))) (mkGlobals false false 5)
    []
  = (Ok 0,
     [load_config; enumerate_monitors;
      EnumDisplaySettingsExA "\\.\DISPLAY1";
      EnumDisplaySettingsExA "\\.\DISPLAY1";
      ChangeDisplaySettingsExA "\\.\DISPLAY1"
                               (mkDevmode 1572992 DMDO_90 1080 1920) 9;
      save_config (mkConfig None (Some "portrait"%string))]).
Proof.
  refine (proj2 (empty_snapshot_disables_timed_revert
                   Scenario.late_reads ROTATION_PORTRAIT
                   (mkArgs None None (Some (Scenario.sel_id "M1")))
                   (mkGlobals false false 5) [] [Scenario.monitor1]
                   [Scenario.sel_id "M1"]
                   [load_config; enumerate_monitors;
                    EnumDisplaySettingsExA "\\.\DISPLAY1"]
                   (mkBatch 1 0 [mkResult true 0 DMDO_DEFAULT DMDO_90])
                   [load_config; enumerate_monitors;
                    EnumDisplaySettingsExA "\\.\DISPLAY1";
                    EnumDisplaySettingsExA "\\.\DISPLAY1";
                    ChangeDisplaySettingsExA
                      "\\.\DISPLAY1" (mkDevmode 1572992 DMDO_90 1080 1920) 9]
                   _ eq_refl _ eq_refl eq_refl eq_refl)).
  - reflexivity.
  - discriminate.
Defined.

(** * Further properties of the code *)

(** ** String utilities (util.c) *)

Section Strings.

Import Util Props.

Local Open Scope nat_scope.

Lemma append_empty_r (s : string) : (s ++ "")%string = s.
Proof. induction s as [|c s IH]; cbn; [reflexivity | now rewrite IH]. Qed.

Lemma append_assoc (a b c : string) :
  ((a ++ b) ++ c)%string = (a ++ (b ++ c))%string.
Proof. induction a as [|x a IH]; cbn; [reflexivity | now rewrite IH]. Qed.

Lemma length_append (a b : string) :
  String.length (a ++ b) = String.length a + String.length b.
Proof. induction a as [|x a IH]; cbn; [reflexivity | now rewrite IH]. Qed.

Lemma skip_leading_space_split (s : string) :
  exists leading,
    s = (leading ++ skip_leading_space s)%string /\
    all_space leading = true /\
    starts_with_space (skip_leading_space s) = false.
Proof.
  induction s as [|c s (leading & E & A & N)].
  - now exists ""%string.
  - cbn [skip_leading_space]. destruct (isspace c) eqn:C.
    + exists (String c leading). cbn. rewrite C, A. now rewrite <- E.
    + exists ""%string. cbn. now rewrite C.
Qed.

Lemma cut_trailing_space_split (s : string) :
  exists trailing,
    s = (cut_trailing_space s ++ trailing)%string /\
    all_space trailing = true /\
    ends_with_space (cut_trailing_space s) = false.
Proof.
  induction s as [|c s (trailing & E & A & N)].
  - now exists ""%string.
  - cbn [cut_trailing_space]. destruct (cut_trailing_space s) as [|k kept] eqn:K.
    + destruct (isspace c) eqn:C.
      * exists (String c trailing). cbn in *. subst s. now rewrite C, A.
      * exists trailing. cbn in *. subst s. now rewrite C.
    + exists trailing. split; [cbn; f_equal; exact E | split; [exact A|]].
      exact N.
Qed.

Lemma cut_trailing_space_fixed (s : string) :
  ends_with_space s = false -> cut_trailing_space s = s.
Proof.
  induction s as [|c s IH]; [reflexivity|]. intros H. cbn [cut_trailing_space].
  destruct s as [|d s].
  - cbn in *. now rewrite H.
  - rewrite IH by exact H. reflexivity.
Qed.

End Strings.

(** X1: [str_trim] cuts white space at both ends and nothing else: the
    string is some white space, then the result, then some white space,
    and the result neither starts nor ends with a white-space character;
    trimming a trimmed string changes nothing. *)
Theorem str_trim_cuts_both_ends :
  forall s : string,
    (exists leading trailing,
        s = (leading ++ Util.str_trim s ++ trailing)%string /\
        Props.all_space leading = true /\
        Props.all_space trailing = true) /\
    Props.starts_with_space (Util.str_trim s) = false /\
    Props.ends_with_space (Util.str_trim s) = false /\
    Util.str_trim (Util.str_trim s) = Util.str_trim s.
Proof.
  intros s. unfold Util.str_trim.
  destruct (skip_leading_space_split s) as (leading & E & A & N).
  destruct (Util.skip_leading_space s) as [|c rest] eqn:K.
  - repeat split; try reflexivity. exists leading, ""%string. now rewrite E at 1.
  - destruct (cut_trailing_space_split rest) as (trailing & E' & A' & N').
    cbn [Props.starts_with_space] in N.
    assert (Hend : Props.ends_with_space
                     (String c (Util.cut_trailing_space rest)) = false).
    { cbn [Props.ends_with_space].
      destruct (Util.cut_trailing_space rest); [exact N | exact N']. }
    repeat split.
    + exists leading, trailing. split; [|now split].
      rewrite E at 1. cbn. now rewrite <- E'.
    + exact N.
    + exact Hend.
    + cbn [Util.skip_leading_space]. rewrite N.
      now rewrite cut_trailing_space_fixed.
Qed.

Section StringTests.

Import Util Props.

Local Open Scope nat_scope.

Lemma substring_skip_append (pre t : string) (n : nat) :
  substring (String.length pre) n (pre ++ t) = substring 0 n t.
Proof. induction pre as [|c pre IH]; cbn; [reflexivity | exact IH]. Qed.

Lemma substring_prefix_append (p t : string) :
  substring 0 (String.length p) (p ++ t) = p.
Proof.
  induction p as [|c p IH]; cbn; [now destruct t | now rewrite IH].
Qed.

Lemma split_at (s : string) :
  forall k, k <= String.length s ->
            s = (substring 0 k s
                 ++ substring k (String.length s - k) s)%string.
Proof.
  induction s as [|c s IH]; intros k Hk.
  - destruct k; reflexivity.
  - destruct k as [|k]; cbn.
    + now rewrite substring_whole.
    + f_equal. apply IH. cbn in Hk. lia.
Qed.

Lemma str_contains_iff (str sub : string) :
  str_contains str sub = true <->
  exists pre post, str = (pre ++ sub ++ post)%string.
Proof.
  split.
  - induction str as [|c str IH]; cbn [str_contains]; intros H.
    + rewrite orb_false_r in H. apply prefix_split in H.
      destruct H as [rest ->]. now exists ""%string, rest.
    + apply orb_true_iff in H. destruct H as [H | H].
      * apply prefix_split in H. destruct H as [rest ->].
        now exists ""%string, rest.
      * destruct (IH H) as (pre & post & ->).
        now exists (String c pre), post.
  - intros (pre & post & ->). induction pre as [|c pre IH].
    + cbn [append]. destruct (sub ++ post)%string eqn:E; cbn [str_contains];
        rewrite <- E, prefix_of_append; reflexivity.
    + cbn [append str_contains]. rewrite IH. apply orb_true_r.
Qed.

Lemma every_ascii (c : ascii) :
  In c (List.map ascii_of_nat (seq 0 256)).
Proof.
  rewrite <- (ascii_nat_embedding c). apply in_map. apply in_seq.
  pose proof (nat_ascii_bounded c). lia.
Qed.

(** [tolower] sends two characters to the same one exactly when they are
    equal or the two forms of one letter. *)
Lemma tolower_eq_iff (c d : ascii) :
  Util.tolower c = Util.tolower d <-> same_letter c d = true.
Proof.
  assert (H : forallb
                (fun x =>
                   forallb
                     (fun y => Bool.eqb (Ascii.eqb (Util.tolower x)
                                                   (Util.tolower y))
                                        (same_letter x y))
                     (List.map ascii_of_nat (seq 0 256)))
                (List.map ascii_of_nat (seq 0 256)) = true)
    by (vm_compute; reflexivity).
  rewrite forallb_forall in H. specialize (H c (every_ascii c)).
  rewrite forallb_forall in H. specialize (H d (every_ascii d)).
  apply Bool.eqb_prop in H. rewrite <- H. symmetry. apply Ascii.eqb_eq.
Qed.

Lemma str_to_lower_eq_iff (a b : string) :
  str_to_lower a = str_to_lower b <-> equal_ignoring_case a b = true.
Proof.
  revert b. induction a as [|c a IH]; intros [|d b];
    cbn [str_to_lower equal_ignoring_case]; try (split; congruence).
  rewrite andb_true_iff, <- tolower_eq_iff, <- IH. split.
  - intros H. injection H as H1 H2. now split.
  - intros [-> ->]. reflexivity.
Qed.

Lemma str_to_lower_append (a b : string) :
  str_to_lower (a ++ b) = (str_to_lower a ++ str_to_lower b)%string.
Proof.
  induction a as [|c a IH]; cbn; [reflexivity | now rewrite IH].
Qed.

(** A split of the lower-cased string comes from a split of the
    string. *)
Lemma str_to_lower_split (x : string) :
  forall s y,
    str_to_lower s = (x ++ y)%string ->
    exists s1 s2,
      s = (s1 ++ s2)%string /\ str_to_lower s1 = x /\ str_to_lower s2 = y.
Proof.
  induction x as [|c x IH]; intros s y H.
  - exists ""%string, s. now repeat split.
  - destruct s as [|d s]; [discriminate|].
    cbn [str_to_lower append] in H. injection H as Hc H.
    destruct (IH s y H) as (s1 & s2 & -> & <- & <-).
    exists (String d s1), s2. cbn [str_to_lower append]. rewrite Hc.
    now repeat split.
Qed.

Lemma has_char_append (a b : string) (c : ascii) :
  Obs.has_char (a ++ b) c = Obs.has_char a c || Obs.has_char b c.
Proof.
  induction a as [|x a IH]; cbn; [reflexivity|].
  now rewrite IH, orb_assoc.
Qed.

Lemma strtok_all_bound (s : string) (d : ascii) :
  forall tok,
    List.length (strtok_all s d tok) <= S (count_delim s d).
Proof.
  induction s as [|c s IH]; intros tok; cbn [strtok_all count_delim].
  - destruct tok; cbn; lia.
  - destruct (Ascii.eqb c d).
    + destruct tok; cbn [List.length]; specialize (IH ""%string); lia.
    + apply IH.
Qed.

Lemma strtok_all_tokens (s : string) (d : ascii) :
  forall tok,
    Obs.has_char tok d = false ->
    Forall (fun token => token <> ""%string /\ Obs.has_char token d = false)
           (strtok_all s d tok).
Proof.
  induction s as [|c s IH]; intros tok H; cbn [strtok_all].
  - destruct tok; constructor; [split; [discriminate | exact H] | constructor].
  - destruct (Ascii.eqb c d) eqn:E.
    + destruct tok.
      * now apply IH.
      * constructor; [split; [discriminate | exact H] | now apply IH].
    + apply IH. rewrite has_char_append, H. cbn. now rewrite E.
Qed.

(** All slots are written exactly when the text has no empty field. *)
Lemma strtok_all_count (s : string) :
  forall tok,
    List.length (strtok_all s ","%char tok) = S (count_delim s ","%char) <->
    empty_field_from s (match tok with EmptyString => true | _ => false end)
    = false.
Proof.
  induction s as [|c s IH]; intros tok;
    cbn [strtok_all count_delim empty_field_from].
  - destruct tok; cbn; split; congruence.
  - destruct (Ascii.eqb c ","%char) eqn:E.
    + destruct tok; cbn [List.length orb].
      * pose proof (strtok_all_bound s ","%char ""%string).
        split; [lia | discriminate].
      * rewrite <- (IH ""%string). split; lia.
    + rewrite (IH (tok ++ String c "")%string).
      now destruct tok.
Qed.

Lemma strrchr_last (p tail : string) (q : ascii) :
  Obs.has_char tail q = false ->
  strrchr (p ++ String q tail) q = Some (String.length p).
Proof.
  intros H. apply strrchr_none_iff in H.
  induction p as [|a p IH]; cbn.
  - now rewrite H, Ascii.eqb_refl.
  - now rewrite IH.
Qed.

Lemma parse_parts_unwritten (written : list string) (k : nat) :
  parse_parts (List.map Some written ++ repeat None (S k)) = UB.
Proof.
  induction written as [|part written IH]; [reflexivity|].
  cbn [List.map app parse_parts]. now rewrite IH.
Qed.

Lemma flat_map_length_le {A B : Type} (f : A -> list B) (l : list A) :
  (forall a, List.length (f a) <= 1) ->
  List.length (flat_map f l) <= List.length l.
Proof.
  intros H. induction l as [|a l IH]; cbn; [lia|].
  rewrite length_app. specialize (H a). lia.
Qed.

End StringTests.

(** X2: [str_starts_with] holds exactly when the string is the prefix
    followed by something, and [str_ends_with] exactly when it is
    something followed by the suffix. *)
Theorem str_starts_and_ends_with :
  forall str affix : string,
    (Util.str_starts_with str affix = true <->
     exists rest, str = (affix ++ rest)%string) /\
    (Util.str_ends_with str affix = true <->
     exists front, str = (front ++ affix)%string).
Proof.
  intros str affix. split; split.
  - apply prefix_split.
  - intros [rest ->]. apply prefix_of_append.
  - unfold Util.str_ends_with.
    destruct (Nat.ltb (String.length str) (String.length affix)) eqn:L;
      [discriminate|].
    apply Nat.ltb_ge in L. intros H. apply String.eqb_eq in H.
    exists (substring 0 (String.length str - String.length affix) str).
    pose proof (split_at str (String.length str - String.length affix)
                         (Nat.le_sub_l _ _)) as S.
    replace (String.length str - (String.length str - String.length affix))%nat
      with (String.length affix) in S by lia.
    rewrite H in S. exact S.
  - intros [front ->]. unfold Util.str_ends_with.
    rewrite length_append.
    replace (Nat.ltb (String.length front + String.length affix)
                     (String.length affix)) with false
      by (symmetry; apply Nat.ltb_ge; lia).
    replace (String.length front + String.length affix - String.length affix)%nat
      with (String.length front) by lia.
    rewrite substring_skip_append, substring_whole. apply String.eqb_refl.
Qed.

(** X3: a device-name selector matches a monitor exactly when some
    part of the device name equals its value up to the case of the
    letters: letter case is ignored on both sides, the monitor id and
    the device path play no part, and the empty value matches every
    monitor. So [Dell] and [dell] match [DELL U2720Q], and [Dell] does
    not match [LG Ultra]. *)
Theorem name_selector_matches_case_insensitively :
  forall (value monitor_id device_path device_name : string),
    let selector := Util.mkSelector Util.SELECTOR_TYPE_DEVICE_NAME value in
    (Util.matches_monitor selector monitor_id device_path device_name = true
     <-> exists front middle back,
        device_name = (front ++ middle ++ back)%string /\
        Props.equal_ignoring_case middle value = true) /\
    Util.matches_monitor
      (Util.mkSelector Util.SELECTOR_TYPE_DEVICE_NAME ""%string)
      monitor_id device_path device_name = true /\
    Util.matches_monitor
      (Util.mkSelector Util.SELECTOR_TYPE_DEVICE_NAME "Dell"%string)
      monitor_id device_path "DELL U2720Q"%string = true /\
    Util.matches_monitor
      (Util.mkSelector Util.SELECTOR_TYPE_DEVICE_NAME "dell"%string)
      monitor_id device_path "DELL U2720Q"%string = true /\
    Util.matches_monitor
      (Util.mkSelector Util.SELECTOR_TYPE_DEVICE_NAME "Dell"%string)
      monitor_id device_path "LG Ultra"%string = false.
Proof.
  intros value monitor_id device_path device_name selector.
  unfold Util.matches_monitor. cbn [Util.type Util.value selector].
  split; [|split; [|now repeat split]].
  - rewrite str_contains_iff. split.
    + intros (pre & post & E).
      apply str_to_lower_split in E. destruct E as (front & s2 & -> & <- & E).
      apply str_to_lower_split in E. destruct E as (middle & back & -> & E & _).
      exists front, middle, back. split; [reflexivity|].
      now apply str_to_lower_eq_iff.
    + intros (front & middle & back & -> & E).
      apply str_to_lower_eq_iff in E.
      exists (Util.str_to_lower front), (Util.str_to_lower back).
      now rewrite !str_to_lower_append, E.
  - apply str_contains_iff.
    exists ""%string, (Util.str_to_lower device_name). reflexivity.
Qed.

(** X4: [str_split] on a comma-separated text returns one slot per field
    (one more than the number of commas); every token that [strtok]
    finds is written, trimmed, in order (the array is never overrun),
    each token being non-empty and free of commas; the slots left
    unwritten are those of the empty fields, and there is none exactly
    when the text has no empty field. *)
Theorem str_split_slots :
  forall text : string,
    let count := S (Util.count_delim text ","%char) in
    let tokens := Util.strtok_all text ","%char EmptyString in
    List.length (Util.str_split text ","%char) = count /\
    Util.str_split text ","%char
    = List.map (fun token => Some (Util.str_trim token)) tokens
        ++ repeat None (count - List.length tokens) /\
    Forall (fun token => token <> ""%string /\
                         Obs.has_char token ","%char = false) tokens /\
    (List.length tokens = count <-> Props.has_empty_field text = false).
Proof.
  intros text count tokens.
  pose proof (strtok_all_bound text ","%char ""%string) as B.
  fold tokens count in B.
  assert (E : Util.str_split text ","%char
              = List.map (fun token => Some (Util.str_trim token)) tokens
                  ++ repeat None (count - List.length tokens)).
  { unfold Util.str_split. fold count tokens.
    now rewrite firstn_all2 by exact B. }
  split; [|split; [exact E | split]].
  - rewrite E, length_app, length_map, repeat_length. lia.
  - now apply strtok_all_tokens.
  - apply (strtok_all_count text ""%string).
Qed.

(** X5: a quoted selector keeps the text between the opening quote and
    the last quote, quotes inside it included, and drops what follows the
    last quote; so [device:"p"] and [name:"p"] parse to the device-path
    and device-name selectors of value [p], for every [p]. *)
Theorem parse_selector_quoted_value :
  forall p tail : string,
    Obs.has_char tail Util.dquote = false ->
    Util.parse_selector
      (Some (Util.device_prefix ++ p ++ String Util.dquote tail)%string)
    = Some (Util.mkSelector Util.SELECTOR_TYPE_DEVICE_PATH p) /\
    Util.parse_selector
      (Some (Util.name_prefix ++ p ++ String Util.dquote tail)%string)
    = Some (Util.mkSelector Util.SELECTOR_TYPE_DEVICE_NAME p).
Proof.
  intros p tail H. unfold Util.parse_selector. split.
  - replace (Util.is_monitor_id
               (Util.device_prefix ++ p ++ String Util.dquote tail))
      with false by reflexivity.
    unfold Util.str_starts_with. rewrite prefix_of_append.
    change 8%nat with (String.length Util.device_prefix).
    rewrite quoted_value_after_prefix, (strrchr_last p tail _ H).
    now rewrite substring_prefix_append.
  - replace (Util.is_monitor_id
               (Util.name_prefix ++ p ++ String Util.dquote tail))
      with false by reflexivity.
    replace (Util.str_starts_with
               (Util.name_prefix ++ p ++ String Util.dquote tail)
               Util.device_prefix) with false by reflexivity.
    unfold Util.str_starts_with. rewrite prefix_of_append.
    change 6%nat with (String.length Util.name_prefix).
    rewrite quoted_value_after_prefix, (strrchr_last p tail _ H).
    now rewrite substring_prefix_append.
Qed.

(** X5 at a device path written with its closing quote. *)
Lemma parse_selector_quoted_value_witness :
  Util.parse_selector
    (Some (Util.device_prefix ++ "\\.\DISPLAY2"
                              ++ String Util.dquote "")%string)
  = Some (Util.mkSelector Util.SELECTOR_TYPE_DEVICE_PATH "\\.\DISPLAY2").
Proof.
  exact (proj1 (parse_selector_quoted_value "\\.\DISPLAY2" "" eq_refl)).
Defined.

(** X6: [parse_selector_list] reads a slot that was never written
    (undefined behaviour) exactly when the text has an empty field: when
    it is empty, starts or ends with a comma, or has two commas in a
    row. Otherwise it returns either an error or a selector list that is
    not empty and has at most one selector per field. *)
Theorem parse_selector_list_defined_iff :
  forall text : string,
    (Util.parse_selector_list (Some text) = UB <->
     Props.has_empty_field text = true) /\
    (forall selectors,
        Util.parse_selector_list (Some text) = Ok (Some selectors) ->
        selectors <> [] /\
        (List.length selectors <= S (Util.count_delim text ","%char))%nat).
Proof.
  intros text.
  destruct (str_split_slots text) as (_ & E & _ & C).
  pose proof (strtok_all_bound text ","%char ""%string) as B.
  unfold Util.parse_selector_list. rewrite E.
  set (tokens := Util.strtok_all text ","%char EmptyString) in *.
  set (count := S (Util.count_delim text ","%char)) in *.
  rewrite <- (map_map Util.str_trim Some).
  destruct (Nat.eq_dec (List.length tokens) count) as [Heq | Hne].
  - rewrite Heq, Nat.sub_diag. cbn [repeat]. rewrite app_nil_r.
    rewrite parse_parts_written.
    set (parsed := flat_map _ _).
    assert (Hlen : (List.length parsed <= count)%nat).
    { unfold parsed. rewrite <- Heq, <- (length_map Util.str_trim tokens).
      apply flat_map_length_le. intros part.
      destruct (Util.parse_selector (Some part)); cbn; lia. }
    apply C in Heq. split.
    + split; [destruct parsed; discriminate | congruence].
    + intros selectors Hs. destruct parsed as [|sel parsed]; [discriminate|].
      injection Hs as <-. split; [discriminate | exact Hlen].
  - assert (Hk : exists k, (count - List.length tokens = S k)%nat).
    { exists (count - List.length tokens - 1)%nat. lia. }
    destruct Hk as [k ->]. rewrite parse_parts_unwritten.
    split; [|discriminate]. split; [|reflexivity]. intros _.
    destruct (Props.has_empty_field text) eqn:F; [reflexivity|].
    exfalso. apply Hne. now apply C.
Qed.

(** ** Rotation, snapshot and rollback (rotate.c) *)

Section RotateMore.

Import Obs Props.

Local Open Scope Z_scope.

Lemma land_lor_same (a b : Z) : Z.land (Z.lor a b) b = b.
Proof.
  apply Z.bits_inj'. intros n _. rewrite Z.land_spec, Z.lor_spec.
  now destruct (Z.testbit a n), (Z.testbit b n).
Qed.

Lemma land_lor_inner (a b c : Z) : Z.land (Z.lor (Z.lor a b) c) b = b.
Proof.
  apply Z.bits_inj'. intros n _. rewrite Z.land_spec, !Z.lor_spec.
  now destruct (Z.testbit a n), (Z.testbit b n), (Z.testbit c n).
Qed.

Lemma writes_read_calls (devices : list string) :
  writes (read_calls devices) = [].
Proof. induction devices as [|d devices IH]; [reflexivity | exact IH]. Qed.

Lemma quiet_read_calls (devices : list string) :
  forallb is_quiet (read_calls devices) = true.
Proof. induction devices as [|d devices IH]; [reflexivity | exact IH]. Qed.

Variable os : OS.

Lemma rotate_loop_dry_run command inc exc (monitors : MonitorList) :
  forall acc history,
    snd (rotate_loop os monitors command inc exc true acc history)
    = history
        ++ read_calls (List.map device_path
                                (filter (should_process inc exc) monitors)).
Proof.
  induction monitors as [|monitor rest IH]; intros acc history.
  - cbn. now rewrite app_nil_r.
  - cbn [rotate_loop filter].
    destruct (should_process inc exc monitor); [|apply IH].
    unfold bind.
    destruct (os_enum_settings os history (device_path monitor)) as [d|] eqn:E.
    + rewrite (rotate_monitor_dry_run os monitor command history d E).
      rewrite IH. cbn [List.map read_calls]. now rewrite <- app_assoc.
    + rewrite (rotate_monitor_unreadable os monitor command true history E).
      rewrite IH. cbn [List.map read_calls]. now rewrite <- app_assoc.
Qed.

Lemma rollback_loop_dry_run (infos : RollbackState) :
  forall flag history,
    rollback_loop os infos true flag history
    = (flag && all_readable os history (List.map rb_device_path infos),
       history ++ read_calls (List.map rb_device_path infos)).
Proof.
  induction infos as [|info rest IH]; intros flag history.
  - cbn. now rewrite andb_true_r, app_nil_r.
  - cbn [rollback_loop List.map all_readable read_calls]. unfold bind, call.
    destruct (os_enum_settings os history (rb_device_path info)).
    + rewrite IH, <- app_assoc. reflexivity.
    + rewrite IH, <- app_assoc. cbn [app read_calls]. f_equal.
      now destruct flag.
Qed.

Lemma snapshot_loop_result (monitors : MonitorList) :
  forall infos history,
  exists captured,
    snapshot_loop os monitors infos history
    = (infos ++ captured,
       history ++ read_calls (List.map device_path monitors)) /\
    incl (List.map rb_device_path captured) (List.map device_path monitors) /\
    (List.length captured <= List.length monitors)%nat /\
    (captured = [] <->
     none_readable os history (List.map device_path monitors) = true) /\
    (all_readable os history (List.map device_path monitors) = true ->
     List.map rb_device_path captured = List.map device_path monitors).
Proof.
  induction monitors as [|monitor rest IH]; intros infos history.
  - exists []. cbn. rewrite !app_nil_r. repeat split; auto.
    intros x [].
  - cbn [snapshot_loop List.map none_readable all_readable read_calls].
    unfold bind, call.
    destruct (os_enum_settings os history (device_path monitor)) as [d|].
    + match goal with
      | |- context [snapshot_loop os rest ?i ?h] =>
          destruct (IH i h) as (captured & E & I & L & N & A)
      end.
      rewrite E. eexists (_ :: captured).
      rewrite <- !app_assoc. cbn [app]. split; [reflexivity|].
      split; [|split; [|split]].
      * cbn [List.map rb_device_path]. intros x [<- | Hx];
          [now left | right; now apply I].
      * cbn. lia.
      * split; discriminate.
      * intros Hall. cbn [List.map rb_device_path]. f_equal. now apply A.
    + destruct (IH infos
                   (history ++ [EnumDisplaySettingsExA (device_path monitor)]))
        as (captured & E & I & L & N & A).
      rewrite E. exists captured.
      rewrite <- !app_assoc. cbn [app]. split; [reflexivity|].
      split; [|split; [|split]].
      * intros x Hx. right. now apply I.
      * cbn. lia.
      * exact N.
      * discriminate.
Qed.




Lemma countdown_spec (ticks : nat) (state : RollbackState) :
  forall history,
    countdown os ticks state history
    = match first_confirm os history ticks with
      | Some k => (true, history ++ repeat kbhit_second (S k))
      | None =>
          let expired := history ++ repeat kbhit_second ticks in
          (all_restored os expired state,
           expired ++ restore_calls os expired state)
      end.
Proof.
  induction ticks as [|ticks IH]; intros history.
  - cbn [countdown first_confirm repeat]. cbv zeta. rewrite app_nil_r.
    unfold rollback_monitors. now rewrite rollback_loop_spec.
  - cbn [countdown first_confirm]. unfold bind, call.
    assert (Hnext : countdown os ticks state (history ++ [kbhit_second])
                    = match option_map S (first_confirm
                                            os (history ++ [kbhit_second])
                                            ticks) with
                      | Some k => (true, history ++ repeat kbhit_second (S k))
                      | None =>
                          let expired :=
                            history ++ repeat kbhit_second (S ticks) in
                          (all_restored os expired state,
                           expired ++ restore_calls os expired state)
                      end).
    { rewrite IH.
      destruct (first_confirm os (history ++ [kbhit_second]) ticks);
        cbn [option_map repeat]; cbv zeta; now rewrite <- !app_assoc. }
    destruct (os_kbhit_second os history) as [ch|]; [|exact Hnext].
    destruct (Cli.tolower ch =? key_y); [reflexivity | exact Hnext].
Qed.

End RotateMore.

(** X7: without [dry_run], [rotate_monitor] on a monitor whose live
    settings can be read makes exactly one write, to the monitor's own
    device and with the persist flags, after the read. The settings
    written carry the target orientation computed from the live
    orientation (not from the inventory's), with the orientation flag
    set, and the live width and height, exchanged (with their flags set)
    exactly when the rotation crosses between landscape and portrait. The
    outcome records the writer's code as it is and succeeds exactly when
    that code is [DISP_CHANGE_SUCCESSFUL]. *)
Theorem rotate_monitor_writes_target :
  forall (os : OS) (monitor : MonitorInfo) (command : RotationCommand)
         (history : list event) (live : DEVMODEA),
    os_enum_settings os history (device_path monitor) = Some live ->
    let target :=
      get_target_orientation (dmDisplayOrientation live) command in
    let swap := should_swap_dimensions (dmDisplayOrientation live) target in
    exists written code,
      rotate_monitor os monitor command false history
      = (mkResult (code =? DISP_CHANGE_SUCCESSFUL) code
                  (dmDisplayOrientation live) target,
         history ++ [EnumDisplaySettingsExA (device_path monitor);
                     ChangeDisplaySettingsExA
                       (device_path monitor) written
                       (Z.lor CDS_UPDATEREGISTRY CDS_GLOBAL)]) /\
      code = os_change_settings
               os (history ++ [EnumDisplaySettingsExA (device_path monitor)])
               (device_path monitor) written
               (Z.lor CDS_UPDATEREGISTRY CDS_GLOBAL) /\
      dmDisplayOrientation written = target /\
      Z.land (dmFields written) DM_DISPLAYORIENTATION = DM_DISPLAYORIENTATION /\
      (swap = true ->
       dmPelsWidth written = dmPelsHeight live /\
       dmPelsHeight written = dmPelsWidth live /\
       Z.land (dmFields written) (Z.lor DM_PELSWIDTH DM_PELSHEIGHT)
       = Z.lor DM_PELSWIDTH DM_PELSHEIGHT) /\
      (swap = false ->
       dmPelsWidth written = dmPelsWidth live /\
       dmPelsHeight written = dmPelsHeight live /\
       dmFields written = Z.lor (dmFields live) DM_DISPLAYORIENTATION).
Proof.
  intros os monitor command history live E target swap.
  unfold rotate_monitor, bind, call, ret. rewrite E. fold target. fold swap.
  destruct swap eqn:S.
  - eexists _, _. split; [rewrite <- app_assoc; reflexivity|].
    cbn [dmDisplayOrientation dmFields dmPelsWidth dmPelsHeight].
    repeat split; try discriminate.
    + apply land_lor_inner.
    + apply land_lor_same.
  - eexists _, _. split; [rewrite <- app_assoc; reflexivity|].
    cbn [dmDisplayOrientation dmFields dmPelsWidth dmPelsHeight].
    repeat split; try discriminate.
    apply land_lor_same.
Qed.

(** X7 on monitor M1 in landscape, rotated to portrait: 1080x1920 is
    written. *)
Lemma rotate_monitor_writes_target_witness :
  exists written code,
    rotate_monitor (Scenario.healthy Scenario.key_n) Scenario.monitor1
                   ROTATION_PORTRAIT false []
    = (mkResult (code =? DISP_CHANGE_SUCCESSFUL) code DMDO_DEFAULT DMDO_90,
       [EnumDisplaySettingsExA "\\.\DISPLAY1";
        ChangeDisplaySettingsExA "\\.\DISPLAY1" written 9]) /\
    dmPelsWidth written = 1080 /\ dmPelsHeight written = 1920.
Proof.
  destruct (rotate_monitor_writes_target
              (Scenario.healthy Scenario.key_n) Scenario.monitor1
              ROTATION_PORTRAIT [] Scenario.landscape_1080p eq_refl)
    as (written & code & E & _ & _ & _ & Hswap & _).
  exists written, code. split; [exact E|].
  destruct (Hswap eq_refl) as (W & H & _). now split.
Defined.

(** X8: a dry-run batch only reads: its calls are the reads of the live
    settings of the monitors that pass the filters, one each and in
    inventory order, and nothing is written. *)
Theorem dry_run_batch_only_reads :
  forall (os : OS) (monitors : MonitorList) (command : RotationCommand)
         (include_selectors exclude_selectors : option Util.SelectorList)
         (history : list event),
    snd (rotate_monitors_filtered os monitors command include_selectors
                                  exclude_selectors true history)
    = history
        ++ Props.read_calls
             (List.map device_path
                (filter (should_process include_selectors exclude_selectors)
                        monitors)).
Proof.
  intros. unfold rotate_monitors_filtered. apply rotate_loop_dry_run.
Qed.

(** X9: [rollback_monitors] with [dry_run] set only reads: it reads the
    live settings of every captured entry, in order, writes nothing, and
    returns true exactly when every read succeeded. *)
Theorem dry_run_rollback_only_reads :
  forall (os : OS) (infos : RollbackState) (history : list event),
    rollback_monitors os (Some infos) true history
    = (Props.all_readable os history (List.map rb_device_path infos),
       history ++ Props.read_calls (List.map rb_device_path infos)).
Proof.
  intros. unfold rollback_monitors. now rewrite rollback_loop_dry_run.
Qed.

(** X10: [create_rollback_state] reads the live settings of every monitor
    of the inventory once, in inventory order, and makes no other call.
    It never returns an empty snapshot: the result is none exactly when
    no read succeeded. A snapshot holds at most one entry per monitor,
    each for the device of a monitor of the inventory, and one entry per
    monitor, in order, when every read succeeded. *)
Theorem create_rollback_state_snapshot :
  forall (os : OS) (monitors : MonitorList) (history : list event),
    let run := create_rollback_state os monitors history in
    let devices := List.map device_path monitors in
    snd run = history ++ Props.read_calls devices /\
    fst run <> Some [] /\
    (fst run = None <-> Props.none_readable os history devices = true) /\
    (forall infos,
        fst run = Some infos ->
        incl (List.map rb_device_path infos) devices /\
        (List.length infos <= List.length monitors)%nat) /\
    (monitors <> [] ->
     Props.all_readable os history devices = true ->
     exists infos,
       fst run = Some infos /\ List.map rb_device_path infos = devices).
Proof.
  intros os monitors history run devices. subst run devices.
  unfold create_rollback_state. destruct monitors as [|monitor rest].
  - cbn. rewrite app_nil_r. repeat split; try discriminate; congruence.
  - unfold bind.
    destruct (snapshot_loop_result os (monitor :: rest) [] history)
      as (captured & E & I & L & N & A).
    rewrite E. cbn [app]. destruct captured as [|info captured]; cbn [fst snd].
    + repeat split; try discriminate.
      * intros _. now apply N.
      * intros _ Hall. specialize (A Hall). discriminate.
    + repeat split; try discriminate.
      * intros H. apply N in H. discriminate.
      * injection H as <-. exact I.
      * injection H as <-. exact L.
      * intros _ Hall. eexists. split; [reflexivity | now apply A].
Qed.


(** X12: the revert timer with a snapshot. Either the key [y] or [Y] is
    hit within one of the first [seconds] one-second polls: the timer
    then returns true after that poll and calls nothing else, so nothing
    is restored. Or it is not: the timer then makes exactly [seconds]
    polls (none when [seconds] is not positive) and restores the
    snapshot, returning whether every entry was restored. A key other
    than [y] only ends the current second. *)
Theorem start_revert_timer_confirm_or_restore :
  forall (os : OS) (seconds : Z) (state : RollbackState)
         (history : list event),
    start_revert_timer os seconds (Some state) history
    = match Props.first_confirm os history (Z.to_nat seconds) with
      | Some k => (true, history ++ repeat kbhit_second (S k))
      | None =>
          let expired := history ++ repeat kbhit_second (Z.to_nat seconds) in
          (Obs.all_restored os expired state,
           expired ++ Obs.restore_calls os expired state)
      end.
Proof. intros. unfold start_revert_timer. apply countdown_spec. Qed.

(** The target orientation is 0 or 90 degrees whatever the command
    and the current orientation; it depends on the current orientation
    for toggle only, so the landscape and portrait commands give the
    same target when repeated, and a third toggle gives what the first
    gave. *)
Theorem target_orientation_range :
  forall (current : Z) (command : RotationCommand),
    (get_target_orientation current command = DMDO_DEFAULT \/
     get_target_orientation current command = DMDO_90) /\
    (command <> ROTATION_TOGGLE ->
     forall other, get_target_orientation other command
                   = get_target_orientation current command) /\
    get_target_orientation
      (get_target_orientation
         (get_target_orientation current ROTATION_TOGGLE) ROTATION_TOGGLE)
      ROTATION_TOGGLE
    = get_target_orientation current ROTATION_TOGGLE.
Proof.
  intros current command. split; [|split].
  - destruct command; cbn; auto.
    destruct (current =? DMDO_DEFAULT); auto.
  - destruct command; try reflexivity. congruence.
  - cbn. now destruct (current =? DMDO_DEFAULT).
Qed.

(** ** The command handler without confirmation (cli.c) *)

Section Unconfirmed.

Import Obs Props.

Local Open Scope Z_scope.

Variable os : OS.

Lemma confirm_or_revert_skipped g result rollback_state history :
  g_dry_run g = true \/ g_no_confirm g = true ->
  confirm_or_revert os g result rollback_state history = (tt, history).
Proof.
  intros [H | H]; unfold confirm_or_revert; rewrite H; cbn [negb andb];
    [reflexivity | now rewrite andb_false_r].
Qed.

Lemma create_rollback_state_reads monitors history :
  snd (create_rollback_state os monitors history)
  = history ++ read_calls (List.map device_path monitors).
Proof.
  unfold create_rollback_state. destruct monitors as [|monitor rest].
  - cbn. now rewrite app_nil_r.
  - unfold bind.
    destruct (snapshot_loop_result os (monitor :: rest) [] history)
      as (captured & E & _).
    rewrite E. now destruct captured.
Qed.

Lemma save_calls_are_quiet config command result :
  forallb is_quiet (save_calls config command result) = true.
Proof.
  unfold save_calls. destruct config; [|reflexivity].
  now destruct (success_count result >? 0).
Qed.

End Unconfirmed.

(** X13: when the dry-run flag or the no-confirm flag is set, nothing is
    asked and nothing is restored: after the batch the command makes no
    call other than the save of the last action (made whenever a
    configuration was loaded and a monitor was counted as rotated, in
    a dry run too), and it exits with the batch's code. *)
Theorem no_confirmation_when_suppressed :
  forall (os : OS) (command : RotationCommand) (args : CliArgs)
         (g : Globals) (history : list event) (monitors : MonitorList)
         (applicable : Util.SelectorList)
         (rollback_state : option RollbackState) (h1 : list event)
         (batch : BatchRotationResult) (h2 : list event),
    g_dry_run g = true \/ g_no_confirm g = true ->
    os_enumerate_monitors os (history ++ [load_config]) = Some monitors ->
    monitors <> [] ->
    get_applicable_selectors args (os_load_config os history)
    = Ok (Some applicable) ->
    (if g_revert_seconds g >? 0 then create_rollback_state os monitors
     else ret None) (history ++ [load_config; enumerate_monitors])
    = (rollback_state, h1) ->
    rotate_monitors_filtered os monitors command (Obs.include_set applicable)
                             (exclude_selectors args) (g_dry_run g) h1
    = (batch, h2) ->
    handle_rotation_command os command args g history
    = (Ok (exit_code batch),
       h2 ++ Obs.save_calls (os_load_config os history) command batch).
Proof.
  intros os command args g history monitors applicable rollback_state h1
         batch h2 Hflag Hm Hne Hs Hr Hb.
  apply (handle_rotation_command_steps
           os command args g history monitors applicable rollback_state
           h1 batch h2 h2 Hm Hne Hs Hr Hb).
  now apply confirm_or_revert_skipped.
Qed.

(** X13 with M1 selected and the no-confirm flag set: M1 is rotated and
    no key is read. *)
Lemma no_confirmation_when_suppressed_witness :
  handle_rotation_command
    (Scenario.healthy Scenario.key_n) ROTATION_PORTRAIT
    (mkArgs None None (Some (Scenario.sel_id "M1"))) (mkGlobals false true 0)
    []
  = (Ok 0,
     [load_config; enumerate_monitors;
      EnumDisplaySettingsExA "\\.\DISPLAY1";
      ChangeDisplaySettingsExA "\\.\DISPLAY1"
                               (mkDevmode 1572992 DMDO_90 1080 1920) 9;
      save_config (mkConfig None (Some "portrait"%string))]).
Proof.
  refine (no_confirmation_when_suppressed
            (Scenario.healthy Scenario.key_n) ROTATION_PORTRAIT
            (mkArgs None None (Some (Scenario.sel_id "M1")))
            (mkGlobals false true 0) [] Scenario.three_monitors
            [Scenario.sel_id "M1"] None
            [load_config; enumerate_monitors]
            (mkBatch 1 0 [mkResult true 0 DMDO_DEFAULT DMDO_90;
                          filtered_out Scenario.monitor2;
                          filtered_out Scenario.monitor3])
            [load_config; enumerate_monitors;
             EnumDisplaySettingsExA "\\.\DISPLAY1";
             ChangeDisplaySettingsExA
               "\\.\DISPLAY1" (mkDevmode 1572992 DMDO_90 1080 1920) 9]
            (or_intror eq_refl) eq_refl _ eq_refl eq_refl eq_refl).
  discriminate.
Defined.

(** X14: with the dry-run flag set, the whole command writes no display
    setting and reads no key: its calls are the load of the
    configuration, the enumeration, reads of live settings and, at most,
    the save of the last action. *)
Theorem dry_run_command_is_quiet :
  forall (os : OS) (command : RotationCommand) (args : CliArgs)
         (g : Globals) (history : list event),
    g_dry_run g = true ->
    exists calls,
      snd (handle_rotation_command os command args g history)
      = history ++ calls /\
      forallb Props.is_quiet calls = true.
Proof.
  intros os command args g history Hdry.
  assert (Hearly :
            forall r,
              handle_rotation_command os command args g history
              = (r, history ++ [load_config; enumerate_monitors]) ->
              exists calls,
                snd (handle_rotation_command os command args g history)
                = history ++ calls /\
                forallb Props.is_quiet calls = true).
  { intros r E. exists [load_config; enumerate_monitors]. now rewrite E. }
  destruct (os_enumerate_monitors os (history ++ [load_config]))
    as [[|monitor rest]|] eqn:Hm;
    try (eapply Hearly; unfold handle_rotation_command, bind, call;
         rewrite Hm, <- app_assoc; reflexivity).
  destruct (get_applicable_selectors args (os_load_config os history))
    as [[applicable|]|] eqn:Hs;
    try (eapply Hearly; unfold handle_rotation_command, bind, call;
         rewrite Hm, Hs, <- app_assoc; reflexivity).
  set (h0 := history ++ [load_config; enumerate_monitors]).
  assert (Hr : exists rollback_state devices,
             (if g_revert_seconds g >? 0
              then create_rollback_state os (monitor :: rest) else ret None)
               h0
             = (rollback_state, h0 ++ Props.read_calls devices)).
  { destruct (g_revert_seconds g >? 0).
    - pose proof (create_rollback_state_reads os (monitor :: rest) h0) as E.
      destruct (create_rollback_state os (monitor :: rest) h0) as [rb h].
      cbn [snd] in E. subst h.
      now exists rb, (List.map device_path (monitor :: rest)).
    - exists None, []. cbn. now rewrite app_nil_r. }
  destruct Hr as (rollback_state & devices & Hr).
  set (h1 := h0 ++ Props.read_calls devices) in *.
  destruct (rotate_monitors_filtered os (monitor :: rest) command
              (Obs.include_set applicable) (exclude_selectors args)
              (g_dry_run g) h1) as [batch h2] eqn:Hb.
  assert (Hh2 : h2 = h1 ++ Props.read_calls
                            (List.map device_path
                               (filter (should_process
                                          (Obs.include_set applicable)
                                          (exclude_selectors args))
                                       (monitor :: rest)))).
  { pose proof (rotate_loop_dry_run
                  os command (Obs.include_set applicable)
                  (exclude_selectors args) (monitor :: rest)
                  (mkBatch 0 0 []) h1) as E.
    unfold rotate_monitors_filtered in Hb. rewrite Hdry in Hb.
    rewrite Hb in E. exact E. }
  assert (Hne : monitor :: rest <> []) by discriminate.
  rewrite (handle_rotation_command_steps
             os command args g history (monitor :: rest) applicable
             rollback_state h1 batch h2 h2 Hm Hne Hs Hr Hb
             (confirm_or_revert_skipped os g batch rollback_state h2
                                        (or_introl Hdry))).
  cbn [snd]. rewrite Hh2. unfold h1, h0.
  eexists. rewrite <- !app_assoc. split; [reflexivity|].
  rewrite !forallb_app, !quiet_read_calls, save_calls_are_quiet.
  reflexivity.
Qed.

(** X14 with M1 selected: the dry run reads M1's settings and saves the
    last action. *)
Lemma dry_run_command_is_quiet_witness :
  exists calls,
    snd (handle_rotation_command
           (Scenario.healthy Scenario.key_n) ROTATION_PORTRAIT
           (mkArgs None None (Some (Scenario.sel_id "M1")))
           (mkGlobals true false 0) [])
    = [] ++ calls /\
    forallb Props.is_quiet calls = true.
Proof.
  exact (dry_run_command_is_quiet
           (Scenario.healthy Scenario.key_n) ROTATION_PORTRAIT
           (mkArgs None None (Some (Scenario.sel_id "M1")))
           (mkGlobals true false 0) [] eq_refl).
Defined.

(** ** The JSON text of the configuration (config.c) *)

Section Json.

Import Config Props.

Local Open Scope nat_scope.

Lemma unescape_escape (s : string) : unescape_chars (escape_chars s) = s.
Proof.
  induction s as [|c s IH]; [reflexivity|]. cbn [escape_chars].
  destruct (Ascii.eqb c Util.dquote) eqn:Q;
    [apply Ascii.eqb_eq in Q; subst c; cbn; now rewrite IH|].
  destruct (Ascii.eqb c backslash) eqn:B;
    [apply Ascii.eqb_eq in B; subst c; cbn; now rewrite IH|].
  destruct (Ascii.eqb c newline) eqn:N;
    [apply Ascii.eqb_eq in N; subst c; cbn; now rewrite IH|].
  destruct (Ascii.eqb c carriage_return) eqn:R;
    [apply Ascii.eqb_eq in R; subst c; cbn; now rewrite IH|].
  destruct (Ascii.eqb c tab) eqn:T;
    [apply Ascii.eqb_eq in T; subst c; cbn; now rewrite IH|].
  cbn [unescape_chars]. now rewrite B, IH.
Qed.

Lemma escape_chars_length (s : string) :
  String.length s <= String.length (escape_chars s) <= 2 * String.length s.
Proof.
  induction s as [|c s IH]; cbn [escape_chars String.length]; [lia|].
  destruct (Ascii.eqb c Util.dquote); [cbn [String.length]; lia|].
  destruct (Ascii.eqb c backslash); [cbn [String.length]; lia|].
  destruct (Ascii.eqb c newline); [cbn [String.length]; lia|].
  destruct (Ascii.eqb c carriage_return); [cbn [String.length]; lia|].
  destruct (Ascii.eqb c tab); cbn [String.length]; lia.
Qed.

Lemma last_char_append_quote (s : string) (d : ascii) :
  last_char (s ++ String Util.dquote "") d = Util.dquote.
Proof. revert d. induction s as [|c s IH]; intros d; cbn; auto. Qed.

Lemma substring_middle (s : string) (q : ascii) :
  substring 0 (String.length s) (s ++ String q "") = s.
Proof. apply substring_prefix_append. Qed.

Lemma json_unescape_quoted (body : string) :
  json_unescape_string
    (Some (String Util.dquote (body ++ String Util.dquote "")))
  = Ok (Some (unescape_chars body)).
Proof.
  unfold json_unescape_string.
  replace (String.eqb (String Util.dquote (body ++ String Util.dquote ""))
                      "null") with false by reflexivity.
  rewrite Ascii.eqb_refl, last_char_append_quote, Ascii.eqb_refl.
  cbn [andb].
  replace (substring 1 (String.length
                          (String Util.dquote
                                  (body ++ String Util.dquote "")) - 2)
                     (String Util.dquote (body ++ String Util.dquote "")))
    with body.
  - now destruct body.
  - cbn [String.length substring]. rewrite length_append. cbn [String.length].
    replace (S (String.length body + 1) - 2) with (String.length body) by lia.
    now rewrite substring_middle.
Qed.

End Json.

(** X15: [json_unescape_string] undoes [json_escape_string]: every
    string, and the absent string, is read back as it was. The escaped
    text of a string of length [n] has at most [2 * n + 2] characters,
    so it fits, with its terminator, the [2 * n + 3] bytes allocated for
    it. *)
Theorem json_unescape_escape :
  forall str : option string,
    Config.json_unescape_string (Some (Config.json_escape_string str))
    = Ok str /\
    (forall s, str = Some s ->
               (String.length (Config.json_escape_string str) + 1
                <= 2 * String.length s + 3)%nat).
Proof.
  intros [s|]; split.
  - unfold Config.json_escape_string.
    now rewrite json_unescape_quoted, unescape_escape.
  - intros s' [= <-]. unfold Config.json_escape_string.
    cbn [String.length]. rewrite length_append. cbn [String.length].
    pose proof (escape_chars_length s). lia.
  - reflexivity.
  - discriminate.
Qed.

Section JsonParsing.

Import Config Props.

Local Open Scope nat_scope.

(** The scan of a value whose text is the escaped form of [s]: the flag
    after the characters written for one character of [s] says whether
    that character was a backslash, and none of them ends the scan. *)
Lemma scan_value_escaped_char (c : ascii) (s rest : string) (escaped : bool) :
  scan_value (escape_chars (String c s) ++ rest) escaped
  = match scan_value (escape_chars s ++ rest) (Ascii.eqb c backslash) with
    | Some (value, at_quote) =>
        Some ((escape_chars (String c EmptyString) ++ value)%string, at_quote)
    | None => None
    end.
Proof.
  cbn [escape_chars].
  destruct (Ascii.eqb c Util.dquote) eqn:Q.
  { apply Ascii.eqb_eq in Q. subst c. cbn.
    now destruct (scan_value (escape_chars s ++ rest) false) as [[v q]|]. }
  destruct (Ascii.eqb c backslash) eqn:B.
  { apply Ascii.eqb_eq in B. subst c. cbn.
    now destruct (scan_value (escape_chars s ++ rest) true) as [[v q]|]. }
  destruct (Ascii.eqb c newline) eqn:N.
  { apply Ascii.eqb_eq in N. subst c. cbn.
    now destruct (scan_value (escape_chars s ++ rest) false) as [[v q]|]. }
  destruct (Ascii.eqb c carriage_return) eqn:R.
  { apply Ascii.eqb_eq in R. subst c. cbn.
    now destruct (scan_value (escape_chars s ++ rest) false) as [[v q]|]. }
  destruct (Ascii.eqb c tab) eqn:T.
  { apply Ascii.eqb_eq in T. subst c. cbn.
    now destruct (scan_value (escape_chars s ++ rest) false) as [[v q]|]. }
  cbn [append scan_value]. rewrite Q, B. cbn [andb].
  now destruct (scan_value (escape_chars s ++ rest) false) as [[v q]|].
Qed.

Lemma escape_chars_cons (c : ascii) (s : string) :
  escape_chars (String c s)
  = (escape_chars (String c EmptyString) ++ escape_chars s)%string.
Proof.
  cbn [escape_chars].
  destruct (Ascii.eqb c Util.dquote); [reflexivity|].
  destruct (Ascii.eqb c backslash); [reflexivity|].
  destruct (Ascii.eqb c newline); [reflexivity|].
  destruct (Ascii.eqb c carriage_return); [reflexivity|].
  now destruct (Ascii.eqb c tab).
Qed.

(** The closing quote is found when [s] does not end with a backslash. *)
Lemma scan_value_closed (s : string) :
  forall rest escaped,
    ends_with_char s backslash = false ->
    (s = EmptyString -> escaped = false) ->
    scan_value (escape_chars s ++ String Util.dquote rest) escaped
    = Some (escape_chars s, String Util.dquote rest).
Proof.
  induction s as [|c s IH]; intros rest escaped E H.
  - rewrite (H eq_refl). reflexivity.
  - rewrite scan_value_escaped_char, IH.
    + now rewrite <- escape_chars_cons.
    + destruct s; [reflexivity | exact E].
    + intros ->. exact E.
Qed.

(** The closing quote is passed over when [s] ends with a backslash. *)
Lemma scan_value_open (s : string) :
  forall rest escaped,
    ends_with_char s backslash = true ->
    scan_value (escape_chars s ++ String Util.dquote rest) escaped
    = match scan_value rest false with
      | Some (value, at_quote) =>
          Some ((escape_chars s ++ String Util.dquote value)%string, at_quote)
      | None => None
      end.
Proof.
  induction s as [|c s IH]; intros rest escaped E; [discriminate|].
  rewrite scan_value_escaped_char. destruct s as [|d s].
  - cbn [ends_with_char] in E. rewrite E. cbn [escape_chars append scan_value].
    rewrite Ascii.eqb_refl. cbn [negb andb].
    replace (Ascii.eqb Util.dquote backslash) with false by reflexivity.
    now destruct (scan_value rest false) as [[v q]|].
  - rewrite (IH rest _ E).
    destruct (scan_value rest false) as [[v q]|]; [|reflexivity].
    now rewrite (escape_chars_cons c (String d s)), append_assoc.
Qed.

Lemma skip_while_length (p : ascii -> bool) (s : string) :
  String.length (skip_while p s) <= String.length s.
Proof.
  induction s as [|c s IH]; cbn; [lia|]. destruct (p c); cbn; lia.
Qed.

Lemma advance_length (n : nat) :
  forall s, String.length (advance n s) <= String.length s.
Proof.
  induction n as [|n IH]; intros s; destruct s as [|c s]; cbn; try lia.
  specialize (IH s). lia.
Qed.

Lemma scan_key_length (s : string) :
  forall key at_quote,
    scan_key s = Some (key, at_quote) ->
    String.length at_quote <= String.length s.
Proof.
  induction s as [|c s IH]; intros key q H; [discriminate|].
  cbn [scan_key] in H. destruct (Ascii.eqb c Util.dquote).
  - injection H as _ <-. lia.
  - destruct (scan_key s) as [[k q']|]; [|discriminate].
    injection H as _ <-. specialize (IH k q' eq_refl). cbn. lia.
Qed.

Lemma scan_value_length (s : string) :
  forall escaped value at_quote,
    scan_value s escaped = Some (value, at_quote) ->
    String.length at_quote <= String.length s.
Proof.
  induction s as [|c s IH]; intros escaped v q H; [discriminate|].
  cbn [scan_value] in H.
  destruct (Ascii.eqb c Util.dquote && negb escaped).
  - injection H as _ <-. lia.
  - destruct (scan_value s (Ascii.eqb c backslash)) as [[v' q']|] eqn:E;
      [|discriminate].
    injection H as _ <-. specialize (IH _ _ _ E). cbn. lia.
Qed.

(** One unit of fuel per character is enough, and no value is handed to
    [json_unescape_string] that it cannot read. *)
Lemma parse_members_fuel (fuel : nat) :
  forall pos config,
    String.length pos <= fuel ->
    exists result, parse_members fuel pos config = Some (Ok result).
Proof.
  induction fuel as [|fuel IH]; intros pos config H.
  - destruct pos; [now eexists | cbn in H; lia].
  - destruct pos as [|p0 pos0]; [now eexists|].
    cbn [parse_members].
    pose proof (skip_while_length Util.isspace (String p0 pos0)) as L0.
    destruct (skip_while Util.isspace (String p0 pos0)) as [|c after];
      [now eexists|].
    cbn [String.length] in L0, H.
    destruct (Ascii.eqb c "}"%char); [now eexists|].
    destruct (negb (Ascii.eqb c Util.dquote)); [now eexists|].
    destruct (scan_key after) as [[key at_quote]|] eqn:K; [|now eexists].
    apply scan_key_length in K.
    set (skip_colon := skip_while (fun c => Util.isspace c
                                            || Ascii.eqb c ":"%char)).
    set (skip_comma := skip_while (fun c => Util.isspace c
                                            || Ascii.eqb c ","%char)).
    pose proof (advance_length 1 at_quote) as L1.
    pose proof (skip_while_length
                  (fun c => Util.isspace c || Ascii.eqb c ":"%char)
                  (advance 1 at_quote)) as L2.
    fold skip_colon in L2.
    destruct (skip_colon (advance 1 at_quote)) as [|c' after'] eqn:P.
    + apply IH. cbn. lia.
    + cbn [String.length] in L2.
      destruct (Ascii.eqb c' Util.dquote).
      * destruct (scan_value after' false) as [[text at_close]|] eqn:V;
          [|now eexists].
        apply scan_value_length in V.
        rewrite json_unescape_quoted. apply IH.
        pose proof (advance_length 1 at_close).
        pose proof (skip_while_length
                      (fun c => Util.isspace c || Ascii.eqb c ","%char)
                      (advance 1 at_close)).
        fold skip_comma in H1. lia.
      * destruct (String.prefix "null" (String c' after')).
        -- apply IH.
           pose proof (advance_length 4 (String c' after')).
           pose proof (skip_while_length
                         (fun c => Util.isspace c || Ascii.eqb c ","%char)
                         (advance 4 (String c' after'))).
           fold skip_comma in H1. cbn [String.length] in H0. lia.
        -- apply IH.
           pose proof (skip_while_length
                         (fun c => Util.isspace c || Ascii.eqb c ","%char)
                         (String c' after')).
           fold skip_comma in H0. cbn [String.length] in H0. lia.
Qed.

End JsonParsing.

Section JsonRoundTrip.

Import Config Props.

Local Open Scope nat_scope.

Local Abbreviation skip_colon :=
  (skip_while (fun c => Util.isspace c || Ascii.eqb c ":"%char)).
Local Abbreviation skip_comma :=
  (skip_while (fun c => Util.isspace c || Ascii.eqb c ","%char)).

(** One iteration of the loop on a member whose value is a string. *)
Lemma parse_member_string fuel pos config after key at_quote after' :
  skip_while Util.isspace pos = String Util.dquote after ->
  scan_key after = Some (key, at_quote) ->
  skip_colon (advance 1 at_quote) = String Util.dquote after' ->
  parse_members (S fuel) pos config
  = match scan_value after' false with
    | None => Some (Ok None)
    | Some (text, at_close) =>
        parse_members
          fuel (skip_comma (advance 1 at_close))
          (if String.eqb key "default_selector" then
             mkConfig (Some (unescape_chars text)) (last_action config)
           else if String.eqb key "last_action" then
             mkConfig (default_selector config) (Some (unescape_chars text))
           else config)
    end.
Proof.
  intros Hs Hk Hc. destruct pos as [|p0 pos0]; [discriminate|].
  cbn [parse_members]. rewrite Hs.
  replace (Ascii.eqb Util.dquote "}"%char) with false by reflexivity.
  rewrite Ascii.eqb_refl. cbn [negb]. rewrite Hk, Hc, Ascii.eqb_refl.
  destruct (scan_value after' false) as [[text at_close]|]; [|reflexivity].
  now rewrite json_unescape_quoted.
Qed.

(** One iteration of the loop on a member whose value is [null]. *)
Lemma parse_member_null fuel pos config after key at_quote rest :
  skip_while Util.isspace pos = String Util.dquote after ->
  scan_key after = Some (key, at_quote) ->
  skip_colon (advance 1 at_quote) = ("null" ++ rest)%string ->
  parse_members (S fuel) pos config
  = parse_members fuel (skip_comma rest) config.
Proof.
  intros Hs Hk Hc. destruct pos as [|p0 pos0]; [discriminate|].
  cbn [parse_members]. rewrite Hs.
  replace (Ascii.eqb Util.dquote "}"%char) with false by reflexivity.
  rewrite Ascii.eqb_refl. cbn [negb]. rewrite Hk, Hc.
  cbn -[parse_members skip_while]. now destruct rest.
Qed.

Lemma parse_member_bad fuel pos config c after :
  skip_while Util.isspace pos = String c after ->
  Ascii.eqb c "}"%char = false ->
  Ascii.eqb c Util.dquote = false ->
  parse_members (S fuel) pos config = Some (Ok None).
Proof.
  intros Hs H1 H2. destruct pos as [|p0 pos0]; [discriminate|].
  cbn [parse_members]. now rewrite Hs, H1, H2.
Qed.

Lemma parse_member_end fuel pos config after :
  skip_while Util.isspace pos = String "}"%char after ->
  parse_members (S fuel) pos config = Some (Ok (Some config)).
Proof.
  intros Hs. destruct pos as [|p0 pos0]; [discriminate|].
  cbn [parse_members]. now rewrite Hs.
Qed.

Lemma first_member fuel d rest config :
  parse_members (S (S fuel))
                (advance 1 json_head ++ json_escape_string d
                         ++ json_middle ++ rest)
                config
  = if ends_with_backslash d then Some (Ok None)
    else parse_members (S fuel) (skip_comma (json_middle ++ rest))
                       (match d with
                        | Some _ => mkConfig d (last_action config)
                        | None => config
                        end).
Proof.
  set (value := (json_escape_string d ++ json_middle ++ rest)%string).
  assert (Hs : skip_while Util.isspace (advance 1 json_head ++ value)
               = String Util.dquote
                        ("default_selector"
                           ++ String Util.dquote (": " ++ value)))
    by reflexivity.
  assert (Hk : scan_key ("default_selector"
                           ++ String Util.dquote (": " ++ value))
               = Some ("default_selector"%string,
                       String Util.dquote (": " ++ value)))
    by reflexivity.
  destruct d as [s|]; cbn [ends_with_backslash].
  - assert (Hc : skip_colon (advance 1 (String Util.dquote (": " ++ value)))
                 = String Util.dquote
                          (escape_chars s
                             ++ String Util.dquote (json_middle ++ rest))).
    { unfold value, json_escape_string. cbn [append].
      rewrite append_assoc. reflexivity. }
    rewrite (parse_member_string (S fuel) _ config _ _ _ _ Hs Hk Hc).
    destruct (ends_with_char s backslash) eqn:E.
    + rewrite (scan_value_open s _ false E).
      replace (scan_value (json_middle ++ rest) false)
        with (Some (("," ++ String newline "  ")%string,
                    String Util.dquote
                           ("last_action"
                              ++ String Util.dquote (": " ++ rest))))
        by reflexivity.
      apply (parse_member_bad fuel _ _ "l"%char
                              ("ast_action"
                                 ++ String Util.dquote (": " ++ rest)));
        reflexivity.
    + rewrite (scan_value_closed s _ false E) by (intros _; reflexivity).
      now rewrite unescape_escape.
  - apply (parse_member_null (S fuel) _ config _ _ _ _ Hs Hk). reflexivity.
Qed.

Lemma second_member fuel l config :
  parse_members (S (S fuel))
                (skip_comma (json_middle ++ json_escape_string l ++ json_tail))
                config
  = if ends_with_backslash l then Some (Ok None)
    else Some (Ok (Some (match l with
                         | Some _ => mkConfig (default_selector config) l
                         | None => config
                         end))).
Proof.
  set (value := (json_escape_string l ++ json_tail)%string).
  assert (Hs : skip_while Util.isspace (skip_comma (json_middle ++ value))
               = String Util.dquote
                        ("last_action"
                           ++ String Util.dquote (": " ++ value)))
    by reflexivity.
  assert (Hk : scan_key ("last_action"
                           ++ String Util.dquote (": " ++ value))
               = Some ("last_action"%string,
                       String Util.dquote (": " ++ value)))
    by reflexivity.
  destruct l as [s|]; cbn [ends_with_backslash].
  - assert (Hc : skip_colon (advance 1 (String Util.dquote (": " ++ value)))
                 = String Util.dquote
                          (escape_chars s ++ String Util.dquote json_tail)).
    { unfold value, json_escape_string. cbn [append].
      rewrite append_assoc. reflexivity. }
    rewrite (parse_member_string (S fuel) _ config _ _ _ _ Hs Hk Hc).
    destruct (ends_with_char s backslash) eqn:E.
    + now rewrite (scan_value_open s _ false E).
    + rewrite (scan_value_closed s _ false E) by (intros _; reflexivity).
      rewrite unescape_escape.
      now apply (parse_member_end fuel _ _ EmptyString).
  - rewrite (parse_member_null (S fuel) _ config _ _ _ json_tail Hs Hk)
      by reflexivity.
    now apply (parse_member_end fuel _ _ EmptyString).
Qed.

End JsonRoundTrip.

(** X16: reading back the text that [config_to_json] writes. When
    neither field of the configuration ends with a backslash,
    [json_to_config] returns the configuration as it was, absent fields
    included. When one of them does, the backslash written before the
    closing quote makes the scan of the value run past that quote, and
    [json_to_config] returns no configuration at all. *)
Theorem config_json_round_trip :
  forall config : MosDefConfig,
    Config.json_to_config (Some (Config.config_to_json (Some config)))
    = if Props.ends_with_backslash (default_selector config)
         || Props.ends_with_backslash (last_action config)
      then Ok None
      else Ok (Some config).
Proof.
  intros [d l]. unfold Config.json_to_config, Config.config_to_json.
  cbn [default_selector last_action].
  set (body := (Config.json_escape_string d ++ Config.json_middle
                  ++ Config.json_escape_string l ++ Config.json_tail)%string).
  replace (Config.skip_while Util.isspace (Config.json_head ++ body))
    with (String "{"%char (Config.advance 1 Config.json_head ++ body))
    by reflexivity.
  cbn [Ascii.eqb Bool.eqb andb].
  assert (Hfuel : exists fuel,
             String.length (Config.advance 1 Config.json_head ++ body)
             = S (S (S (S fuel)))).
  { eexists. cbn. reflexivity. }
  destruct Hfuel as [fuel ->].
  unfold body. rewrite first_member.
  destruct (Props.ends_with_backslash d); [reflexivity|].
  rewrite second_member. cbn [orb].
  destruct (Props.ends_with_backslash l); [reflexivity|].
  now destruct d, l.
Qed.

(** X17: [json_to_config] returns on every text: its main loop uses up at
    least one character per iteration, so as many iterations as the text
    has characters are enough, and no value it hands to
    [json_unescape_string] is the one-character text on which that
    function reads out of bounds. *)
Theorem json_to_config_returns :
  (forall (fuel : nat) (pos : string) (config : MosDefConfig),
      (String.length pos <= fuel)%nat ->
      exists result, Config.parse_members fuel pos config = Some (Ok result)) /\
  (forall text : string,
      exists result, Config.json_to_config (Some text) = Ok result).
Proof.
  split; [exact parse_members_fuel|].
  intros text. unfold Config.json_to_config.
  destruct (Config.skip_while Util.isspace text) as [|c after];
    [now eexists|].
  destruct (Ascii.eqb c "{"%char); [|now eexists].
  destruct (parse_members_fuel (String.length after) after
                               (mkConfig None None) (Nat.le_refl _))
    as [result ->].
  now eexists.
Qed.

(** ** The monitor inventory (enum.c) *)

Section Inventory.

Import Obs Props.

Local Open Scope nat_scope.

Lemma nodup_map_injective {A B : Type} (f : A -> B) (l : list A) :
  (forall a b, f a = f b -> a = b) -> NoDup l -> NoDup (List.map f l).
Proof.
  intros Hf N. induction N as [|a l Ha N IH]; cbn; constructor; [|exact IH].
  intros Hin. apply in_map_iff in Hin. destruct Hin as (b & Hb & Hin).
  apply Hf in Hb. now subst b.
Qed.

Lemma monitor_id_injective (a b : nat) :
  Enum.monitor_id a = Enum.monitor_id b -> a = b.
Proof.
  intros H. unfold Enum.monitor_id in H. injection H as H.
  apply DecimalNat.Unsigned.to_uint_inj.
  assert (E : Some (Nat.to_uint a) = Some (Nat.to_uint b)).
  { rewrite <- !DecimalString.NilEmpty.usu. now rewrite H. }
  now injection E.
Qed.



Variable os : OS.

Lemma enumerate_loop_spec (devices : list Enum.DISPLAY_DEVICEA) :
  forall monitor_index listed history,
  exists found,
    Enum.enumerate_loop os devices monitor_index listed history
    = (listed ++ found,
       history ++ read_calls (List.map Enum.DeviceName
                                       (filter is_candidate devices))) /\
    List.map id found
    = List.map Enum.monitor_id (seq monitor_index (List.length found)) /\
    incl (List.map device_path found)
         (List.map Enum.DeviceName (filter is_candidate devices)) /\
    List.length found <= List.length (filter is_candidate devices).
Proof.
  induction devices as [|device rest IH]; intros idx listed history.
  - exists []. cbn. rewrite !app_nil_r. repeat split; auto. intros x [].
  - cbn [Enum.enumerate_loop filter].
    destruct (Z.land (Enum.StateFlags device) Enum.DISPLAY_DEVICE_ACTIVE
              =? 0)%Z eqn:A.
    { replace (is_candidate device) with false
        by (unfold is_candidate; now rewrite A).
      apply IH. }
    destruct (Z.land (Enum.StateFlags device)
                     Enum.DISPLAY_DEVICE_MIRRORING_DRIVER =? 0)%Z eqn:Mi;
      cbn [negb].
    2:{ replace (is_candidate device) with false
          by (unfold is_candidate; now rewrite A, Mi).
        apply IH. }
    replace (is_candidate device) with true
      by (unfold is_candidate; now rewrite A, Mi).
    unfold bind, call.
    destruct (os_enum_settings os history (Enum.DeviceName device)) as [d|].
    + match goal with
      | |- context [Enum.enumerate_loop os rest ?i ?l ?h] =>
          destruct (IH i l h) as (found & E & I & C & L)
      end.
      rewrite E. eexists (_ :: found).
      rewrite <- !app_assoc. cbn [app List.map read_calls].
      split; [reflexivity|]. split; [|split].
      * cbn [List.map id List.length seq]. now rewrite I.
      * cbn [List.map device_path].
        intros x [<- | Hx]; [now left | right; now apply C].
      * cbn [List.length]. lia.
    + destruct (IH idx listed
                   (history ++ [EnumDisplaySettingsExA
                                  (Enum.DeviceName device)]))
        as (found & E & I & C & L).
      rewrite E. exists found.
      rewrite <- !app_assoc. cbn [app List.map read_calls].
      split; [reflexivity|]. split; [exact I|]. split.
      * intros x Hx. right. now apply C.
      * cbn [List.length]. lia.
Qed.


Lemma find_by_id_found (monitors : MonitorList) (wanted : string) :
  forall m, Enum.find_monitor_by_id monitors wanted = Some m ->
            In m monitors /\ id m = wanted.
Proof.
  induction monitors as [|monitor rest IH]; intros m H; [discriminate|].
  cbn [Enum.find_monitor_by_id] in H.
  destruct (String.eqb (id monitor) wanted) eqn:E.
  - injection H as <-. apply String.eqb_eq in E. split; [now left | exact E].
  - destruct (IH m H). split; [now right | assumption].
Qed.

Lemma find_by_id_first (monitors : MonitorList) :
  NoDup (List.map id monitors) ->
  forall m, In m monitors -> Enum.find_monitor_by_id monitors (id m) = Some m.
Proof.
  induction monitors as [|monitor rest IH]; intros N m H; [contradiction|].
  cbn [Enum.find_monitor_by_id]. cbn [List.map] in N. inversion N as [|? ? Hn N'].
  subst. destruct H as [-> | H]; [now rewrite String.eqb_refl|].
  destruct (String.eqb (id monitor) (id m)) eqn:E; [|now apply IH].
  exfalso. apply Hn. apply String.eqb_eq in E. rewrite E. now apply in_map.
Qed.

End Inventory.


(** X19: [find_monitor_by_id] and [find_monitor_by_device_path] return a
    monitor of the list that has the id, or the device path, asked for,
    and return nothing exactly when the list has no such monitor; when
    the ids of the list are pairwise distinct, every monitor of the list
    is found by its id. *)
Theorem find_monitor_finds :
  forall (monitors : MonitorList) (wanted : string),
    (forall m, Enum.find_monitor_by_id monitors wanted = Some m ->
               In m monitors /\ id m = wanted) /\
    (Enum.find_monitor_by_id monitors wanted = None <->
     forall m, In m monitors -> id m <> wanted) /\
    (forall m, Enum.find_monitor_by_device_path monitors wanted = Some m ->
               In m monitors /\ device_path m = wanted) /\
    (Enum.find_monitor_by_device_path monitors wanted = None <->
     forall m, In m monitors -> device_path m <> wanted) /\
    (NoDup (List.map id monitors) ->
     forall m, In m monitors ->
               Enum.find_monitor_by_id monitors (id m) = Some m).
Proof.
  intros monitors wanted.
  split; [apply find_by_id_found|]. split; [|split; [|split]].
  - induction monitors as [|monitor rest IH]; cbn [Enum.find_monitor_by_id].
    + split; [intros _ m [] | reflexivity].
    + destruct (String.eqb (id monitor) wanted) eqn:E.
      * split; [discriminate|]. intros H. apply String.eqb_eq in E.
        exfalso. apply (H monitor); [now left | exact E].
      * apply String.eqb_neq in E. rewrite IH. split.
        -- intros H m [<- | Hm]; [exact E | now apply H].
        -- intros H m Hm. apply H. now right.
  - induction monitors as [|monitor rest IH]; intros m H; [discriminate|].
    cbn [Enum.find_monitor_by_device_path] in H.
    destruct (String.eqb (device_path monitor) wanted) eqn:E.
    + injection H as <-. apply String.eqb_eq in E.
      split; [now left | exact E].
    + destruct (IH m H). split; [now right | assumption].
  - induction monitors as [|monitor rest IH];
      cbn [Enum.find_monitor_by_device_path].
    + split; [intros _ m [] | reflexivity].
    + destruct (String.eqb (device_path monitor) wanted) eqn:E.
      * split; [discriminate|]. intros H. apply String.eqb_eq in E.
        exfalso. apply (H monitor); [now left | exact E].
      * apply String.eqb_neq in E. rewrite IH. split.
        -- intros H m [<- | Hm]; [exact E | now apply H].
        -- intros H m Hm. apply H. now right.
  - apply find_by_id_first.
Qed.

(** X20: the id of an enumerated monitor selects that monitor and no
    other: it parses to a monitor-id selector with the id as value, this
    selector matches the monitor at a position of the inventory exactly
    when that position is the monitor's own, and the monitor is the one
    [find_monitor_by_id] returns for the id. *)
Theorem enumerated_id_selects_its_monitor :
  forall (os : OS) (devices : list Enum.DISPLAY_DEVICEA)
         (history : list event) (i j : nat) (m m' : MonitorInfo),
    let monitors := fst (Enum.enumerate_monitors os devices history) in
    nth_error monitors i = Some m ->
    nth_error monitors j = Some m' ->
    Util.parse_selector (Some (id m))
    = Some (Util.mkSelector Util.SELECTOR_TYPE_MONITOR_ID (id m)) /\
    (Util.matches_monitor
       (Util.mkSelector Util.SELECTOR_TYPE_MONITOR_ID (id m))
       (id m') (device_path m') (device_name m') = true <-> i = j) /\
    Enum.find_monitor_by_id monitors (id m) = Some m.
Proof.
  intros os devices history i j m m' monitors Hi Hj.
  assert (Hids : List.map id monitors
                 = List.map Enum.monitor_id
                            (seq 1 (List.length monitors))).
  { subst monitors. unfold Enum.enumerate_monitors.
    destruct (enumerate_loop_spec os devices 1%nat [] history)
      as (found & E & I & _).
    rewrite E. exact I. }
  assert (Hid : forall k x, nth_error monitors k = Some x ->
                            id x = Enum.monitor_id (1 + k)).
  { intros k x Hk.
    pose proof (map_nth_error id k monitors Hk) as H1.
    rewrite Hids, nth_error_map, nth_error_seq in H1.
    destruct (Nat.ltb k (List.length monitors)); [|discriminate].
    cbn in H1. now injection H1 as <-. }
  assert (Hnodup : NoDup (List.map id monitors)).
  { rewrite Hids. apply nodup_map_injective;
      [exact monitor_id_injective | apply seq_NoDup]. }
  split; [|split].
  - rewrite (Hid i m Hi). unfold Util.parse_selector, Enum.monitor_id.
    destruct (Util.is_monitor_id _); reflexivity.
  - unfold Util.matches_monitor. cbn [Util.type Util.value].
    rewrite String.eqb_eq, (Hid i m Hi), (Hid j m' Hj). split.
    + intros H. apply monitor_id_injective in H. lia.
    + now intros ->.
  - apply find_by_id_first; [exact Hnodup|]. eapply nth_error_In; exact Hi.
Qed.

(** X20 on a desktop with two usable displays: M2 is the second of
    them. *)
Lemma enumerated_id_selects_its_monitor_witness :
  Enum.find_monitor_by_id
    (fst (Enum.enumerate_monitors (Scenario.healthy Scenario.key_n)
                                  Desktop.devices []))
    "M2"
  = Some (mkMonitor "M2" "Dell P2419H" "\\.\DISPLAY3" 1920 1080 0 "DEL3").
Proof.
  exact (proj2 (proj2
    (enumerated_id_selects_its_monitor
       (Scenario.healthy Scenario.key_n) Desktop.devices [] 1 1
       (mkMonitor "M2" "Dell P2419H" "\\.\DISPLAY3" 1920 1080 0 "DEL3")
       (mkMonitor "M2" "Dell P2419H" "\\.\DISPLAY3" 1920 1080 0 "DEL3")
       eq_refl eq_refl))).
Defined.

(** ** Argument parsing and [main] (cli.c) *)

Section MainProgram.

Import CliMain Props.

Local Open Scope Z_scope.

Variable atoi : string -> Z.

(** The first loop of [parse_args] reads the flags it is given only to
    pass them on: from flags with the same revert timer it stops at the
    same argument, with the same record and the same revert timer. *)
Lemma parse_global_flags_revert (n : nat) :
  forall argv, (List.length argv <= n)%nat ->
  forall args f1 f2,
    g_revert_seconds (globals f1) = g_revert_seconds (globals f2) ->
    fst (parse_global_flags atoi argv args f1)
    = fst (parse_global_flags atoi argv args f2) /\
    g_revert_seconds (globals (snd (parse_global_flags atoi argv args f1)))
    = g_revert_seconds (globals (snd (parse_global_flags atoi argv args f2))).
Proof.
  induction n as [|n IH]; intros argv Hlen args f1 f2 H.
  - destruct argv; [now split | cbn in Hlen; lia].
  - destruct argv as [|arg rest]; [now split|].
    cbn [List.length] in Hlen. cbn [parse_global_flags].
    destruct (String.eqb arg "--dry-run"); [apply IH; [lia | exact H]|].
    destruct (String.eqb arg "--verbose"); [apply IH; [lia | exact H]|].
    destruct (String.eqb arg "--no-confirm"); [apply IH; [lia | exact H]|].
    destruct (String.eqb arg "--force-rdp"); [apply IH; [lia | exact H]|].
    destruct (String.eqb arg "--version"); [apply IH; [lia | exact H]|].
    destruct (String.eqb arg "--help" || String.eqb arg "-h");
      [apply IH; [lia | exact H]|].
    destruct (String.eqb arg "--revert-seconds"); [|now split].
    destruct rest as [|seconds rest']; [now split|].
    apply IH; [cbn [List.length] in Hlen; lia | reflexivity].
Qed.

Lemma parse_global_flags_reset_flag flag argv args flags :
  is_reset_flag flag = true ->
  exists flags',
    parse_global_flags atoi (flag :: argv) args flags
    = parse_global_flags atoi argv args flags' /\
    g_revert_seconds (globals flags') = g_revert_seconds (globals flags).
Proof.
  unfold is_reset_flag. intros H. cbn [parse_global_flags].
  destruct (String.eqb flag "--dry-run");
    [now exists (set_dry_run flags)|].
  destruct (String.eqb flag "--verbose");
    [now exists (set_verbose flags)|].
  destruct (String.eqb flag "--no-confirm");
    [now exists (set_no_confirm flags)|].
  destruct (String.eqb flag "--force-rdp");
    [now exists (set_force_rdp flags) | discriminate].
Qed.

Variable os : OS.

(** [main] depends on the command line through the result of
    [parse_args], the revert timer it leaves and whether there is any
    argument. *)
Lemma main_of_parse session argv1 argv2 parsed flags1 flags2 :
  parse_args atoi argv1 initial_flags = (parsed, flags1) ->
  parse_args atoi argv2 initial_flags = (parsed, flags2) ->
  g_revert_seconds (globals flags1) = g_revert_seconds (globals flags2) ->
  argv1 <> [] -> argv2 <> [] ->
  main atoi os session argv1 = main atoi os session argv2.
Proof.
  intros H1 H2 Hr N1 N2. unfold main. rewrite H1, H2, Hr.
  destruct argv1; [congruence|]. destruct argv2; [congruence|]. reflexivity.
Qed.

Lemma global_flag_not_reached command args flags rest :
  is_global_flag command = false ->
  parse_global_flags atoi (command :: rest) args flags
  = (command :: rest, args, flags).
Proof.
  unfold is_global_flag, is_reset_flag. intros H.
  repeat (apply orb_false_iff in H; destruct H as [H ?]).
  cbn [parse_global_flags].
  repeat match goal with E : String.eqb _ _ = false |- _ =>
                           rewrite E; clear E end.
  reflexivity.
Qed.

End MainProgram.

(** X21: [main] sets the dry-run, no-confirm, force-RDP and verbose
    variables again after [parse_args] has set them from the command
    line, so these four flags have no effect: a command line that
    starts with one of them runs as the command line without it does.
    In particular [--dry-run] does not keep a rotation from being
    applied. *)
Theorem main_ignores_reset_flags :
  forall (atoi : string -> Z) (os : OS) (session_name : option string)
         (flag : string) (argv : list string),
    Props.is_reset_flag flag = true ->
    argv <> [] ->
    CliMain.main atoi os session_name (flag :: argv)
    = CliMain.main atoi os session_name argv.
Proof.
  intros atoi os session flag argv Hflag Hne.
  destruct (CliMain.parse_args atoi argv CliMain.initial_flags)
    as [parsed flags2] eqn:P2.
  destruct (parse_global_flags_reset_flag
              atoi flag argv
              (CliMain.mkParsed None (mkArgs None None None) None
                                false false false)
              CliMain.initial_flags Hflag) as (flags' & E & Hr).
  destruct (parse_global_flags_revert
              atoi (List.length argv) argv (Nat.le_refl _)
              (CliMain.mkParsed None (mkArgs None None None) None
                                false false false)
              flags' CliMain.initial_flags Hr) as (Hfst & Hrev).
  assert (P1 : exists flags1,
             CliMain.parse_args atoi (flag :: argv) CliMain.initial_flags
             = (parsed, flags1) /\
             g_revert_seconds (CliMain.globals flags1)
             = g_revert_seconds (CliMain.globals flags2)).
  { unfold CliMain.parse_args in *. rewrite E.
    destruct (CliMain.parse_global_flags atoi argv _ flags')
      as [[rest1 args1] fl1].
    destruct (CliMain.parse_global_flags atoi argv _ CliMain.initial_flags)
      as [[rest2 args2] fl2].
    cbn [fst snd] in Hfst, Hrev. injection Hfst as -> ->.
    exists fl1. split; [|destruct rest2; now injection P2 as _ <-].
    destruct rest2; injection P2 as <- _; reflexivity. }
  destruct P1 as (flags1 & P1 & Hr12).
  apply (main_of_parse atoi os session (flag :: argv) argv parsed
                       flags1 flags2 P1 P2 Hr12);
    [discriminate | exact Hne].
Qed.

(** X21 on a dry-run rotation of M1: the rotation is written. *)
Lemma main_ignores_reset_flags_witness :
  Obs.writes
    (snd (CliMain.main (fun _ => 0) (Scenario.healthy Scenario.key_Y) None
                       ["--dry-run"; "portrait"; "--only"; "M1"]%string []))
  = [ChangeDisplaySettingsExA "\\.\DISPLAY1"
                              (mkDevmode 1572992 DMDO_90 1080 1920) 9].
Proof.
  rewrite (main_ignores_reset_flags
             (fun _ => 0) (Scenario.healthy Scenario.key_Y) None
             "--dry-run" ["portrait"; "--only"; "M1"]%string eq_refl);
    [reflexivity | discriminate].
Defined.

(** Under a remote-desktop session (a session name that starts with
    [RDP-]) [main] calls nothing, whatever the command line, the flag
    [--force-rdp] included: it returns 2 whenever the command line
    parses, and otherwise fails as it does outside such a session. *)
Theorem main_refuses_rdp_session :
  forall (atoi : string -> Z) (os : OS) (session_name : option string)
         (argv : list string) (history : list event),
    Util.is_rdp_session session_name = true ->
    CliMain.main atoi os session_name argv history
    = (match fst (CliMain.parse_args atoi argv CliMain.initial_flags) with
       | UB => UB
       | Ok None => Ok CliMain.EXIT_FAILURE
       | Ok (Some _) => Ok 2
       end, history).
Proof.
  intros atoi os session argv history H. unfold CliMain.main.
  destruct (CliMain.parse_args atoi argv CliMain.initial_flags)
    as [[[args|]|] flags]; cbn [fst]; try reflexivity.
  now rewrite H.
Qed.

(** The same with [--force-rdp] on the command line. *)
Lemma main_refuses_rdp_session_witness :
  CliMain.main (fun _ => 0) (Scenario.healthy Scenario.key_Y)
               (Some "RDP-Tcp#0"%string) ["--force-rdp"; "list"]%string []
  = (Ok 2, []).
Proof.
  exact (main_refuses_rdp_session
           (fun _ => 0) (Scenario.healthy Scenario.key_Y)
           (Some "RDP-Tcp#0"%string) ["--force-rdp"; "list"]%string []
           eq_refl).
Defined.

(** X22: the global flags are recognised before the command only. When
    the argument that follows the command is none of [--only],
    [--include], [--exclude], [--save-default] and [--clear-default],
    [parse_args] fails and [main] returns [EXIT_FAILURE] without a call
    (so [toggle --dry-run] rotates nothing and fails). *)
Theorem main_rejects_unknown_argument :
  forall (atoi : string -> Z) (os : OS) (session_name : option string)
         (command arg : string) (rest : list string) (history : list event),
    Props.is_global_flag command = false ->
    Props.is_command_option arg = false ->
    CliMain.main atoi os session_name (command :: arg :: rest) history
    = (Ok CliMain.EXIT_FAILURE, history).
Proof.
  intros atoi os session command arg rest history Hc Ha.
  unfold CliMain.main, CliMain.parse_args.
  rewrite (global_flag_not_reached atoi command _ _ (arg :: rest) Hc).
  unfold Props.is_command_option in Ha.
  repeat (apply orb_false_iff in Ha; destruct Ha as [Ha ?]).
  cbn [CliMain.parse_command_args].
  repeat match goal with E : String.eqb _ _ = false |- _ =>
                           rewrite E; clear E end.
  reflexivity.
Qed.

(** X22 at [toggle --dry-run]. *)
Lemma main_rejects_unknown_argument_witness :
  CliMain.main (fun _ => 0) (Scenario.healthy Scenario.key_Y) None
               ["toggle"; "--dry-run"]%string []
  = (Ok 1, []).
Proof.
  exact (main_rejects_unknown_argument
           (fun _ => 0) (Scenario.healthy Scenario.key_Y) None
           "toggle" "--dry-run" [] [] eq_refl eq_refl).
Defined.

Section MainMore.

Import CliMain Props.

Variable atoi : string -> Z.

Lemma parse_global_flags_all_reset (flags_given : list string) :
  forall args flags,
    forallb is_reset_flag flags_given = true ->
    exists flags',
      parse_global_flags atoi flags_given args flags = ([], args, flags').
Proof.
  induction flags_given as [|flag rest IH]; intros args flags H.
  - now exists flags.
  - cbn [forallb] in H. apply andb_true_iff in H. destruct H as [Hf Hr].
    destruct (parse_global_flags_reset_flag atoi flag rest args flags Hf)
      as (flags1 & E & _).
    rewrite E. now apply IH.
Qed.

End MainMore.

(** X23: a command line with [--save-default] after the command only
    saves the default selector: [main] loads the configuration, saves it
    with the selector as default and the last action it had (none when
    nothing could be loaded), returns 0 or, when the save fails, 3, and
    does not run the command, so no monitor is enumerated or rotated. *)
Theorem main_save_default_only_saves :
  forall (atoi : string -> Z) (os : OS) (session_name : option string)
         (command selector : string) (history : list event),
    Util.is_rdp_session session_name = false ->
    Props.is_global_flag command = false ->
    let saved :=
      mkConfig (Some selector)
               (match os_load_config os history with
                | Some config => last_action config
                | None => None
                end) in
    CliMain.main atoi os session_name
                 [command; "--save-default"%string; selector] history
    = (Ok (if os_save_config os (history ++ [load_config]) saved
           then 0 else 3),
       history ++ [load_config; save_config saved]).
Proof.
  intros atoi os session command selector history Hrdp Hc saved.
  unfold CliMain.main, CliMain.parse_args.
  rewrite (global_flag_not_reached atoi command _ _ _ Hc).
  cbn [CliMain.parse_command_args String.eqb Ascii.eqb Bool.eqb
       CliMain.version CliMain.help CliMain.save_default orb].
  rewrite Hrdp. cbn [andb].
  unfold CliMain.handle_save_default, bind, call, ret.
  rewrite <- app_assoc. subst saved.
  now destruct (os_load_config os history).
Qed.

(** X23 at [toggle --save-default M2]. *)
Lemma main_save_default_only_saves_witness :
  CliMain.main (fun _ => 0) (Scenario.healthy Scenario.key_Y) None
               ["toggle"; "--save-default"; "M2"]%string []
  = (Ok 0, [load_config;
            save_config (mkConfig (Some "M2"%string) None)]).
Proof.
  exact (main_save_default_only_saves
           (fun _ => 0) (Scenario.healthy Scenario.key_Y) None
           "toggle" "M2" [] eq_refl eq_refl).
Defined.

(** X24: a selector option whose value does not parse is dropped without
    a message: when the value of [--only] is rejected by
    [parse_selector], or the value of [--include] or [--exclude] by
    [parse_selector_list], and the option comes first after the
    command, the command line runs as it does without the option and
    its value. *)
Theorem main_drops_unparsed_selector :
  forall (atoi : string -> Z) (os : OS) (session_name : option string)
         (command option text : string) (rest : list string),
    Props.is_global_flag command = false ->
    (option = "--only"%string /\ Util.parse_selector (Some text) = None) \/
    ((option = "--include"%string \/ option = "--exclude"%string) /\
     Util.parse_selector_list (Some text) = Ok None) ->
    CliMain.main atoi os session_name (command :: option :: text :: rest)
    = CliMain.main atoi os session_name (command :: rest).
Proof.
  intros atoi os session command option text rest Hc H.
  unfold CliMain.main, CliMain.parse_args.
  rewrite !(global_flag_not_reached atoi command _ _ _ Hc).
  destruct H as [[-> H] | [[-> | ->] H]];
    cbn [CliMain.parse_command_args String.eqb Ascii.eqb Bool.eqb];
    rewrite H; reflexivity.
Qed.

(** X24 at an [--only] value with an unterminated quote. *)
Lemma main_drops_unparsed_selector_witness :
  CliMain.main (fun _ => 0) (Scenario.healthy Scenario.key_Y) None
               ["portrait"; "--only";
                "name:" ++ String Util.dquote "TV"]%string
  = CliMain.main (fun _ => 0) (Scenario.healthy Scenario.key_Y) None
                 ["portrait"]%string.
Proof.
  exact (main_drops_unparsed_selector
           (fun _ => 0) (Scenario.healthy Scenario.key_Y) None
           "portrait" "--only" ("name:" ++ String Util.dquote "TV")%string []
           eq_refl (or_introl (conj eq_refl eq_refl))).
Defined.

(** X25: a command line made only of the flags [--dry-run], [--verbose],
    [--no-confirm] and [--force-rdp] has no command, and [main], outside
    a remote-desktop session, goes on to compare the missing command
    name with the command names: undefined behaviour, before any
    call. *)
Theorem main_without_command_is_undefined :
  forall (atoi : string -> Z) (os : OS) (session_name : option string)
         (flags_given : list string) (history : list event),
    flags_given <> [] ->
    forallb Props.is_reset_flag flags_given = true ->
    Util.is_rdp_session session_name = false ->
    CliMain.main atoi os session_name flags_given history = (UB, history).
Proof.
  intros atoi os session flags_given history Hne Hall Hrdp.
  unfold CliMain.main, CliMain.parse_args.
  destruct (parse_global_flags_all_reset
              atoi flags_given
              (CliMain.mkParsed None (mkArgs None None None) None
                                false false false)
              CliMain.initial_flags Hall) as (flags' & ->).
  rewrite Hrdp. cbn. now destruct flags_given.
Qed.

(** X25 at [--verbose] alone. *)
Lemma main_without_command_is_undefined_witness :
  CliMain.main (fun _ => 0) (Scenario.healthy Scenario.key_Y) None
               ["--verbose"]%string []
  = (UB, []).
Proof.
  refine (main_without_command_is_undefined
            (fun _ => 0) (Scenario.healthy Scenario.key_Y) None
            ["--verbose"]%string [] _ eq_refl eq_refl).
  discriminate.
Defined.


